(** * hf-robot: rollout evaluation, episode compilation and online-dataset merging

    A shallow embedding of [utils.py]: the sampling-weight calculator
    ([calculate_online_sample_weight]), the episode-boundary resolution and
    metric bookkeeping of [eval_policy], the rollout-to-dataset compiler
    ([_compile_episode_data]) and the online-dataset merger
    ([add_episodes_inplace]); then the rollout loop ([rollout], over an
    abstract environment and policy), [eval_policy] with
    [return_episode_data=True], the optimizer factory
    ([make_optimizer_and_scheduler]), the progress counters of
    [log_train_info] and [log_eval_info], and the dictionary [update_policy]
    returns.

    Conventions.  Python [int]s and int64 tensor entries are [Z] (the values
    handled here are frame and episode counters, far below 2^63, so the int64
    wrap-around is not modelled).  Python [float]s and float32 tensor entries
    are exact rationals [Q]: rounding is not modelled, and the conversion of
    an [int] to a [float] is exact (an [int] beyond the range of a double,
    which Python refuses to convert, is outside the model).  A Python list and a
    one-dimensional tensor are a [list]; a tensor of shape (batch, steps) is
    a list of rows.  Code that can raise returns a [result]. *)

From Stdlib Require Import ZArith QArith Qround Qminmax List Bool Lia Lqa Permutation.
From Stdlib Require Ascii String.
Import ListNotations String.StringSyntax.
Delimit Scope string_scope with string.
Open Scope Z_scope.

Set Implicit Arguments.

(** ** The Python runtime the code relies on *)

Inductive exception : Type :=
| AssertionError
| IndexError
| ZeroDivisionError
| TypeError
| ValueError
| KeyError
| RuntimeError.

Inductive result (A : Type) : Type :=
| Ok (a : A)
| Raise (e : exception).

Arguments Ok {A} a.
Arguments Raise {A} e.

Definition bind {A B : Type} (r : result A) (k : A -> result B) : result B :=
  match r with
  | Ok a => k a
  | Raise e => Raise e
  end.

Notation "x <- r ;; k" := (bind r (fun x => k))
  (at level 61, r at next level, right associativity).
Notation "r ;;; k" := (bind r (fun _ => k))
  (at level 61, right associativity).

(** [assert cond] *)
Definition assert_ (cond : bool) : result unit :=
  if cond then Ok tt else Raise AssertionError.

(** [len(l)] *)
Definition len {A : Type} (l : list A) : Z := Z.of_nat (length l).

(** [l[i]]: a negative [i] counts from the end; out of range raises. *)
Definition getitem {A : Type} (l : list A) (i : Z) : result A :=
  let j := if i <? 0 then len l + i else i in
  if (j <? 0) || (len l <=? j) then Raise IndexError
  else match nth_error l (Z.to_nat j) with
       | Some a => Ok a
       | None => Raise IndexError
       end.

(** [l[:n]]: a negative [n] counts from the end; never raises. *)
Definition slice_to {A : Type} (l : list A) (n : Z) : list A :=
  if n <? 0 then firstn (Z.to_nat (len l + n)) l else firstn (Z.to_nat n) l.

(** [[x] * n]: the empty list when [n <= 0]. *)
Definition list_times {A : Type} (x : A) (n : Z) : list A := repeat x (Z.to_nat n).

(** [range(lo, hi)] and [torch.arange(lo, hi, 1)] on integers, as a list. *)
Definition range (lo hi : Z) : list Z :=
  map (fun k => lo + Z.of_nat k) (seq 0 (Z.to_nat (hi - lo))).

(** [l[n:]], the complement of [l[:n]]. *)
Definition slice_from {A : Type} (l : list A) (n : Z) : list A :=
  if n <? 0 then skipn (Z.to_nat (len l + n)) l else skipn (Z.to_nat n) l.

(** [a // b] and [a % b] on integers: a zero divisor raises. *)
Definition floordiv (a b : Z) : result Z :=
  if b =? 0 then Raise ZeroDivisionError else Ok (a / b).

Definition pymod (a b : Z) : result Z :=
  if b =? 0 then Raise ZeroDivisionError else Ok (a mod b).

(** [int(b)] and [t.to(int)] on a boolean. *)
Definition int_of_bool (b : bool) : Z := if b then 1 else 0.

(** [a / b] on floats: division by zero raises. *)
Definition truediv (a b : Q) : result Q :=
  if Qeq_bool b 0 then Raise ZeroDivisionError else Ok (a / b)%Q.

(** ** SamplingWeightCalculator *)

(** [calculate_online_sample_weight(n_off, n_on, pc_on)].  Both products
    convert a count to a [float]; the conversion is exact here, so the
    [OverflowError] of a count beyond the range of a double is not part of
    this function. *)
Definition calculate_online_sample_weight (n_off n_on : Z) (pc_on : Q) : result Q :=
  assert_ (Qle_bool 0 pc_on && Qle_bool pc_on 1) ;;;
  truediv (- (inject_Z n_off * pc_on))%Q (inject_Z n_on * (pc_on - 1))%Q.

(** The fraction of the sampling weight that is online when every offline
    sample weighs 1 and every online sample weighs [w], as the docstring
    writes it: [n_on * w / (n_off + n_on * w)]. *)
Definition online_fraction (n_off n_on : Z) (w : Q) : result Q :=
  truediv (inject_Z n_on * w)%Q (inject_Z n_off + inject_Z n_on * w)%Q.

(** ** Tensors of shape (batch, steps)

    [n_cols] is [shape[1]]; it is kept apart from the rows because a tensor
    with no row still has a step count. *)

Record tensor2 (A : Type) : Type := Tensor2 {
  n_cols : nat;
  rows : list (list A)
}.

Definition well_shaped {A : Type} (t : tensor2 A) : Prop :=
  Forall (fun r => length r = n_cols t) (rows t).

Definition shape {A : Type} (t : tensor2 A) : nat * nat :=
  (length (rows t), n_cols t).

(** ** EpisodeBoundaryResolver (the boundary lines of [eval_policy]) *)

(** [torch.argmax] along a row: the index of the first occurrence of the
    largest entry (the code's comment relies on that tie-break). *)
Fixpoint argmax_from (best : Z) (best_ix ix : nat) (l : list Z) : nat :=
  match l with
  | [] => best_ix
  | x :: l' =>
      if best <? x then argmax_from x ix (S ix) l'
      else argmax_from best best_ix (S ix) l'
  end.

Definition argmax_row (l : list Z) : nat :=
  match l with
  | [] => O
  | x :: l' => argmax_from x 0 1 l'
  end.

(** [torch.argmax(t, axis=1)]: refused when the reduced axis is empty. *)
Definition argmax_axis1 (t : tensor2 Z) : result (list Z) :=
  if Nat.eqb (n_cols t) 0 then Raise IndexError
  else Ok (map (fun r => Z.of_nat (argmax_row r)) (rows t)).

(** [t.to(int)] *)
Definition to_int (t : tensor2 bool) : tensor2 Z :=
  {| n_cols := n_cols t; rows := map (map int_of_bool) (rows t) |}.

(** [done_indices = torch.argmax(rollout_data["done"].to(int), axis=1)] *)
Definition done_indices_of (done : tensor2 bool) : result (list Z) :=
  argmax_axis1 (to_int done).

(** [einops.repeat(v, "b -> b s", s=s)] *)
Definition einops_repeat_b_s (v : list Z) (s : nat) : list (list Z) :=
  map (fun x => repeat x s) v.

(** [a <= m] with the one-dimensional [a] broadcast over the rows of [m],
    followed by [.int()]. *)
Definition broadcast_le_int (a : list Z) (m : list (list Z)) : list (list Z) :=
  map (fun r => map (fun p => int_of_bool (fst p <=? snd p)) (combine a r)) m.

(** [mask = (torch.arange(n_steps) <= einops.repeat(done_indices + 1, "b -> b s", s=n_steps)).int()] *)
Definition validity_mask (n_steps : nat) (done_indices : list Z) : tensor2 Z :=
  {| n_cols := n_steps;
     rows := broadcast_le_int (range 0 (Z.of_nat n_steps))
               (einops_repeat_b_s (map (fun d => d + 1) done_indices) n_steps) |}.

(** The two boundary lines together: [n_steps], [done_indices], [mask]. *)
Definition resolve_boundaries (done : tensor2 bool) : result (list Z * tensor2 Z) :=
  let n_steps := n_cols done in
  done_indices <- done_indices_of done ;;
  Ok (done_indices, validity_mask n_steps done_indices).

(** [rollout_data[k] * mask], elementwise on rows of equal shape. *)
Definition mul_mask (x : list (list Q)) (mask : list (list Z)) : list (list Q) :=
  map (fun p => map (fun q => (fst q * inject_Z (snd q))%Q) (combine (fst p) (snd p)))
      (combine x mask).

Definition sum_Q (l : list Q) : Q := fold_left Qplus l 0%Q.

(** [einops.reduce(x, "b n -> b", "sum")] *)
Definition reduce_sum (x : list (list Q)) : list Q := map sum_Q x.

(** [einops.reduce(x, "b n -> b", "max")]; a row of a boundary-resolved
    rollout is never empty, an empty one reduces to 0 here. *)
Definition reduce_max (x : list (list Q)) : list Q :=
  map (fun r => match r with [] => 0%Q | a :: r' => fold_left Qmax r' a end) x.

(** [einops.reduce(success * mask, "b n -> b", "any")] *)
Definition reduce_any (success : list (list bool)) (mask : list (list Z)) : list bool :=
  map (fun p => existsb (fun q => negb (int_of_bool (fst q) * snd q =? 0))
                        (combine (fst p) (snd p)))
      (combine success mask).

(** ** Rollout data

    A frame of an observation is a tensor of its own: shape, element type and
    the entries in row-major order. *)

Inductive dtype : Type := Float32 | UInt8 | Int64 | BoolT.

Record tensor : Type := Tensor {
  t_shape : list Z;
  t_dtype : dtype;
  t_data : list Q
}.

(** The dictionary [rollout] returns.  [rd_observation] is [None] when the
    rollout was run without [return_observations]; otherwise it maps each
    observation key, in insertion order, to a (batch, steps + 1) tensor of
    frames. *)
Record rollout_data : Type := RolloutData {
  rd_action : tensor2 (list Q);
  rd_reward : tensor2 Q;
  rd_success : tensor2 bool;
  rd_done : tensor2 bool;
  rd_observation : option (list (String.string * list (list tensor)))
}.

(** ** EvalOrchestrator: [eval_policy]

    The environment batch and the policy are external; [rollout] is taken as
    a function of their joint state and the seeds.  The model follows the
    call with [return_episode_data=False] and [max_episodes_rendered=0] (the
    defaults), which is the path that produces the metrics; wall-clock
    fields are left out. *)

Record episode_entry : Type := EpisodeEntry {
  episode_ix : Z;
  sum_reward : Q;
  max_reward : Q;
  success : bool;
  seed : Z
}.

Record aggregated_info : Type := Aggregated {
  avg_sum_reward : option Q;
  avg_max_reward : option Q;
  pc_success : option Q
}.

Record eval_info : Type := EvalInfo {
  per_episode : list episode_entry;
  aggregated : aggregated_info
}.

(** The four metric lists [eval_policy] extends batch after batch. *)
Record metric_lists : Type := MetricLists {
  sum_rewards : list Q;
  max_rewards : list Q;
  all_successes : list bool;
  all_seeds : list Z
}.

(** [np.nanmean] of a list without NaN: [None] stands for the NaN numpy
    returns on an empty list. *)
Definition nanmean (l : list Q) : option Q :=
  match l with
  | [] => None
  | _ => Some (sum_Q l / inject_Z (len l))%Q
  end.

(** [zip(a, b, c, d, strict=True)] *)
Fixpoint zip4_strict {A B C D : Type} (a : list A) (b : list B) (c : list C) (d : list D)
  : result (list (A * B * C * D)) :=
  match a, b, c, d with
  | [], [], [], [] => Ok []
  | x :: a', y :: b', z :: c', u :: d' =>
      rest <- zip4_strict a' b' c' d' ;;
      Ok ((x, y, z, u) :: rest)
  | _, _, _, _ => Raise ValueError
  end.

(** [enumerate] *)
Fixpoint enumerate_from {A : Type} (i : Z) (l : list A) : list (Z * A) :=
  match l with
  | [] => []
  | x :: l' => (i, x) :: enumerate_from (i + 1) l'
  end.

Section EvalPolicy.

Variable World : Type.
Variable rollout : World -> list Z -> World * rollout_data.

(** One iteration of [for batch_ix in progbar]. The second component of
    the state lists the seeds of every [rollout] call made so far. *)
Definition eval_batch (num_envs : Z) (start_seed : option Z)
    (st : World * list (list Z) * metric_lists) (batch_ix : Z)
  : result (World * list (list Z) * metric_lists) :=
  let '(world, calls, acc) := st in
  seeds <- match start_seed with
           | None => Raise TypeError
           | Some s => Ok (range (s + batch_ix * num_envs) (s + (batch_ix + 1) * num_envs))
           end ;;
  let (world', rollout_data) := rollout world seeds in
  bm <- resolve_boundaries (rd_done rollout_data) ;;
  let mask := rows (snd bm) in
  let batch_sum_rewards := reduce_sum (mul_mask (rows (rd_reward rollout_data)) mask) in
  let batch_max_rewards := reduce_max (mul_mask (rows (rd_reward rollout_data)) mask) in
  let batch_successes := reduce_any (rows (rd_success rollout_data)) mask in
  Ok (world', calls ++ [seeds],
      {| sum_rewards := sum_rewards acc ++ batch_sum_rewards;
         max_rewards := max_rewards acc ++ batch_max_rewards;
         all_successes := all_successes acc ++ batch_successes;
         all_seeds := all_seeds acc ++ seeds |}).

Fixpoint eval_batches (num_envs : Z) (start_seed : option Z)
    (st : World * list (list Z) * metric_lists) (batch_ixs : list Z)
  : result (World * list (list Z) * metric_lists) :=
  match batch_ixs with
  | [] => Ok st
  | batch_ix :: rest =>
      st' <- eval_batch num_envs start_seed st batch_ix ;;
      eval_batches num_envs start_seed st' rest
  end.

(** [eval_policy(env, policy, n_episodes, start_seed=start_seed)], with
    [num_envs = env.num_envs].  Returns the final state of the
    collaborators, the seeds of each [rollout] call in order, and [info].
    Of the two wall-clock fields only the division by [n_episodes] in
    [eval_ep_s] is kept, for the error it raises on 0. *)
Definition eval_policy (world : World) (num_envs n_episodes : Z) (start_seed : option Z)
  : result (World * list (list Z) * eval_info) :=
  q <- floordiv n_episodes num_envs ;;
  r <- pymod n_episodes num_envs ;;
  let n_batches := q + int_of_bool (negb (r =? 0)) in
  st <- eval_batches num_envs start_seed
          (world, [], {| sum_rewards := []; max_rewards := [];
                         all_successes := []; all_seeds := [] |})
          (range 0 n_batches) ;;
  let '(world', calls, acc) := st in
  zipped <- zip4_strict (slice_to (sum_rewards acc) n_episodes)
                        (slice_to (max_rewards acc) n_episodes)
                        (slice_to (all_successes acc) n_episodes)
                        (slice_to (all_seeds acc) n_episodes) ;;
  let per_ep :=
    map (fun e => let '(i, (sr, mr, su, sd)) := e in
                  {| episode_ix := i; sum_reward := sr; max_reward := mr;
                     success := su; seed := sd |})
        (enumerate_from 0 zipped) in
  (if n_episodes =? 0 then Raise ZeroDivisionError else Ok tt) ;;;
  Ok (world', calls,
      {| per_episode := per_ep;
         aggregated :=
           {| avg_sum_reward := nanmean (slice_to (sum_rewards acc) n_episodes);
              avg_max_reward := nanmean (slice_to (max_rewards acc) n_episodes);
              pc_success :=
                option_map (fun m => (m * 100)%Q)
                  (nanmean (map (fun b => inject_Z (int_of_bool b))
                                (slice_to (all_successes acc) n_episodes))) |} |}).

End EvalPolicy.

(** ** EpisodeCompiler: [_compile_episode_data] *)

(** A [PIL.Image] made from a channel-last uint8 array. *)
Record pil_image : Type := PILImage {
  im_height : Z;
  im_width : Z;
  im_channels : Z;
  im_pixels : list Z
}.

(** A column of a [datasets.Dataset] under an observation key, with its
    feature: [Image()], or [Sequence(length=n, feature=Value("float32"))].
    A cell is [None] where a concatenation had no value to put. *)
Inductive column : Type :=
| ImageColumn (imgs : list (option pil_image))
| TensorColumn (seq_length : Z) (vals : list (option tensor)).

(** A [datasets.Dataset], column by column. *)
Record hf_dataset : Type := HFDataset {
  col_action : list (list Q);
  col_episode_index : list Z;
  col_frame_index : list Z;
  col_timestamp : list Q;
  col_next_done : list bool;
  col_next_reward : list Q;
  col_observation : list (String.string * column);
  col_index : list Z
}.

(** The dictionary with the tensors ["from"] and ["to"]. *)
Record episode_data_index : Type := EpisodeDataIndex {
  edi_from : list Z;
  edi_to : list Z
}.

(** [sub in s] on strings. *)
Fixpoint str_contains (sub s : String.string) : bool :=
  match s with
  | String.EmptyString => String.prefix sub s
  | String.String _ s' => String.prefix sub s || str_contains sub s'
  end.

Definition is_image_key (key : String.string) : bool :=
  str_contains "image"%string key.

Definition dtype_eqb (a b : dtype) : bool :=
  match a, b with
  | Float32, Float32 | UInt8, UInt8 | Int64, Int64 | BoolT, BoolT => true
  | _, _ => false
  end.

(** [torch.arange(lo, hi, 1)]: refused when the bounds are in the wrong order. *)
Definition arange (lo hi : Z) : result (list Z) :=
  if hi <? lo then Raise RuntimeError else Ok (range lo hi).

(** [c, h, w = img.shape] *)
Definition unpack3 (sh : list Z) : result (Z * Z * Z) :=
  match sh with
  | [c; h; w] => Ok (c, h, w)
  | _ => Raise ValueError
  end.

(** [img.max()] and [img.min()]: refused on a tensor without entries. *)
Definition tensor_max (l : list Q) : result Q :=
  match l with
  | [] => Raise RuntimeError
  | a :: r => Ok (fold_left Qmax r a)
  end.

Definition tensor_min (l : list Q) : result Q :=
  match l with
  | [] => Raise RuntimeError
  | a :: r => Ok (fold_left Qmin r a)
  end.

(** [img.permute(1, 2, 0)] on row-major entries of a (c, h, w) tensor. *)
Definition permute_120 (c h w : Z) (data : list Z) : list Z :=
  flat_map (fun y =>
    flat_map (fun x =>
      map (fun ch => nth (Z.to_nat ((ch * h + y) * w + x)) data 0) (range 0 c))
      (range 0 w))
    (range 0 h).

(** The sanity checks on one image, in the order of the code. *)
Definition check_image (img : tensor) : result (Z * Z * Z) :=
  chw <- unpack3 (t_shape img) ;;
  let '(c, h, w) := chw in
  assert_ ((c <? h) && (c <? w)) ;;;
  assert_ (dtype_eqb (t_dtype img) Float32) ;;;
  mx <- tensor_max (t_data img) ;;
  assert_ (Qle_bool mx 1) ;;;
  mn <- tensor_min (t_data img) ;;
  assert_ (Qle_bool 0 mn) ;;;
  Ok chw.

(** [img *= 255]: the multiplication is done in place, on the tensor the
    name refers to. *)
Definition imul_255 (img : tensor) : tensor :=
  {| t_shape := t_shape img; t_dtype := t_dtype img;
     t_data := map (fun x => (x * 255)%Q) (t_data img) |}.

(** [PILImage.fromarray] on a channel-last array of uint8 of shape
    (h, w, c): PIL has a mode for two, three and four channels (LA, RGB,
    RGBA) and refuses an array with any other number of them. *)
Definition fromarray (h w c : Z) (pixels : list Z) : result pil_image :=
  if (2 <=? c) && (c <=? 4)
  then Ok {| im_height := h; im_width := w; im_channels := c; im_pixels := pixels |}
  else Raise TypeError.

(** The body of [for img in ep_dict[key]].  [img] is a view of the frame
    stored in the rollout batch: the first component is that frame after
    the iteration.  The entries are in [0, 255] once the checks have
    passed, where the cast to uint8 rounds down.  The frame has been
    multiplied by the time [PILImage.fromarray] is called. *)
Definition convert_image (img : tensor) : tensor * result pil_image :=
  match check_image img with
  | Raise e => (img, Raise e)
  | Ok (c, h, w) =>
      let img' := imul_255 img in
      (img', fromarray h w c (permute_120 c h w (map Qfloor (t_data img'))))
  end.

(** [for img in ep_dict[key]]: frames after the loop, and the images made. *)
Fixpoint convert_images (frames : list tensor) : list tensor * result (list pil_image) :=
  match frames with
  | [] => ([], Ok [])
  | img :: rest =>
      match convert_image img with
      | (img', Raise e) => (img' :: rest, Raise e)
      | (img', Ok p) =>
          let (rest', r) := convert_images rest in
          (img' :: rest', ps <- r ;; Ok (p :: ps))
      end
  end.

(** [for ep_dict in ep_dicts] for one image key: [ep_dict[key]] is the view
    [rollout_data["observation"][key][ep_ix][:num_frames]]. *)
Fixpoint convert_episodes (num_frames : list Z) (t : list (list tensor))
  : list (list tensor) * result (list pil_image) :=
  match num_frames, t with
  | n :: ns, row :: t' =>
      let (converted, r) := convert_images (slice_to row n) in
      let row' := converted ++ slice_from row n in
      match r with
      | Raise e => (row' :: t', Raise e)
      | Ok imgs =>
          let (t'', r') := convert_episodes ns t' in
          (row' :: t'', imgs' <- r' ;; Ok (imgs ++ imgs'))
      end
  | _, _ => (t, Ok [])
  end.

(** [torch.cat([x[key] for x in ep_dicts])] for a key that is not an image. *)
Definition cat_episodes {A : Type} (num_frames : list Z) (t : list (list A)) : list A :=
  concat (map (fun p => slice_to (fst p) (snd p)) (combine t num_frames)).

(** A value of [data_dict] under an observation key: the list of PIL
    images, or the tensor [torch.cat] makes of the frames. *)
Inductive data_value : Type :=
| ImageList (imgs : list pil_image)
| FrameTensor (frames : list tensor).

(** The observation keys of [for key in ep_dicts[0]], in order: the
    observation tensors after the loop, and the values of [data_dict]. *)
Fixpoint compile_observation (num_frames : list Z)
    (obs : list (String.string * list (list tensor)))
  : list (String.string * list (list tensor))
    * result (list (String.string * data_value)) :=
  match obs with
  | [] => ([], Ok [])
  | (key, t) :: rest =>
      if is_image_key key then
        match convert_episodes num_frames t with
        | (t', Raise e) => ((key, t') :: rest, Raise e)
        | (t', Ok imgs) =>
            let (rest', r) := compile_observation num_frames rest in
            ((key, t') :: rest', vals <- r ;; Ok ((key, ImageList imgs) :: vals))
        end
      else
        let (rest', r) := compile_observation num_frames rest in
        ((key, t) :: rest',
         vals <- r ;; Ok ((key, FrameTensor (cat_episodes num_frames t)) :: vals))
  end.

(** What the first loop, [for ep_ix in range(...)], leaves behind. *)
Record ep_dict : Type := EpDict {
  ep_num_frames : Z;
  ep_action : list (list Q);
  ep_episode_index : list Z;
  ep_frame_index : list Z;
  ep_timestamp : list Q;
  ep_next_done : list bool;
  ep_next_reward : list Q
}.

Record compile_acc : Type := CompileAcc {
  ep_dicts : list ep_dict;
  acc_from : list Z;
  acc_to : list Z;
  total_frames : Z;
  data_index_from : Z
}.

(** [for key in rollout_data["observation"]: ep_dict[key] =
    rollout_data["observation"][key][ep_ix][:num_frames]]: the views are
    only taken here; the key is missing when the rollout kept no
    observations, and taking a view raises when the tensor has no row
    [ep_ix]. *)
Definition observation_views (rd : rollout_data) (ep_ix : Z) : result unit :=
  match rd_observation rd with
  | None => Raise KeyError
  | Some obs => fold_right (fun kt r => getitem (snd kt) ep_ix ;;; r) (Ok tt) obs
  end.

(** One iteration of the first loop. *)
Definition compile_episode (rd : rollout_data)
    (done_indices : list Z) (start_episode_index : Z) (fps : Q)
    (acc : compile_acc) (ep_ix : Z) : result compile_acc :=
  d <- getitem done_indices ep_ix ;;
  let num_frames := d + 1 in
  action_row <- getitem (rows (rd_action rd)) ep_ix ;;
  frame_index <- arange 0 num_frames ;;
  done_row <- getitem (rows (rd_done rd)) ep_ix ;;
  reward_row <- getitem (rows (rd_reward rd)) ep_ix ;;
  observation_views rd ep_ix ;;;
  Ok {| ep_dicts := ep_dicts acc ++
          [ {| ep_num_frames := num_frames;
               ep_action := slice_to action_row num_frames;
               ep_episode_index := list_times (start_episode_index + ep_ix) num_frames;
               ep_frame_index := frame_index;
               ep_timestamp := map (fun k => (inject_Z k / fps)%Q) frame_index;
               ep_next_done := slice_to done_row num_frames;
               ep_next_reward := slice_to reward_row num_frames |} ];
        acc_from := acc_from acc ++ [data_index_from acc];
        acc_to := acc_to acc ++ [data_index_from acc + num_frames];
        total_frames := total_frames acc + num_frames;
        data_index_from := data_index_from acc + num_frames |}.

Fixpoint compile_episodes (rd : rollout_data)
    (done_indices : list Z) (start_episode_index : Z) (fps : Q)
    (acc : compile_acc) (ep_ixs : list Z) : result compile_acc :=
  match ep_ixs with
  | [] => Ok acc
  | ep_ix :: rest =>
      acc' <- compile_episode rd done_indices start_episode_index fps acc ep_ix ;;
      compile_episodes rd done_indices start_episode_index fps acc' rest
  end.

(** [data_dict]: the concatenated columns, the values under the
    observation keys in the order of the keys, and the global index. *)
Record data_dict : Type := DataDict {
  dd_action : list (list Q);
  dd_episode_index : list Z;
  dd_frame_index : list Z;
  dd_timestamp : list Q;
  dd_next_done : list bool;
  dd_next_reward : list Q;
  dd_observation : list (String.string * data_value);
  dd_index : list Z
}.

Inductive feature : Type :=
| ImageFeature
| SequenceFeature (seq_length : Z).

(** The axes of a frame of a tensor of shape (batch, steps, *frame), read
    off its first frame: [data_dict[key]] has these axes after its first
    one.  (A tensor without any frame has no frame to read them off, and
    gets none.) *)
Definition frame_axes (t : list (list tensor)) : list Z :=
  match concat t with
  | [] => []
  | frame :: _ => t_shape frame
  end.

(** [for key in rollout_data["observation"]]: [Image()] for a key that
    contains "image", [Sequence(length=data_dict[key].shape[1], ...)] for
    any other, where [shape[1]] is the first axis of a frame: there is none
    when the frames are scalars. *)
Fixpoint observation_features (obs : list (String.string * list (list tensor)))
  : result (list (String.string * feature)) :=
  match obs with
  | [] => Ok []
  | (key, t) :: rest =>
      f <- (if is_image_key key then Ok ImageFeature
            else match frame_axes t with
                 | [] => Raise IndexError
                 | n :: _ => Ok (SequenceFeature n)
                 end) ;;
      features <- observation_features rest ;;
      Ok ((key, f) :: features)
  end.

(** [Dataset.from_dict(data_dict, features=features)].  The storage
    collaborator encodes every value with the feature of its key: under a
    [Sequence] of floats a frame has to be a vector, a frame with further
    axes is refused.  Then it refuses columns of different lengths.  (The
    value and the feature of a key come from the same test on the key, and
    both lists are in the order of the keys.) *)
Definition encode_column (v : data_value) (f : feature) : result column :=
  match v, f with
  | ImageList imgs, ImageFeature => Ok (ImageColumn (map Some imgs))
  | FrameTensor frames, SequenceFeature n =>
      if forallb (fun frame => (length (t_shape frame) =? 1)%nat) frames
      then Ok (TensorColumn n (map Some frames))
      else Raise TypeError
  | _, _ => Raise TypeError
  end.

Fixpoint encode_columns (data : list (String.string * data_value))
    (features : list (String.string * feature))
  : result (list (String.string * column)) :=
  match data, features with
  | [], _ => Ok []
  | _ :: _, [] => Raise KeyError
  | (key, v) :: data', (_, f) :: features' =>
      c <- encode_column v f ;;
      cols <- encode_columns data' features' ;;
      Ok ((key, c) :: cols)
  end.

Definition column_len (c : column) : Z :=
  match c with
  | ImageColumn imgs => len imgs
  | TensorColumn _ vals => len vals
  end.

Definition from_dict (d : data_dict) (features : list (String.string * feature))
  : result hf_dataset :=
  cols <- encode_columns (dd_observation d) features ;;
  let n := len (dd_action d) in
  if (len (dd_episode_index d) =? n) && (len (dd_frame_index d) =? n)
     && (len (dd_timestamp d) =? n) && (len (dd_next_done d) =? n)
     && (len (dd_next_reward d) =? n) && (len (dd_index d) =? n)
     && forallb (fun kc => column_len (snd kc) =? n) cols
  then Ok {| col_action := dd_action d;
             col_episode_index := dd_episode_index d;
             col_frame_index := dd_frame_index d;
             col_timestamp := dd_timestamp d;
             col_next_done := dd_next_done d;
             col_next_reward := dd_next_reward d;
             col_observation := cols;
             col_index := dd_index d |}
  else Raise ValueError.

Definition set_observation (rd : rollout_data)
    (obs : list (String.string * list (list tensor))) : rollout_data :=
  {| rd_action := rd_action rd; rd_reward := rd_reward rd;
     rd_success := rd_success rd; rd_done := rd_done rd;
     rd_observation := Some obs |}.

(** [_compile_episode_data(rollout_data, done_indices, start_episode_index,
    start_data_index, fps)].  The first component is the rollout batch the
    caller still holds, as the call leaves it.  (A batch without
    observations does not get past the first loop, which reads the key, or
    past [ep_dicts[0]].)  The observation keys are taken to differ from the
    names of the other columns (action, episode_index, frame_index,
    timestamp, next.done, next.reward, index), as the keys
    [preprocess_observation] makes do: under one of those names the
    observation would take the place of that column in [ep_dict]. *)
Definition _compile_episode_data (rd : rollout_data) (done_indices : list Z)
    (start_episode_index start_data_index : Z) (fps : Q)
  : rollout_data * result (hf_dataset * episode_data_index) :=
  match compile_episodes rd done_indices start_episode_index fps
          {| ep_dicts := []; acc_from := []; acc_to := [];
             total_frames := 0; data_index_from := start_data_index |}
          (range 0 (len (rows (rd_action rd)))) with
  | Raise e => (rd, Raise e)
  | Ok acc =>
      match ep_dicts acc, rd_observation rd with
      | [], _ => (rd, Raise IndexError)
      | _ :: _, None => (rd, Raise KeyError)
      | _ :: _, Some obs =>
          let (obs', r) := compile_observation (map ep_num_frames (ep_dicts acc)) obs in
          (set_observation rd obs',
           vals <- r ;;
           index <- arange start_data_index (start_data_index + total_frames acc) ;;
           features <- observation_features obs ;;
           d <- from_dict
                  {| dd_action := concat (map ep_action (ep_dicts acc));
                     dd_episode_index := concat (map ep_episode_index (ep_dicts acc));
                     dd_frame_index := concat (map ep_frame_index (ep_dicts acc));
                     dd_timestamp := concat (map ep_timestamp (ep_dicts acc));
                     dd_next_done := concat (map ep_next_done (ep_dicts acc));
                     dd_next_reward := concat (map ep_next_reward (ep_dicts acc));
                     dd_observation := vals;
                     dd_index := index |}
                  features ;;
           Ok (d, {| edi_from := acc_from acc; edi_to := acc_to acc |}))
      end
  end.

(** ** DatasetMerger: [add_episodes_inplace] *)

(** The online dataset object: its [hf_dataset] and [episode_data_index]
    attributes.  Its length is the number of rows of [hf_dataset]. *)
Record online_dataset : Type := OnlineDataset {
  od_hf_dataset : hf_dataset;
  od_episode_data_index : episode_data_index
}.

Definition empty_hf_dataset : hf_dataset :=
  {| col_action := []; col_episode_index := []; col_frame_index := [];
     col_timestamp := []; col_next_done := []; col_next_reward := [];
     col_observation := []; col_index := [] |}.

Definition empty_online_dataset : online_dataset :=
  {| od_hf_dataset := empty_hf_dataset;
     od_episode_data_index := {| edi_from := []; edi_to := [] |} |}.

(** [len(hf_dataset)] *)
Definition num_rows (d : hf_dataset) : Z := len (col_index d).

(** An entry of [concat_dataset.datasets]: the combined dataset does not
    copy its parts, it refers to them.  An entry is either the online
    dataset itself or another dataset, of which only the length matters. *)
Inductive dataset_ref : Type :=
| FixedDataset (n : Z)
| TheOnlineDataset.

Record concat_dataset : Type := ConcatDataset {
  datasets : list dataset_ref;
  cumulative_sizes : list Z
}.

Record weighted_sampler : Type := WeightedSampler {
  weights : list Q;
  num_samples : Z
}.

(** The three structures the caller owns and the merger mutates. *)
Record merge_state : Type := MergeState {
  st_online : online_dataset;
  st_concat : concat_dataset;
  st_sampler : weighted_sampler
}.

Definition len_dataset (online : online_dataset) (r : dataset_ref) : Z :=
  match r with
  | FixedDataset n => n
  | TheOnlineDataset => num_rows (od_hf_dataset online)
  end.

(** [ConcatDataset.cumsum] *)
Fixpoint cumsum_from (online : online_dataset) (s : Z) (sequence : list dataset_ref) : list Z :=
  match sequence with
  | [] => []
  | e :: rest =>
      let l := len_dataset online e in
      (l + s) :: cumsum_from online (s + l) rest
  end.

Definition cumsum (online : online_dataset) (sequence : list dataset_ref) : list Z :=
  cumsum_from online 0 sequence.

(** [len(concat_dataset)] is [cumulative_sizes[-1]]. *)
Definition len_concat (c : concat_dataset) : result Z :=
  getitem (cumulative_sizes c) (-1).

(** [hf_dataset.map(shift_indices, input_columns=["episode_index", "index"])] *)
Definition shift_indices (start_episode_idx start_index : Z) (d : hf_dataset) : hf_dataset :=
  {| col_action := col_action d;
     col_episode_index := map (fun episode_index => episode_index + start_episode_idx)
                              (col_episode_index d);
     col_frame_index := col_frame_index d;
     col_timestamp := col_timestamp d;
     col_next_done := col_next_done d;
     col_next_reward := col_next_reward d;
     col_observation := col_observation d;
     col_index := map (fun index => index + start_index) (col_index d) |}.

(** Appending the observation columns of two tables that have the same
    columns in the same order; the storage collaborator refuses two columns
    of one key whose features differ. *)
Fixpoint concatenate_observation (a b : list (String.string * column))
  : result (list (String.string * column)) :=
  match a, b with
  | [], [] => Ok []
  | (k1, c1) :: a', (k2, c2) :: b' =>
      if String.eqb k1 k2 then
        c <- match c1, c2 with
             | ImageColumn x, ImageColumn y => Ok (ImageColumn (x ++ y))
             | TensorColumn n x, TensorColumn m y =>
                 if n =? m then Ok (TensorColumn n (x ++ y)) else Raise ValueError
             | _, _ => Raise ValueError
             end ;;
        rest <- concatenate_observation a' b' ;;
        Ok ((k1, c) :: rest)
      else Raise ValueError
  | _, _ => Raise ValueError
  end.

(** The first column under [key], and the columns that remain. *)
Fixpoint take_column (key : String.string) (cols : list (String.string * column))
  : option (column * list (String.string * column)) :=
  match cols with
  | [] => None
  | (k, c) :: rest =>
      if String.eqb k key then Some (c, rest)
      else match take_column key rest with
           | Some (c', rest') => Some (c', (k, c) :: rest')
           | None => None
           end
  end.

(** A column of [n] cells without a value, with the feature of [c]. *)
Definition null_column (c : column) (n : Z) : column :=
  match c with
  | ImageColumn _ => ImageColumn (list_times None n)
  | TensorColumn m _ => TensorColumn m (list_times None n)
  end.

(** Two tables of [na] and [nb] rows brought to one schema before they are
    appended: the columns of the first in their order, then the columns
    only the second has; a table gets a column of [None] for every key it
    does not have. *)
Fixpoint align_columns (na nb : Z) (a b : list (String.string * column))
  : list (String.string * column) * list (String.string * column) :=
  match a with
  | [] => (map (fun kc => (fst kc, null_column (snd kc) na)) b, b)
  | (k, c) :: a' =>
      match take_column k b with
      | Some (c', b') =>
          let (x, y) := align_columns na nb a' b' in ((k, c) :: x, (k, c') :: y)
      | None =>
          let (x, y) := align_columns na nb a' b in
          ((k, c) :: x, (k, null_column c nb) :: y)
      end
  end.

(** [concatenate_datasets([a, b])] *)
Definition concatenate_datasets (a b : hf_dataset) : result hf_dataset :=
  let (x, y) := align_columns (num_rows a) (num_rows b)
                  (col_observation a) (col_observation b) in
  obs <- concatenate_observation x y ;;
  Ok {| col_action := col_action a ++ col_action b;
        col_episode_index := col_episode_index a ++ col_episode_index b;
        col_frame_index := col_frame_index a ++ col_frame_index b;
        col_timestamp := col_timestamp a ++ col_timestamp b;
        col_next_done := col_next_done a ++ col_next_done b;
        col_next_reward := col_next_reward a ++ col_next_reward b;
        col_observation := obs;
        col_index := col_index a ++ col_index b |}.

(** [t += k] on a tensor of integers. *)
Definition iadd (t : list Z) (k : Z) : list Z := map (fun x => x + k) t.

(** The lines after the branch: the cumulative sizes, the weights and the
    sample count.  The first component is the state when the call ends,
    normally or not. *)
Definition update_sampling (st : merge_state) (pc_online_samples : Q)
  : merge_state * result unit :=
  let online := st_online st in
  let concat := {| datasets := datasets (st_concat st);
                   cumulative_sizes := cumsum online (datasets (st_concat st)) |} in
  let st1 := {| st_online := online; st_concat := concat; st_sampler := st_sampler st |} in
  let len_online := num_rows (od_hf_dataset online) in
  match len_concat concat with
  | Raise e => (st1, Raise e)
  | Ok len_all =>
      let len_offline := len_all - len_online in
      match calculate_online_sample_weight len_offline len_online pc_online_samples with
      | Raise e => (st1, Raise e)
      | Ok weight_online =>
          ({| st_online := online; st_concat := concat;
              st_sampler :=
                {| weights := list_times 1%Q len_offline ++ list_times weight_online len_online;
                   num_samples := len_all |} |},
           Ok tt)
      end
  end.

(** The first lines: the four look-ups and the four sanity checks. *)
Definition check_incoming (hf : hf_dataset) (edi : episode_data_index) : result (Z * Z) :=
  first_episode_idx <- getitem (col_episode_index hf) 0 ;;
  last_episode_idx <- getitem (col_episode_index hf) (-1) ;;
  first_index <- getitem (col_index hf) 0 ;;
  last_index <- getitem (col_index hf) (-1) ;;
  assert_ (first_episode_idx =? 0) ;;;
  assert_ (first_index =? 0) ;;;
  from_first <- getitem (edi_from edi) first_episode_idx ;;
  assert_ (first_index =? from_first) ;;;
  to_last <- getitem (edi_to edi) last_episode_idx ;;
  assert_ (last_index =? to_last - 1) ;;;
  Ok (last_episode_idx, last_index).

(** [add_episodes_inplace(online_dataset, concat_dataset, sampler,
    hf_dataset, episode_data_index, pc_online_samples)].

    Returns the three caller-owned structures and the incoming
    [episode_data_index] dictionary as the call leaves them (the
    dictionary's tensors are shifted in place in the second branch), and
    whether the call returned or raised.  Each call is given a dictionary
    of its own, as [_compile_episode_data] makes them. *)
Definition add_episodes_inplace (st : merge_state) (hf : hf_dataset)
    (edi : episode_data_index) (pc_online_samples : Q)
  : merge_state * episode_data_index * result unit :=
  match check_incoming hf edi with
  | Raise e => (st, edi, Raise e)
  | Ok (last_episode_idx, last_index) =>
      if num_rows (od_hf_dataset (st_online st)) =? 0 then
        let st1 := {| st_online := {| od_hf_dataset := hf; od_episode_data_index := edi |};
                      st_concat := st_concat st; st_sampler := st_sampler st |} in
        let (st2, r) := update_sampling st1 pc_online_samples in
        (st2, edi, r)
      else
        let start_episode_idx := last_episode_idx + 1 in
        let start_index := last_index + 1 in
        let hf' := shift_indices start_episode_idx start_index hf in
        let edi' := {| edi_from := iadd (edi_from edi) start_index;
                       edi_to := iadd (edi_to edi) start_index |} in
        match concatenate_datasets (od_hf_dataset (st_online st)) hf' with
        | Raise e => (st, edi', Raise e)
        | Ok merged =>
            let st1 := {| st_online :=
                            {| od_hf_dataset := merged;
                               od_episode_data_index :=
                                 od_episode_data_index (st_online st) |};
                          st_concat := st_concat st; st_sampler := st_sampler st |} in
            let (st2, r) := update_sampling st1 pc_online_samples in
            (st2, edi', r)
        end
  end.

(** A run of merges, each with its batch, its index table and the target
    fraction; stops at the first call that raises. *)
Fixpoint merge_all (st : merge_state)
    (calls : list (hf_dataset * episode_data_index * Q)) : merge_state * result unit :=
  match calls with
  | [] => (st, Ok tt)
  | (hf, edi, pc) :: rest =>
      match add_episodes_inplace st hf edi pc with
      | (st', _, Ok _) => merge_all st' rest
      | (st', _, Raise e) => (st', Raise e)
      end
  end.

(** ** RolloutEngine: [rollout]

    The vectorised environment, the policy and [preprocess_observation] are
    external: they are the variables of the section.  The [while] loop has
    no bound of its own (it runs until every environment has been done), so
    the model takes fuel: [None] is a loop that has not ended within the
    fuel.  The progress bar and the render callback (absent by default) are
    left out; of the progress bar's running success rate only the
    [torch.stack] it evaluates is kept, for the error it can raise. *)

(** What [env.step] returns.  [sr_final_info] is [info["final_info"]] when
    the key is present: per environment [None] or its [is_success]. *)
Record step_result (RawObs : Type) : Type := StepResult {
  sr_observation : RawObs;
  sr_reward : list Q;
  sr_terminated : list bool;
  sr_truncated : list bool;
  sr_final_info : option (list (option bool))
}.

(** The tensor [policy.select_action] returns: its number of dimensions and,
    when it has two, its rows. *)
Record action_tensor : Type := ActionTensor {
  at_ndim : Z;
  at_rows : list (list Q)
}.

(** A preprocessed observation of one step: key to one frame per
    environment. *)
Definition observation_step : Type := list (String.string * list tensor).

(** The five lists the loop appends to. *)
Record rollout_lists : Type := RolloutLists {
  r_all_observations : list observation_step;
  r_all_actions : list (list (list Q));
  r_all_rewards : list (list Q);
  r_all_successes : list (list bool);
  r_all_dones : list (list bool)
}.

(** [a | b] on boolean arrays with one entry per environment; arrays of
    different lengths do not combine. *)
Definition np_or (a b : list bool) : result (list bool) :=
  if Nat.eqb (length a) (length b)
  then Ok (map (fun p => orb (fst p) (snd p)) (combine a b))
  else Raise ValueError.

(** [np.all(done)] *)
Definition np_all (done : list bool) : bool := forallb (fun b => b) done.

(** Rows from columns of [b] entries: row [i] collects entry [i] of every
    column, in order. *)
Fixpoint transpose {A : Type} (b : nat) (cols : list (list A)) : list (list A) :=
  match cols with
  | [] => repeat [] b
  | c :: rest => map (fun p => fst p :: snd p) (combine c (transpose b rest))
  end.

(** [torch.stack(cols, dim=1)] of one-dimensional tensors: refused for an
    empty list and for tensors of different sizes. *)
Definition stack_dim1 {A : Type} (cols : list (list A)) : result (tensor2 A) :=
  match cols with
  | [] => Raise RuntimeError
  | c0 :: rest =>
      if forallb (fun c => Nat.eqb (length c) (length c0)) rest
      then Ok {| n_cols := length cols; rows := transpose (length c0) cols |}
      else Raise RuntimeError
  end.

(** Equality of two shapes. *)
Definition shape_eqb (a b : list Z) : bool :=
  Nat.eqb (length a) (length b) && forallb (fun p => fst p =? snd p) (combine a b).

(** [torch.stack(cols, dim=1)] of tensors with more than one dimension:
    the entries along the first axis must have the same shapes as well. *)
Definition stack_dim1_shaped {A S : Type} (shape_of : A -> S) (same : S -> S -> bool)
    (cols : list (list A)) : result (tensor2 A) :=
  match cols with
  | [] => Raise RuntimeError
  | c0 :: rest =>
      if forallb (fun c => Nat.eqb (length c) (length c0)
                           && forallb (fun p => same (shape_of (fst p)) (shape_of (snd p)))
                                      (combine c c0)) rest
      then Ok {| n_cols := length cols; rows := transpose (length c0) cols |}
      else Raise RuntimeError
  end.

(** [obs[key]] *)
Fixpoint lookup_key {A : Type} (key : String.string) (d : list (String.string * A))
  : result A :=
  match d with
  | [] => Raise KeyError
  | (k, v) :: rest => if String.eqb k key then Ok v else lookup_key key rest
  end.

(** [[f(x) for x in l]] with an [f] that can raise. *)
Fixpoint map_result {A B : Type} (f : A -> result B) (l : list A) : result (list B) :=
  match l with
  | [] => Ok []
  | x :: rest =>
      y <- f x ;;
      ys <- map_result f rest ;;
      Ok (y :: ys)
  end.

(** The successes of one step. *)
Definition successes_of (num_envs : nat) (final_info : option (list (option bool)))
  : list bool :=
  match final_info with
  | Some infos => map (fun info => match info with Some b => b | None => false end) infos
  | None => repeat false num_envs
  end.

(** [for key in all_observations[0]: stacked_observations[key] =
    torch.stack([obs[key] for obs in all_observations], dim=1)] *)
Definition stack_observations (all_observations : list observation_step)
  : result (list (String.string * list (list tensor))) :=
  first <- getitem all_observations 0 ;;
  map_result
    (fun kv =>
       cols <- map_result (lookup_key (fst kv)) all_observations ;;
       t <- stack_dim1_shaped t_shape shape_eqb cols ;;
       Ok (fst kv, rows t))
    first.

Section Rollout.

Variables Env Pol RawObs : Type.
Variable num_envs : nat.
Variable env_reset : Env -> list Z -> Env * RawObs.
Variable env_step : Env -> list (list Q) -> Env * step_result RawObs.
Variable env_max_episode_steps : Env -> list Z.
Variable policy_reset : Pol -> Pol.
Variable select_action : Pol -> observation_step -> Pol * action_tensor.
Variable preprocess_observation : RawObs -> observation_step.

(** The body of [while not np.all(done)], once. *)
Definition rollout_step (return_observations : bool)
    (env : Env) (pol : Pol) (observation : RawObs)
    (acc : rollout_lists) (done : list bool)
  : result (Env * Pol * RawObs * rollout_lists * list bool) :=
  let obs := preprocess_observation observation in
  let all_observations :=
    if return_observations then r_all_observations acc ++ [obs]
    else r_all_observations acc in
  let (pol', action) := select_action pol obs in
  assert_ (at_ndim action =? 2) ;;;
  let (env', sr) := env_step env (at_rows action) in
  let successes := successes_of num_envs (sr_final_info sr) in
  tt_or <- np_or (sr_terminated sr) (sr_truncated sr) ;;
  done' <- np_or tt_or done ;;
  let acc' := {| r_all_observations := all_observations;
                 r_all_actions := r_all_actions acc ++ [at_rows action];
                 r_all_rewards := r_all_rewards acc ++ [sr_reward sr];
                 r_all_successes := r_all_successes acc ++ [successes];
                 r_all_dones := r_all_dones acc ++ [done'] |} in
  stack_dim1 (r_all_successes acc') ;;;
  Ok (env', pol', sr_observation sr, acc', done').

(** The loop, with fuel. *)
Fixpoint rollout_loop (fuel : nat) (return_observations : bool)
    (env : Env) (pol : Pol) (observation : RawObs)
    (acc : rollout_lists) (done : list bool)
  : option (result (Env * Pol * RawObs * rollout_lists)) :=
  if np_all done then Some (Ok (env, pol, observation, acc))
  else
    match fuel with
    | O => None
    | S fuel' =>
        match rollout_step return_observations env pol observation acc done with
        | Raise e => Some (Raise e)
        | Ok (env', pol', observation', acc', done') =>
            rollout_loop fuel' return_observations env' pol' observation' acc' done'
        end
    end.

(** The dictionary made after the loop. *)
Definition rollout_ret (return_observations : bool) (final_observation : RawObs)
    (acc : rollout_lists) : result rollout_data :=
  let all_observations :=
    if return_observations
    then r_all_observations acc ++ [preprocess_observation final_observation]
    else r_all_observations acc in
  action <- stack_dim1_shaped (@length Q) Nat.eqb (r_all_actions acc) ;;
  reward <- stack_dim1 (r_all_rewards acc) ;;
  success <- stack_dim1 (r_all_successes acc) ;;
  done <- stack_dim1 (r_all_dones acc) ;;
  observation <- (if return_observations
                  then stacked <- stack_observations all_observations ;; Ok (Some stacked)
                  else Ok None) ;;
  Ok {| rd_action := action; rd_reward := reward; rd_success := success;
        rd_done := done; rd_observation := observation |}.

(** [rollout(env, policy, seeds, return_observations)].  Returns the
    environment and the policy as the call leaves them, and the dictionary. *)
Definition rollout (fuel : nat) (env : Env) (pol : Pol) (seeds : list Z)
    (return_observations : bool)
  : option (result (Env * Pol * rollout_data)) :=
  let pol0 := policy_reset pol in
  let (env0, observation) := env_reset env seeds in
  let done := repeat false num_envs in
  match getitem (env_max_episode_steps env0) 0 with
  | Raise e => Some (Raise e)
  | Ok _ =>
      match rollout_loop fuel return_observations env0 pol0 observation
              {| r_all_observations := []; r_all_actions := []; r_all_rewards := [];
                 r_all_successes := []; r_all_dones := [] |} done with
      | None => None
      | Some (Raise e) => Some (Raise e)
      | Some (Ok (env', pol', final_observation, acc)) =>
          match rollout_ret return_observations final_observation acc with
          | Raise e => Some (Raise e)
          | Ok ret => Some (Ok (env', pol', ret))
          end
      end
  end.

End Rollout.

(** ** EvalOrchestrator: [eval_policy] with [return_episode_data=True]

    The same batch loop with the lines under [if return_episode_data:] and
    the ["episodes"] entry of the result.  [rollout] stands for the call
    with [return_observations=True], and [fps] for
    [env.unwrapped.metadata["render_fps"]].  Videos are left out
    ([max_episodes_rendered=0]), and so are the wall-clock fields. *)

(** The lines under [if return_episode_data:]: the batch is compiled with
    the start indices that continue [episode_data], checked against it and
    appended.  (The rollout batch is not used after these lines, so what the
    compiler leaves in it is dropped.) *)
Definition extend_episode_data (episode_data : option (hf_dataset * episode_data_index))
    (rollout_data : rollout_data) (done_indices : list Z) (batch_ix num_envs : Z) (fps : Q)
  : result (hf_dataset * episode_data_index) :=
  start_data_index <- match episode_data with
                      | None => Ok 0
                      | Some (_, edi) => getitem (edi_to edi) (-1)
                      end ;;
  this_episode_data <- snd (_compile_episode_data rollout_data done_indices
                              (batch_ix * num_envs) start_data_index fps) ;;
  match episode_data with
  | None => Ok this_episode_data
  | Some (hf, edi) =>
      let (this_hf, this_edi) := this_episode_data in
      last_episode_index <- getitem (col_episode_index hf) (-1) ;;
      first_episode_index <- getitem (col_episode_index this_hf) 0 ;;
      assert_ (last_episode_index + 1 =? first_episode_index) ;;;
      last_index <- getitem (col_index hf) (-1) ;;
      first_index <- getitem (col_index this_hf) 0 ;;
      assert_ (last_index + 1 =? first_index) ;;;
      to_last <- getitem (edi_to edi) (-1) ;;
      from_first <- getitem (edi_from this_edi) 0 ;;
      assert_ (to_last =? from_first) ;;;
      d <- concatenate_datasets hf this_hf ;;
      Ok (d, {| edi_from := edi_from edi ++ edi_from this_edi;
                edi_to := edi_to edi ++ edi_to this_edi |})
  end.

(** The block under [# Compile eval info.] *)
Definition compile_eval_info (acc : metric_lists) (n_episodes : Z) : result eval_info :=
  zipped <- zip4_strict (slice_to (sum_rewards acc) n_episodes)
                        (slice_to (max_rewards acc) n_episodes)
                        (slice_to (all_successes acc) n_episodes)
                        (slice_to (all_seeds acc) n_episodes) ;;
  let per_ep :=
    map (fun e => let '(i, (sr, mr, su, sd)) := e in
                  {| episode_ix := i; sum_reward := sr; max_reward := mr;
                     success := su; seed := sd |})
        (enumerate_from 0 zipped) in
  (if n_episodes =? 0 then Raise ZeroDivisionError else Ok tt) ;;;
  Ok {| per_episode := per_ep;
        aggregated :=
          {| avg_sum_reward := nanmean (slice_to (sum_rewards acc) n_episodes);
             avg_max_reward := nanmean (slice_to (max_rewards acc) n_episodes);
             pc_success :=
               option_map (fun m => (m * 100)%Q)
                 (nanmean (map (fun b => inject_Z (int_of_bool b))
                               (slice_to (all_successes acc) n_episodes))) |} |}.

Section EvalPolicyEpisodes.

Variable World : Type.
Variable rollout : World -> list Z -> World * rollout_data.

(** One iteration of [for batch_ix in progbar] with
    [return_episode_data=True]. *)
Definition eval_batch_with_episodes (num_envs : Z) (fps : Q) (start_seed : option Z)
    (st : World * list (list Z) * metric_lists * option (hf_dataset * episode_data_index))
    (batch_ix : Z)
  : result (World * list (list Z) * metric_lists
            * option (hf_dataset * episode_data_index)) :=
  let '(world, calls, acc, episode_data) := st in
  seeds <- match start_seed with
           | None => Raise TypeError
           | Some s => Ok (range (s + batch_ix * num_envs) (s + (batch_ix + 1) * num_envs))
           end ;;
  let (world', rollout_data) := rollout world seeds in
  bm <- resolve_boundaries (rd_done rollout_data) ;;
  let done_indices := fst bm in
  let mask := rows (snd bm) in
  let batch_sum_rewards := reduce_sum (mul_mask (rows (rd_reward rollout_data)) mask) in
  let batch_max_rewards := reduce_max (mul_mask (rows (rd_reward rollout_data)) mask) in
  let batch_successes := reduce_any (rows (rd_success rollout_data)) mask in
  episode_data' <- extend_episode_data episode_data rollout_data done_indices
                     batch_ix num_envs fps ;;
  Ok (world', calls ++ [seeds],
      {| sum_rewards := sum_rewards acc ++ batch_sum_rewards;
         max_rewards := max_rewards acc ++ batch_max_rewards;
         all_successes := all_successes acc ++ batch_successes;
         all_seeds := all_seeds acc ++ seeds |},
      Some episode_data').

Fixpoint eval_batches_with_episodes (num_envs : Z) (fps : Q) (start_seed : option Z)
    (st : World * list (list Z) * metric_lists * option (hf_dataset * episode_data_index))
    (batch_ixs : list Z)
  : result (World * list (list Z) * metric_lists
            * option (hf_dataset * episode_data_index)) :=
  match batch_ixs with
  | [] => Ok st
  | batch_ix :: rest =>
      st' <- eval_batch_with_episodes num_envs fps start_seed st batch_ix ;;
      eval_batches_with_episodes num_envs fps start_seed st' rest
  end.

(** [eval_policy(env, policy, n_episodes, return_episode_data=True,
    start_seed=start_seed)].  The last component is [info["episodes"]]. *)
Definition eval_policy_with_episodes (world : World) (num_envs n_episodes : Z)
    (start_seed : option Z) (fps : Q)
  : result (World * list (list Z) * eval_info
            * option (hf_dataset * episode_data_index)) :=
  q <- floordiv n_episodes num_envs ;;
  r <- pymod n_episodes num_envs ;;
  let n_batches := q + int_of_bool (negb (r =? 0)) in
  st <- eval_batches_with_episodes num_envs fps start_seed
          (world, [], {| sum_rewards := []; max_rewards := [];
                         all_successes := []; all_seeds := [] |}, None)
          (range 0 n_batches) ;;
  let '(world', calls, acc, episode_data) := st in
  info <- compile_eval_info acc n_episodes ;;
  Ok (world', calls, info, episode_data).

End EvalPolicyEpisodes.

(** ** OptimizerFactory: [make_optimizer_and_scheduler]

    [torch.optim.AdamW], [torch.optim.Adam] and [get_scheduler] are
    external: the model returns the constructor calls with the arguments
    the code passes, and leaves out what the constructors check on their
    own.  Attributes of [cfg] are taken to exist; [policy.name] and
    [policy.diffusion] are optional, as not every policy has them. *)

Record parameter : Type := TorchParameter {
  param_id : Z;
  requires_grad : bool
}.

(** [cfg.policy.name] and the fields of [cfg.training] the code reads. *)
Record config : Type := Config {
  cfg_policy_name : String.string;
  tr_lr : Q;
  tr_lr_backbone : Q;
  tr_weight_decay : Q;
  tr_adam_betas : Q * Q;
  tr_adam_eps : Q;
  tr_adam_weight_decay : Q;
  tr_online_steps : Z;
  tr_lr_scheduler : String.string;
  tr_lr_warmup_steps : Z;
  tr_offline_steps : Z;
  tr_batch_size : Z
}.

(** What the code reads of the policy: [policy.named_parameters()],
    [policy.name] and [policy.diffusion.parameters()]. *)
Record policy_module : Type := PolicyModule {
  named_parameters : list (String.string * parameter);
  policy_name : option String.string;
  diffusion_parameters : option (list parameter)
}.

(** [policy.parameters()] *)
Definition parameters (policy : policy_module) : list parameter :=
  map snd (named_parameters policy).

(** One dictionary of [optimizer_params_dicts]. *)
Record param_group : Type := ParamGroup {
  pg_params : list parameter;
  pg_lr : option Q
}.

Inductive optimizer : Type :=
| AdamW (groups : list param_group) (lr weight_decay : Q)
| Adam (params : list parameter) (lr : Q) (betas : option (Q * Q))
       (eps weight_decay : option Q).

(** [get_scheduler(name, optimizer=..., num_warmup_steps=...,
    num_training_steps=...)] *)
Record scheduler : Type := Scheduler {
  sch_name : String.string;
  sch_optimizer : optimizer;
  sch_num_warmup_steps : Z;
  sch_num_training_steps : Z
}.

(** How a call of the factory ends. *)
Inductive factory_outcome : Type :=
| Returned (opt : optimizer) (lr_scheduler : option scheduler)
| RaisedAssertionError
| RaisedAttributeError
| RaisedNotImplementedError.

(** [n.startswith("backbone")] *)
Definition is_backbone (n : String.string) : bool := String.prefix "backbone"%string n.

Definition make_optimizer_and_scheduler (cfg : config) (policy : policy_module)
  : factory_outcome :=
  if String.eqb (cfg_policy_name cfg) "act"%string then
    let optimizer_params_dicts :=
      [ {| pg_params :=
             map snd (filter (fun np => negb (is_backbone (fst np))
                                        && requires_grad (snd np))
                             (named_parameters policy));
           pg_lr := None |};
        {| pg_params :=
             map snd (filter (fun np => is_backbone (fst np) && requires_grad (snd np))
                             (named_parameters policy));
           pg_lr := Some (tr_lr_backbone cfg) |} ] in
    Returned (AdamW optimizer_params_dicts (tr_lr cfg) (tr_weight_decay cfg)) None
  else if String.eqb (cfg_policy_name cfg) "diffusion"%string then
    match diffusion_parameters policy with
    | None => RaisedAttributeError
    | Some params =>
        let opt := Adam params (tr_lr cfg) (Some (tr_adam_betas cfg))
                     (Some (tr_adam_eps cfg)) (Some (tr_adam_weight_decay cfg)) in
        if tr_online_steps cfg =? 0
        then Returned opt
               (Some {| sch_name := tr_lr_scheduler cfg;
                        sch_optimizer := opt;
                        sch_num_warmup_steps := tr_lr_warmup_steps cfg;
                        sch_num_training_steps := tr_offline_steps cfg |})
        else RaisedAssertionError
    end
  else
    match policy_name policy with
    | None => RaisedAttributeError
    | Some name =>
        if String.eqb name "tdmpc"%string
        then Returned (Adam (parameters policy) (tr_lr cfg) None None None) None
        else RaisedNotImplementedError
    end.

(** ** ProgressLogger: [log_train_info] and [log_eval_info]

    The [info] dictionary is the caller's and is changed in place: both
    functions return it as the call leaves it.  The logger is external: its
    state is the list of [log_dict] calls it has received.  The text line
    sent to [logging.info] is left out, and the values read for it are taken
    to be numbers. *)

Inductive value : Type :=
| VInt (z : Z)
| VFloat (q : Q)
| VBool (b : bool).

Definition info_dict : Type := list (String.string * value).

(** [d[key] = v]: an existing key keeps its place. *)
Fixpoint dict_set (d : info_dict) (key : String.string) (v : value) : info_dict :=
  match d with
  | [] => [(key, v)]
  | (k, w) :: rest =>
      if String.eqb k key then (k, v) :: rest else (k, w) :: dict_set rest key v
  end.

Inductive log_mode : Type := ModeTrain | ModeEval.

(** A call [logger.log_dict(info, step, mode=mode)]. *)
Record log_call : Type := LogCall {
  lc_info : info_dict;
  lc_step : Z;
  lc_mode : log_mode
}.

(** [dataset.num_samples] and [dataset.num_episodes] *)
Record dataset_size : Type := DatasetSize {
  ds_num_samples : Z;
  ds_num_episodes : Z
}.

(** The four lines both functions share:
    [num_samples = (step + 1) * cfg.training.batch_size],
    [avg_samples_per_ep = dataset.num_samples / dataset.num_episodes],
    [num_episodes = num_samples / avg_samples_per_ep] and
    [num_epochs = num_samples / dataset.num_samples]. *)
Definition progress_counters (step batch_size : Z) (dataset : dataset_size)
  : result (Z * Q * Q) :=
  let num_samples := (step + 1) * batch_size in
  avg_samples_per_ep <- truediv (inject_Z (ds_num_samples dataset))
                                (inject_Z (ds_num_episodes dataset)) ;;
  num_episodes <- truediv (inject_Z num_samples) avg_samples_per_ep ;;
  num_epochs <- truediv (inject_Z num_samples) (inject_Z (ds_num_samples dataset)) ;;
  Ok (num_samples, num_episodes, num_epochs).

(** The body of both functions after the keys in [reads] have been read. *)
Definition log_info (mode : log_mode) (reads : list String.string)
    (logger : list log_call) (info : info_dict) (step : Z) (cfg : config)
    (dataset : dataset_size) (is_offline : bool)
  : list log_call * info_dict * result unit :=
  match map_result (fun key => lookup_key key info) reads with
  | Raise e => (logger, info, Raise e)
  | Ok _ =>
      match progress_counters step (tr_batch_size cfg) dataset with
      | Raise e => (logger, info, Raise e)
      | Ok (num_samples, num_episodes, num_epochs) =>
          let info1 := dict_set info "step"%string (VInt step) in
          let info2 := dict_set info1 "num_samples"%string (VInt num_samples) in
          let info3 := dict_set info2 "num_episodes"%string (VFloat num_episodes) in
          let info4 := dict_set info3 "num_epochs"%string (VFloat num_epochs) in
          let info5 := dict_set info4 "is_offline"%string (VBool is_offline) in
          (logger ++ [{| lc_info := info5; lc_step := step; lc_mode := mode |}],
           info5, Ok tt)
      end
  end.

Definition log_train_info (logger : list log_call) (info : info_dict) (step : Z)
    (cfg : config) (dataset : dataset_size) (is_offline : bool)
  : list log_call * info_dict * result unit :=
  log_info ModeTrain ["loss"; "grad_norm"; "lr"; "update_s"]%string
    logger info step cfg dataset is_offline.

Definition log_eval_info (logger : list log_call) (info : info_dict) (step : Z)
    (cfg : config) (dataset : dataset_size) (is_offline : bool)
  : list log_call * info_dict * result unit :=
  log_info ModeEval ["eval_s"; "avg_sum_reward"; "pc_success"]%string
    logger info step cfg dataset is_offline.

(** ** PolicyUpdater: the dictionary [update_policy] returns

    Every step of [update_policy] is a call into the policy, the optimizer
    or the scheduler; what is its own is the dictionary it builds from their
    results.  [output_dict] is what [policy.forward(batch)] returned,
    [grad_norm] what [clip_grad_norm_] returned, [lr] is
    [optimizer.param_groups[0]["lr"]] as read after the optimizer and the
    scheduler have stepped, and [update_s] the elapsed time. *)

(** [{**d, **{k: v for k, v in items}}]: later keys win and keep the place
    of the key they replace. *)
Definition dict_update (d items : info_dict) : info_dict :=
  fold_left (fun acc kv => dict_set acc (fst kv) (snd kv)) items d.

Definition update_policy_info (output_dict : info_dict) (grad_norm lr update_s : Q)
  : result info_dict :=
  loss <- lookup_key "loss"%string output_dict ;;
  Ok (dict_update
        [("loss"%string, loss); ("grad_norm"%string, VFloat grad_norm);
         ("lr"%string, VFloat lr); ("update_s"%string, VFloat update_s)]
        (filter (fun kv => negb (String.eqb (fst kv) "loss"%string)) output_dict)).

(** ** Vocabulary of the statements *)

(** A row of the mask: step [s] against the bound [x = done_index + 1]. *)
Definition mask_row (n_steps : nat) (x : Z) : list Z :=
  map (fun s => int_of_bool (Z.of_nat s <=? x)) (seq 0 n_steps).

(** The number of entries of a mask row that are set. *)
Definition count_set (row : list Z) : Z := len (filter (fun v => v =? 1) row).

(** The index of the first [true] of a row, if there is one. *)
Fixpoint first_true (row : list bool) : option nat :=
  match row with
  | [] => None
  | true :: _ => Some O
  | false :: rest => option_map S (first_true rest)
  end.

Definition sum_Z (l : list Z) : Z := fold_right Z.add 0 l.

(** Consecutive half-open ranges that start at [start] and have the given
    widths: [(start, start + l0), (start + l0, start + l0 + l1), ...]. *)
Fixpoint consecutive_ranges (start : Z) (widths : list Z) : list (Z * Z) :=
  match widths with
  | [] => []
  | l :: rest => (start, start + l) :: consecutive_ranges (start + l) rest
  end.

(** [done_indices[ep_ix] + 1], the number of frames of episode [ep_ix]. *)
Definition num_frames_at (done_indices : list Z) (ep_ix : Z) : Z :=
  nth (Z.to_nat ep_ix) done_indices 0 + 1.

(** The dictionary the first loop of the compiler builds for episode
    [ep_ix] when every look-up succeeds. *)
Definition ep_dict_at (rd : rollout_data) (done_indices : list Z)
    (start_episode_index : Z) (fps : Q) (ep_ix : Z) : ep_dict :=
  let n := num_frames_at done_indices ep_ix in
  {| ep_num_frames := n;
     ep_action := slice_to (nth (Z.to_nat ep_ix) (rows (rd_action rd)) []) n;
     ep_episode_index := list_times (start_episode_index + ep_ix) n;
     ep_frame_index := range 0 n;
     ep_timestamp := map (fun k => (inject_Z k / fps)%Q) (range 0 n);
     ep_next_done := slice_to (nth (Z.to_nat ep_ix) (rows (rd_done rd)) []) n;
     ep_next_reward := slice_to (nth (Z.to_nat ep_ix) (rows (rd_reward rd)) []) n |}.

(** Every look-up of the first loop of the compiler succeeds for episode
    [ep_ix]. *)
Definition episode_ready (rd : rollout_data)
    (obs : list (String.string * list (list tensor)))
    (done_indices : list Z) (ep_ix : Z) : Prop :=
  0 <= ep_ix < len done_indices
  /\ 0 <= num_frames_at done_indices ep_ix
  /\ ep_ix < len (rows (rd_action rd))
  /\ ep_ix < len (rows (rd_done rd))
  /\ ep_ix < len (rows (rd_reward rd))
  /\ Forall (fun kt => ep_ix < len (snd kt)) obs.

(** What the image loop leaves in a row of frames: the first [n] frames
    multiplied by 255, the others as they were. *)
Definition scaled_row (row : list tensor) (n : Z) : list tensor :=
  map imul_255 (slice_to row n) ++ slice_from row n.

(** An image the compiler accepts: it passes the sanity checks and has
    two, three or four channels, the numbers PIL has a mode for. *)
Definition valid_image (img : tensor) : Prop :=
  exists c h w, check_image img = Ok (c, h, w) /\ 2 <= c <= 4.

(** The names of the columns the compiler makes itself. *)
Definition reserved_keys : list String.string :=
  ["action"; "episode_index"; "frame_index"; "timestamp";
   "next.done"; "next.reward"; "index"]%string.

(** A rollout batch of [batch] elements and [n_steps] steps that the
    compiler accepts: observations of [n_steps + 1] frames under keys that
    are not names of the other columns, with valid images under the keys
    that contain "image" and vectors of one positive length under any other
    key, and actions of one positive length. *)
Record rollout_ok (rd : rollout_data)
    (obs : list (String.string * list (list tensor))) (batch n_steps : nat) : Prop := {
  ok_observation : rd_observation rd = Some obs;
  ok_action : length (rows (rd_action rd)) = batch
              /\ Forall (fun r => length r = n_steps) (rows (rd_action rd));
  ok_reward : length (rows (rd_reward rd)) = batch
              /\ Forall (fun r => length r = n_steps) (rows (rd_reward rd));
  ok_done : length (rows (rd_done rd)) = batch
            /\ Forall (fun r => length r = n_steps) (rows (rd_done rd));
  ok_frames : Forall (fun kt => length (snd kt) = batch
                                /\ Forall (fun r => length r = S n_steps) (snd kt)) obs;
  ok_images : Forall (fun kt => is_image_key (fst kt) = true ->
                                Forall (Forall valid_image) (snd kt)) obs;
  ok_vectors : Forall (fun kt => is_image_key (fst kt) = false ->
                                 exists n, 0 < n
                                   /\ Forall (Forall (fun t => t_shape t = [n])) (snd kt))
                      obs;
  ok_keys : Forall (fun kt => ~ In (fst kt) reserved_keys) obs;
  ok_action_dim : exists a, (0 < a)%nat
                    /\ Forall (Forall (fun v : list Q => length v = a))
                              (rows (rd_action rd))
}.

(** The violations of the merger's preconditions, in the words of its
    contract: the first incoming episode index is not 0, the first incoming
    global index is not 0, the first [from] is not the first global index,
    or the last [to] is not one past the last global index. *)
Definition incoming_violation (hf : hf_dataset) (edi : episode_data_index) : Prop :=
  hd 0 (col_episode_index hf) <> 0
  \/ hd 0 (col_index hf) <> 0
  \/ hd 0 (edi_from edi) <> hd 0 (col_index hf)
  \/ last (edi_to edi) 0 <> last (col_index hf) 0 + 1.



(** A strictly increasing sequence without gaps that starts at 0. *)
Definition counts_from_zero (l : list Z) : Prop := l = range 0 (len l).

(** The values of a column without repetition of neighbours:
    [0,0,0,1,1] has the episodes [0,1]. *)
Fixpoint distinct_runs (l : list Z) : list Z :=
  match l with
  | [] => []
  | x :: rest =>
      match rest with
      | [] => [x]
      | y :: _ => if x =? y then distinct_runs rest else x :: distinct_runs rest
      end
  end.

(** What [eval_policy] needs of a rollout over [num_envs] environments:
    one row per environment in the reward, success and done tensors, and at
    least one step. *)
Definition rollout_batch_of (rd : rollout_data) (num_envs : Z) : Prop :=
  len (rows (rd_reward rd)) = num_envs
  /\ len (rows (rd_success rd)) = num_envs
  /\ len (rows (rd_done rd)) = num_envs
  /\ (0 < n_cols (rd_done rd))%nat.

(** The seeds of batch [batch_ix]. *)
Definition seeds_of_batch (start_seed num_envs batch_ix : Z) : list Z :=
  range (start_seed + batch_ix * num_envs) (start_seed + (batch_ix + 1) * num_envs).

(** The state of the batch loop of [eval_policy] after [k] batches. *)
Definition batches_done {World : Type} (num_envs start_seed k : Z)
    (st : World * list (list Z) * metric_lists) : Prop :=
  len (sum_rewards (snd st)) = k * num_envs
  /\ len (max_rewards (snd st)) = k * num_envs
  /\ len (all_successes (snd st)) = k * num_envs
  /\ all_seeds (snd st) = range start_seed (start_seed + k * num_envs)
  /\ snd (fst st) = map (seeds_of_batch start_seed num_envs) (range 0 k).

Definition no_metrics : metric_lists :=
  {| sum_rewards := []; max_rewards := []; all_successes := []; all_seeds := [] |}.

(** The parts of a combined dataset other than the online dataset have a
    length that is not negative. *)
Definition fixed_lengths_ok (ds : list dataset_ref) : Prop :=
  Forall (fun r => match r with FixedDataset n => 0 <= n | TheOnlineDataset => True end) ds.

(** [len(concat_dataset)] as the sum of the lengths of its parts. *)
Definition total_len (online : online_dataset) (ds : list dataset_ref) : Z :=
  sum_Z (map (len_dataset online) ds).

(** The largest entry of a non-empty list, as [reduce_max] folds it; 0 for
    the empty list. *)
Definition max_Q (l : list Q) : Q :=
  match l with
  | [] => 0%Q
  | a :: l' => fold_left Qmax l' a
  end.

(** An image the compiler rejects. *)
Definition rejected_image (img : tensor) : Prop :=
  exists e, check_image img = Raise e.

(** An image that passes the sanity checks, and one that passes them with
    a number of channels PIL has no mode for. *)
Definition checked_image (img : tensor) : Prop :=
  exists chw, check_image img = Ok chw.

Definition unsupported_image (img : tensor) : Prop :=
  exists c h w, check_image img = Ok (c, h, w) /\ (c < 2 \/ 4 < c).

(** The shapes of [rollout_ok], without the condition on the images. *)
Definition rollout_shapes (rd : rollout_data)
    (obs : list (String.string * list (list tensor))) (batch n_steps : nat) : Prop :=
  rd_observation rd = Some obs
  /\ (length (rows (rd_action rd)) = batch
      /\ Forall (fun r => length r = n_steps) (rows (rd_action rd)))
  /\ (length (rows (rd_reward rd)) = batch
      /\ Forall (fun r => length r = n_steps) (rows (rd_reward rd)))
  /\ (length (rows (rd_done rd)) = batch
      /\ Forall (fun r => length r = n_steps) (rows (rd_done rd)))
  /\ Forall (fun kt => length (snd kt) = batch
                       /\ Forall (fun r => length r = S n_steps) (snd kt)) obs.

(** A row of cumulative done flags over [n] steps, first set at step [k]. *)
Definition done_row (n k : nat) : list bool := repeat false k ++ repeat true (n - k).

(** Every column of flags implies the next one, entry by entry. *)
Fixpoint columns_cumulative (cols : list (list bool)) : Prop :=
  match cols with
  | [] => True
  | c :: rest =>
      match rest with
      | [] => True
      | c' :: _ => Forall2 (fun x y : bool => x = true -> y = true) c c'
      end
      /\ columns_cumulative rest
  end.

(** What the loop of [rollout] keeps true of the done flags: [done] has one
    entry per environment and is the last column appended (all [False]
    before the first step), the columns are cumulative, no column before
    the last is all [True], and a step is only taken when there is an
    environment. *)
Definition dones_inv (num_envs : nat) (acc : rollout_lists) (done : list bool) : Prop :=
  length done = num_envs
  /\ Forall (fun c => length c = num_envs) (r_all_dones acc)
  /\ last (r_all_dones acc) (repeat false num_envs) = done
  /\ columns_cumulative (r_all_dones acc)
  /\ Forall (fun c => np_all c = false) (removelast (r_all_dones acc))
  /\ (r_all_dones acc <> [] -> (0 < num_envs)%nat).

(** What the loop of [rollout] keeps true of the other lists when the
    environment and the policy return one entry per environment: as many
    columns as steps, and one entry per environment in each. *)
Definition lists_inv (num_envs : nat) (return_observations : bool)
    (acc : rollout_lists) : Prop :=
  length (r_all_actions acc) = length (r_all_dones acc)
  /\ length (r_all_rewards acc) = length (r_all_dones acc)
  /\ length (r_all_successes acc) = length (r_all_dones acc)
  /\ (return_observations = true ->
      length (r_all_observations acc) = length (r_all_dones acc))
  /\ Forall (fun c => length c = num_envs) (r_all_actions acc)
  /\ Forall (fun c => length c = num_envs) (r_all_rewards acc)
  /\ Forall (fun c => length c = num_envs) (r_all_successes acc)
  /\ Forall (Forall (fun kv : String.string * list tensor => length (snd kv) = num_envs))
            (r_all_observations acc).

(** The steps are alike: the observations of every step have the same keys
    and, under each key, frames of one shape, and every action has
    [action_dim] entries. *)
Definition steps_alike (keys : list String.string) (action_dim : nat)
    (frame_shape : String.string -> list Z) (acc : rollout_lists) : Prop :=
  Forall (fun o : observation_step => map fst o = keys) (r_all_observations acc)
  /\ Forall (Forall (fun kv : String.string * list tensor =>
                       Forall (fun t => t_shape t = frame_shape (fst kv)) (snd kv)))
            (r_all_observations acc)
  /\ Forall (Forall (fun row : list Q => length row = action_dim)) (r_all_actions acc).

(** The lists before the first step. *)
Definition no_steps : rollout_lists :=
  {| r_all_observations := []; r_all_actions := []; r_all_rewards := [];
     r_all_successes := []; r_all_dones := [] |}.

(** The episode-index column of episodes that are numbered from [start]
    and have the given numbers of frames. *)
Fixpoint episode_runs (start : Z) (widths : list Z) : list Z :=
  match widths with
  | [] => []
  | w :: rest => list_times start w ++ episode_runs (start + 1) rest
  end.

(** The feature of an observation column follows from its key: images
    under a key that contains "image", under any other key vectors of the
    length [frame_shape] gives. *)
Definition column_kind_ok (frame_shape : String.string -> list Z)
    (kc : String.string * column) : Prop :=
  match snd kc with
  | ImageColumn _ => is_image_key (fst kc) = true
  | TensorColumn n _ => is_image_key (fst kc) = false /\ frame_shape (fst kc) = [n]
  end.

(** The column the compiler makes of an observation tensor: under the same
    key, images when the key contains "image", else vectors of the length
    of the frames. *)
Definition column_of_tensor (kt : String.string * list (list tensor))
    (kc : String.string * column) : Prop :=
  fst kc = fst kt
  /\ match snd kc with
     | ImageColumn _ => is_image_key (fst kt) = true
     | TensorColumn n _ =>
         is_image_key (fst kt) = false
         /\ 0 < n
         /\ Forall (Forall (fun frame => t_shape frame = [n])) (snd kt)
     end.

(** A dataset and its index table hold episodes with the given numbers of
    frames without gaps: the episodes are numbered from [first_episode],
    the frames from [first_index], and the observation columns are those of
    [keys], with the features of [frame_shape]. *)
Definition contiguous_episodes (first_episode first_index : Z) (widths : list Z)
    (keys : list String.string) (frame_shape : String.string -> list Z)
    (d : hf_dataset) (edi : episode_data_index) : Prop :=
  col_episode_index d = episode_runs first_episode widths
  /\ col_index d = range first_index (first_index + sum_Z widths)
  /\ edi_from edi = map fst (consecutive_ranges first_index widths)
  /\ edi_to edi = map snd (consecutive_ranges first_index widths)
  /\ map fst (col_observation d) = keys
  /\ Forall (column_kind_ok frame_shape) (col_observation d).

(** A rollout batch that can be compiled and appended to the batches
    before it: a batch the compiler accepts, with [num_envs] rows, at least
    one step, actions of [action_dim] entries, and observations under
    [keys] whose frames have the shapes of [frame_shape]. *)
Definition episode_rollout (keys : list String.string) (action_dim : nat)
    (frame_shape : String.string -> list Z) (num_envs : Z)
    (rd : rollout_data) : Prop :=
  exists obs n_steps,
    rollout_ok rd obs (Z.to_nat num_envs) n_steps
    /\ (0 < n_steps)%nat
    /\ rollout_batch_of rd num_envs
    /\ map fst obs = keys
    /\ Forall (Forall (fun a : list Q => length a = action_dim)) (rows (rd_action rd))
    /\ Forall (fun kt : String.string * list (list tensor) =>
                 Forall (Forall (fun t => t_shape t = frame_shape (fst kt))) (snd kt))
              obs.

(** The episode data the batch loop holds after [k] batches. *)
Definition episodes_done (keys : list String.string)
    (frame_shape : String.string -> list Z) (num_envs k : Z)
    (episode_data : option (hf_dataset * episode_data_index)) : Prop :=
  match episode_data with
  | None => k = 0
  | Some (hf, edi) =>
      0 < k
      /\ exists widths,
           len widths = k * num_envs
           /\ Forall (fun w => 1 <= w) widths
           /\ contiguous_episodes 0 0 widths keys frame_shape hf edi
  end.

(** The keys both logging functions write. *)
Definition progress_keys : list String.string :=
  ["step"; "num_samples"; "num_episodes"; "num_epochs"; "is_offline"]%string.

(** What [info'] holds after a logging call that returns: the step, the
    number of samples seen, the numbers of episodes and of epochs they
    amount to, the flag, and under every other key what [info] held. *)
Definition progress_recorded (info info' : info_dict) (step batch_size : Z)
    (dataset : dataset_size) (is_offline : bool) : Prop :=
  exists num_episodes num_epochs : Q,
    lookup_key "step"%string info' = Ok (VInt step)
    /\ lookup_key "num_samples"%string info' = Ok (VInt ((step + 1) * batch_size))
    /\ lookup_key "num_episodes"%string info' = Ok (VFloat num_episodes)
    /\ lookup_key "num_epochs"%string info' = Ok (VFloat num_epochs)
    /\ lookup_key "is_offline"%string info' = Ok (VBool is_offline)
    /\ (num_epochs * inject_Z (ds_num_samples dataset)
        == inject_Z ((step + 1) * batch_size))%Q
    /\ (num_episodes == num_epochs * inject_Z (ds_num_episodes dataset))%Q
    /\ (forall key, ~ In key progress_keys ->
                    lookup_key key info' = lookup_key key info).

(** ** Concrete inputs used in the statements *)

(** Cumulative done flags of two environments over five steps: done at
    step 2 and at step 4. *)
Definition done_tensor_2x5 : tensor2 bool :=
  {| n_cols := 5;
     rows := [[false; false; true; true; true]; [false; false; false; false; true]] |}.

(** One environment that is not done within three steps. *)
Definition never_done_1x3 : tensor2 bool :=
  {| n_cols := 3; rows := [[false; false; false]] |}.

(** A frame of a 3-channel 4x4 image with every entry [v]. *)
Definition flat_image (v : Q) : tensor :=
  {| t_shape := [3; 4; 4]; t_dtype := Float32; t_data := repeat v 48 |}.

(** A state vector of two entries. *)
Definition state_frame (a b : Q) : tensor :=
  {| t_shape := [2]; t_dtype := Float32; t_data := [a; b] |}.

(** Observations of two environments over six frames: an image and a
    state vector per frame. *)
Definition observation_2x6 : list (String.string * list (list tensor)) :=
  [("observation.image"%string,
    [repeat (flat_image (1 # 2)) 6; repeat (flat_image 1) 6]);
   ("observation.state"%string,
    [repeat (state_frame 0 1) 6; repeat (state_frame 1 0) 6])].

(** A rollout of two environments over five steps: the first is done at
    step 2, the second at step 4. *)
Definition rollout_2x5 : rollout_data :=
  {| rd_action := {| n_cols := 5;
                     rows := [repeat [1%Q] 5; repeat [(1 # 4)%Q] 5] |};
     rd_reward := {| n_cols := 5;
                     rows := [[0; 0; 1; 0; 0]%Q; [0; 0; 0; 0; 1]%Q] |};
     rd_success := {| n_cols := 5;
                      rows := [[false; false; true; false; false];
                               [false; false; false; false; true]] |};
     rd_done := {| n_cols := 5;
                   rows := [[false; false; true; true; true];
                            [false; false; false; false; true]] |};
     rd_observation := Some observation_2x6 |}.

(** The observations of [observation_2x6] with an image entry of 3/2 in
    every frame of the first environment, and the rollout that holds them. *)
Definition observation_bad_2x6 : list (String.string * list (list tensor)) :=
  [("observation.image"%string,
    [repeat (flat_image (3 # 2)) 6; repeat (flat_image 1) 6]);
   ("observation.state"%string,
    [repeat (state_frame 0 1) 6; repeat (state_frame 1 0) 6])].

Definition rollout_bad_2x5 : rollout_data :=
  {| rd_action := rd_action rollout_2x5; rd_reward := rd_reward rollout_2x5;
     rd_success := rd_success rollout_2x5; rd_done := rd_done rollout_2x5;
     rd_observation := Some observation_bad_2x6 |}.

(** A frame of a 1-channel 4x4 image with every entry [v], the
    observations of [observation_2x6] with such images, and the rollout
    that holds them. *)
Definition gray_image (v : Q) : tensor :=
  {| t_shape := [1; 4; 4]; t_dtype := Float32; t_data := repeat v 16 |}.

Definition observation_gray_2x6 : list (String.string * list (list tensor)) :=
  [("observation.image"%string,
    [repeat (gray_image (1 # 2)) 6; repeat (gray_image 1) 6]);
   ("observation.state"%string,
    [repeat (state_frame 0 1) 6; repeat (state_frame 1 0) 6])].

Definition rollout_gray_2x5 : rollout_data :=
  {| rd_action := rd_action rollout_2x5; rd_reward := rd_reward rollout_2x5;
     rd_success := rd_success rollout_2x5; rd_done := rd_done rollout_2x5;
     rd_observation := Some observation_gray_2x6 |}.

(** A scalar frame, the observations of [observation_2x6] with a scalar per
    frame next to the image, and the rollout that holds them. *)
Definition scalar_frame (a : Q) : tensor :=
  {| t_shape := []; t_dtype := Float32; t_data := [a] |}.

Definition observation_scalar_2x6 : list (String.string * list (list tensor)) :=
  [("observation.image"%string,
    [repeat (flat_image (1 # 2)) 6; repeat (flat_image 1) 6]);
   ("observation.gripper"%string,
    [repeat (scalar_frame 0) 6; repeat (scalar_frame 1) 6])].

Definition rollout_scalar_2x5 : rollout_data :=
  {| rd_action := rd_action rollout_2x5; rd_reward := rd_reward rollout_2x5;
     rd_success := rd_success rollout_2x5; rd_done := rd_done rollout_2x5;
     rd_observation := Some observation_scalar_2x6 |}.

(** Two environments with episodes of three and of five steps: each counts
    the steps of its current episode, terminates with success and reward 1
    when the count reaches its limit, and starts again from 0.  The state of
    the pair is the two counts, and so is the raw observation.  The policy
    has no state and always returns the actions 1 and 1/4; every observation
    preprocesses to the same image and state frames. *)
Definition episodic_env_reset (e : nat * nat) (seeds : list Z)
  : (nat * nat) * (nat * nat) := ((O, O), (O, O)).

Definition episodic_env_step (e : nat * nat) (action : list (list Q))
  : (nat * nat) * step_result (nat * nat) :=
  let t0 := Nat.leb 3 (S (fst e)) in
  let t1 := Nat.leb 5 (S (snd e)) in
  let e' := (if t0 then O else S (fst e), if t1 then O else S (snd e)) in
  (e',
   {| sr_observation := e';
      sr_reward := [if t0 then 1%Q else 0%Q; if t1 then 1%Q else 0%Q];
      sr_terminated := [t0; t1];
      sr_truncated := [false; false];
      sr_final_info :=
        if t0 || t1
        then Some [if t0 then Some true else None; if t1 then Some true else None]
        else None |}).

Definition episodic_env_max_episode_steps (e : nat * nat) : list Z := [3; 5].

(** The steps an environment of the pair still takes before the last step
    of its episode. *)
Definition episodic_remaining (i : nat) (e : nat * nat) : nat :=
  match i with
  | O => 2 - fst e
  | _ => 4 - snd e
  end.

Definition constant_policy_reset (p : unit) : unit := p.

Definition constant_policy_select_action (p : unit) (obs : observation_step)
  : unit * action_tensor :=
  (p, {| at_ndim := 2; at_rows := [[1%Q]; [(1 # 4)%Q]] |}).

Definition constant_preprocess_observation (raw : nat * nat) : observation_step :=
  [("observation.image"%string, [flat_image (1 # 2); flat_image 1]);
   ("observation.state"%string, [state_frame 0 1; state_frame 1 0])].

(** [rollout] over the two episodic environments and the constant policy. *)
Definition episodic_rollout (fuel : nat) (return_observations : bool)
  : option (result ((nat * nat) * unit * rollout_data)) :=
  rollout 2 episodic_env_reset episodic_env_step episodic_env_max_episode_steps
    constant_policy_reset constant_policy_select_action
    constant_preprocess_observation fuel (O, O) tt [0; 1] return_observations.

(** An ACT configuration and a policy with a backbone of which one
    parameter is frozen. *)
Definition act_config : config :=
  {| cfg_policy_name := "act"%string;
     tr_lr := (1 # 100000)%Q; tr_lr_backbone := (1 # 100000)%Q;
     tr_weight_decay := (1 # 10000)%Q;
     tr_adam_betas := ((9 # 10)%Q, (999 # 1000)%Q); tr_adam_eps := (1 # 100000000)%Q;
     tr_adam_weight_decay := (1 # 1000000)%Q;
     tr_online_steps := 0; tr_lr_scheduler := "cosine"%string;
     tr_lr_warmup_steps := 500; tr_offline_steps := 80000; tr_batch_size := 8 |}.

Definition act_policy : policy_module :=
  {| named_parameters :=
       [("backbone.conv1.weight"%string, {| param_id := 1; requires_grad := true |});
        ("backbone.bn1.weight"%string, {| param_id := 2; requires_grad := false |});
        ("encoder.layers.0.weight"%string, {| param_id := 3; requires_grad := true |});
        ("action_head.bias"%string, {| param_id := 4; requires_grad := true |})];
     policy_name := Some "act"%string;
     diffusion_parameters := None |}.

(** The dictionary [update_policy] returns, the aggregated metrics of an
    evaluation, and a dataset of 50 episodes with 1000 frames. *)
Definition train_info : info_dict :=
  [("loss"%string, VFloat (1 # 4)); ("grad_norm"%string, VFloat (3 # 2));
   ("lr"%string, VFloat (1 # 100000)); ("update_s"%string, VFloat (1 # 20))].

Definition eval_aggregated : info_dict :=
  [("avg_sum_reward"%string, VFloat (7 # 2)); ("avg_max_reward"%string, VFloat 1);
   ("pc_success"%string, VFloat 60); ("eval_s"%string, VFloat 12);
   ("eval_ep_s"%string, VFloat (6 # 5))].

Definition dataset_50x20 : dataset_size :=
  {| ds_num_samples := 1000; ds_num_episodes := 50 |}.

(** The shapes of the frames of [observation_2x6]. *)
Definition frame_shape_2x6 (key : String.string) : list Z :=
  if String.eqb key "observation.image" then [3; 4; 4] else [2].

(** Collaborators without state whose every rollout is [rollout_2x5]. *)
Definition constant_rollout (world : unit) (seeds : list Z) : unit * rollout_data :=
  (world, rollout_2x5).

(** A zero-based batch of episodes of the given lengths, with one action
    entry and no observation column, as a caller hands it to the merger. *)
Definition batch_of_lengths (lengths : list Z) : hf_dataset :=
  let total := sum_Z lengths in
  {| col_action := list_times [0%Q] total;
     col_episode_index :=
       concat (map (fun p => list_times (fst p) (snd p))
                   (combine (range 0 (len lengths)) lengths));
     col_frame_index := concat (map (range 0) lengths);
     col_timestamp := map (fun k => (inject_Z k / 10)%Q) (concat (map (range 0) lengths));
     col_next_done := list_times false total;
     col_next_reward := list_times 0%Q total;
     col_observation := [];
     col_index := range 0 total |}.

(** The index table consistent with [batch_of_lengths]. *)
Definition index_of_lengths (lengths : list Z) : episode_data_index :=
  {| edi_from := map fst (consecutive_ranges 0 lengths);
     edi_to := map snd (consecutive_ranges 0 lengths) |}.



(** A training set-up before the first merge: 100 offline frames, an empty
    online dataset, the combined dataset over both, weights 1. *)
Definition fresh_state : merge_state :=
  {| st_online := empty_online_dataset;
     st_concat := {| datasets := [FixedDataset 100; TheOnlineDataset];
                     cumulative_sizes := [100; 100] |};
     st_sampler := {| weights := list_times 1%Q 100; num_samples := 100 |} |}.

(** The set-up after a first merge of two episodes of 3 and 2 frames. *)
Definition state_after_first_merge : merge_state :=
  fst (merge_all fresh_state
         [(batch_of_lengths [3; 2], index_of_lengths [3; 2], (1 # 2)%Q)]).

(** * Properties *)

Section WeightFacts.

Lemma truediv_ok (a b : Q) : ~ (b == 0)%Q -> truediv a b = Ok (a / b)%Q.
Proof.
  intros Hb. unfold truediv.
  destruct (Qeq_bool b 0) eqn:E; [ | reflexivity].
  apply Qeq_bool_iff in E. contradiction.
Qed.

Lemma truediv_zero (a b : Q) : (b == 0)%Q -> truediv a b = Raise ZeroDivisionError.
Proof.
  intros Hb. unfold truediv.
  apply Qeq_bool_iff in Hb. now rewrite Hb.
Qed.

Lemma inject_Z_pos (n : Z) : 0 < n -> (0 < inject_Z n)%Q.
Proof. intros H. unfold Qlt; simpl. lia. Qed.

Lemma weight_defined (n_off n_on : Z) (pc_on : Q) :
  0 < n_on -> (0 <= pc_on)%Q -> (pc_on < 1)%Q ->
  calculate_online_sample_weight n_off n_on pc_on
  = Ok (- (inject_Z n_off * pc_on) / (inject_Z n_on * (pc_on - 1)))%Q.
Proof.
  intros Hon H0 H1. unfold calculate_online_sample_weight.
  assert (Ha : Qle_bool 0 pc_on && Qle_bool pc_on 1 = true).
  { apply andb_true_iff; split; apply Qle_bool_iff; [assumption | now apply Qlt_le_weak]. }
  rewrite Ha; simpl. apply truediv_ok.
  pose proof (inject_Z_pos Hon) as Hn.
  intros Hz. apply Qmult_integral in Hz. destruct Hz as [Hz | Hz]; lra.
Qed.

End WeightFacts.

Section WeightSolves.

Lemma weight_closed_form (n_off n_on : Z) (pc_on : Q) :
  0 < n_on -> (0 <= pc_on)%Q -> (pc_on < 1)%Q ->
  exists w, calculate_online_sample_weight n_off n_on pc_on = Ok w
            /\ (inject_Z n_on * w == inject_Z n_off * pc_on / (1 - pc_on))%Q.
Proof.
  intros Hon H0 H1. eexists. split.
  - apply weight_defined; assumption.
  - pose proof (inject_Z_pos Hon) as Hn. field. split; lra.
Qed.

(** C3, as amended.  In exact rational arithmetic: for [n_off >= 0],
    [n_on > 0] and [pc_on] in [0, 1) the call returns a weight [w]; [w] is 0
    when [pc_on] is 0; when [n_off > 0] the online fraction
    [n_on * w / (n_off + n_on * w)] is defined and equals [pc_on]; when
    [n_off = 0] the weight is 0 and the fraction is 0 / 0, a division by
    zero.  With [n_off = 100], [n_on = 50], [pc_on = 1/2] the weight is 2. *)
Theorem weight_solves_online_fraction (n_off n_on : Z) (pc_on : Q) :
  0 <= n_off -> 0 < n_on -> (0 <= pc_on)%Q -> (pc_on < 1)%Q ->
  (exists w,
      calculate_online_sample_weight n_off n_on pc_on = Ok w
      /\ ((pc_on == 0)%Q -> (w == 0)%Q)
      /\ (0 < n_off ->
          exists f, online_fraction n_off n_on w = Ok f /\ (f == pc_on)%Q)
      /\ (n_off = 0 ->
          (w == 0)%Q /\ online_fraction n_off n_on w = Raise ZeroDivisionError))
  /\ (exists w2, calculate_online_sample_weight 100 50 (1 # 2) = Ok w2 /\ (w2 == 2)%Q).
Proof.
  intros Hoff Hon H0 H1. split.
  - destruct (weight_closed_form n_off Hon H0 H1) as (w & Hw & Hcf).
    pose proof (inject_Z_pos Hon) as Hn.
    assert (Hwv : (w == inject_Z n_off * pc_on / (1 - pc_on) / inject_Z n_on)%Q).
    { rewrite <- Hcf. field. lra. }
    exists w. split; [exact Hw | ]. split; [ | split].
    + intros Hz. rewrite Hwv, Hz. field; repeat split; lra.
    + intros Hpos. pose proof (inject_Z_pos Hpos) as Hf.
      eexists. split.
      * unfold online_fraction. apply truediv_ok.
        rewrite Hcf. intros Hz.
        assert (Hd : (inject_Z n_off + inject_Z n_off * pc_on / (1 - pc_on)
                      == inject_Z n_off / (1 - pc_on))%Q) by (field; lra).
        rewrite Hd in Hz.
        assert (Hp : (0 < inject_Z n_off / (1 - pc_on))%Q).
        { apply Qlt_shift_div_l; lra. }
        lra.
      * rewrite Hcf. field. split; lra.
    + intros ->.
      assert (Hw0 : (w == 0)%Q).
      { rewrite Hwv. change (inject_Z 0) with 0%Q. field; repeat split; lra. }
      split; [exact Hw0 | ].
      unfold online_fraction. apply truediv_zero.
      rewrite Hw0. change (inject_Z 0) with 0%Q. ring.
  - eexists. split; [reflexivity | reflexivity].
Qed.

Lemma weight_solves_online_fraction_witness :
  0 <= 100 /\ 0 < 50 /\ (0 <= 1 # 2)%Q /\ (1 # 2 < 1)%Q
  /\ ((exists w,
      calculate_online_sample_weight 100 50 (1 # 2) = Ok w
      /\ ((1 # 2 == 0)%Q -> (w == 0)%Q)
      /\ (0 < 100 ->
          exists f, online_fraction 100 50 w = Ok f /\ (f == 1 # 2)%Q)
      /\ (100 = 0 ->
          (w == 0)%Q /\ online_fraction 100 50 w = Raise ZeroDivisionError))
  /\ (exists w2, calculate_online_sample_weight 100 50 (1 # 2) = Ok w2 /\ (w2 == 2)%Q)).
Proof.
  split; [lia | ]. split; [lia | ]. split; [discriminate | ]. split; [reflexivity | ].
  apply (@weight_solves_online_fraction 100 50 (1 # 2)); [lia | lia | discriminate | reflexivity].
Defined.

(** C3 as stated fails without offline samples: with [n_off = 0],
    [n_on = 50], [pc_on = 1/2] the weight is 0, the online fraction is a
    division of 0 by 0, and no reading of it gives 1/2. *)
Lemma weight_no_offline_counterexample :
  ~ (forall (n_off n_on : Z) (pc_on : Q),
        0 <= n_off -> 0 < n_on -> (0 <= pc_on)%Q -> (pc_on < 1)%Q ->
        exists w, calculate_online_sample_weight n_off n_on pc_on = Ok w
                  /\ exists f, online_fraction n_off n_on w = Ok f /\ (f == pc_on)%Q).
Proof.
  intros H.
  destruct (H 0 50 (1 # 2)) as (w & Hw & f & Hf & _);
    [lia | lia | discriminate | reflexivity | ].
  vm_compute in Hw. injection Hw as <-.
  vm_compute in Hf. discriminate Hf.
Qed.

End WeightSolves.

Section BoundaryFacts.

Lemma range_0 (n : nat) : range 0 (Z.of_nat n) = map Z.of_nat (seq 0 n).
Proof.
  unfold range. rewrite Z.sub_0_r, Nat2Z.id.
  apply map_ext. intros k. lia.
Qed.

Lemma range_length (lo hi : Z) : length (range lo hi) = Z.to_nat (hi - lo).
Proof. unfold range. now rewrite length_map, length_seq. Qed.

Lemma combine_repeat_r {A B : Type} (l : list A) (x : B) :
  combine l (repeat x (length l)) = map (fun a => (a, x)) l.
Proof. induction l as [ | a l IH]; simpl; [reflexivity | now rewrite IH]. Qed.

Lemma validity_mask_rows (n_steps : nat) (done_indices : list Z) :
  rows (validity_mask n_steps done_indices)
  = map (fun d => mask_row n_steps (d + 1)) done_indices.
Proof.
  unfold validity_mask, broadcast_le_int, einops_repeat_b_s; simpl.
  rewrite !map_map. apply map_ext. intros d.
  rewrite range_0.
  replace (repeat (d + 1) n_steps)
    with (repeat (d + 1) (length (map Z.of_nat (seq 0 n_steps))))
    by now rewrite length_map, length_seq.
  rewrite combine_repeat_r, !map_map. reflexivity.
Qed.

Lemma mask_row_length (n_steps : nat) (x : Z) : length (mask_row n_steps x) = n_steps.
Proof. unfold mask_row. now rewrite length_map, length_seq. Qed.

Lemma mask_row_nth (n_steps : nat) (x : Z) (s : nat) :
  (s < n_steps)%nat ->
  nth_error (mask_row n_steps x) s = Some (int_of_bool (Z.of_nat s <=? x)).
Proof.
  intros Hs. unfold mask_row.
  rewrite nth_error_map, nth_error_nth' with (d := O) by now rewrite length_seq.
  rewrite seq_nth by assumption. reflexivity.
Qed.

Lemma count_set_app (a b : list Z) : count_set (a ++ b) = count_set a + count_set b.
Proof. unfold count_set, len. rewrite filter_app, length_app. lia. Qed.

Lemma mask_row_count (n_steps : nat) (x : Z) :
  0 <= x -> count_set (mask_row n_steps x) = Z.min (x + 1) (Z.of_nat n_steps).
Proof.
  intros Hx. induction n_steps as [ | n IH].
  - unfold mask_row, count_set, len; simpl. lia.
  - unfold mask_row in *. rewrite seq_S, map_app, count_set_app, IH. simpl.
    unfold count_set, len; simpl.
    destruct (Z.of_nat n <=? x) eqn:E; simpl.
    + apply Z.leb_le in E. lia.
    + apply Z.leb_gt in E. lia.
Qed.

Lemma done_indices_of_ok (done : tensor2 bool) :
  (0 < n_cols done)%nat ->
  done_indices_of done
  = Ok (map (fun r => Z.of_nat (argmax_row (map int_of_bool r))) (rows done)).
Proof.
  intros Hn. unfold done_indices_of, argmax_axis1, to_int; simpl.
  destruct (Nat.eqb_spec (n_cols done) 0) as [E | _]; [lia | ].
  now rewrite map_map.
Qed.

Lemma argmax_from_at_most (l : list Z) (best : Z) (best_ix ix : nat) :
  Forall (fun x => x <= best) l -> argmax_from best best_ix ix l = best_ix.
Proof.
  revert ix. induction l as [ | x l IH]; intros ix H; simpl; [reflexivity | ].
  inversion H as [ | ? ? Hx Hl]; subst.
  destruct (best <? x) eqn:E; [apply Z.ltb_lt in E; lia | now apply IH].
Qed.

Lemma int_of_bool_le_1 (row : list bool) :
  Forall (fun x => x <= 1) (map int_of_bool row).
Proof. apply Forall_map, Forall_forall. intros [ | ] _; simpl; lia. Qed.

Lemma argmax_from_zero (row : list bool) :
  forall best_ix ix : nat,
    argmax_from 0 best_ix ix (map int_of_bool row)
    = match first_true row with
      | Some k => (ix + k)%nat
      | None => best_ix
      end.
Proof.
  induction row as [ | [ | ] row IH]; intros best_ix ix; simpl.
  - reflexivity.
  - rewrite argmax_from_at_most by apply int_of_bool_le_1. lia.
  - rewrite IH. destruct (first_true row); simpl; lia.
Qed.

(** On a row of done flags, [argmax] finds the first [true]; a row without
    one gives 0. *)
Lemma argmax_row_first_true (row : list bool) :
  argmax_row (map int_of_bool row)
  = match first_true row with
    | Some k => k
    | None => O
    end.
Proof.
  destruct row as [ | [ | ] row]; simpl.
  - reflexivity.
  - apply argmax_from_at_most, int_of_bool_le_1.
  - rewrite argmax_from_zero. destruct (first_true row); reflexivity.
Qed.

End BoundaryFacts.

Section BoundaryResolution.

(** C4.  For a done tensor of shape (batch, n_steps) with at least one
    step (a rollout always stacks at least one; each row containing a true
    gives the same as soon as there is a row), boundary resolution returns
    done indices and a mask of the same shape; in row [i], step [s] is set
    exactly when [s <= done_index[i] + 1], and the number of set entries is
    [min(done_index[i] + 2, n_steps)]; in a row that contains a true,
    [done_index[i]] is the position of the first one. *)
Theorem mask_marks_steps_up_to_done_plus_one (done : tensor2 bool) :
  well_shaped done -> (0 < n_cols done)%nat ->
  exists done_indices mask,
    resolve_boundaries done = Ok (done_indices, mask)
    /\ shape mask = shape done
    /\ well_shaped mask
    /\ length done_indices = length (rows done)
    /\ forall (i : nat) (d : Z),
         nth_error done_indices i = Some d ->
         exists mrow,
           nth_error (rows mask) i = Some mrow
           /\ (forall s, (s < n_cols done)%nat ->
                 exists v, nth_error mrow s = Some v
                           /\ (v = 0 \/ v = 1)
                           /\ (v = 1 <-> Z.of_nat s <= d + 1))
           /\ count_set mrow = Z.min (d + 2) (Z.of_nat (n_cols done))
           /\ (forall row, nth_error (rows done) i = Some row -> In true row ->
                 first_true row = Some (Z.to_nat d)).
Proof.
  intros Hws Hn.
  unfold resolve_boundaries. rewrite (done_indices_of_ok done Hn). simpl.
  eexists. eexists. split; [reflexivity | ].
  set (dis := map (fun r => Z.of_nat (argmax_row (map int_of_bool r))) (rows done)).
  assert (Hrows := validity_mask_rows (n_cols done) dis).
  split; [ | split; [ | split]].
  - unfold shape. rewrite Hrows. unfold dis. now rewrite !length_map.
  - unfold well_shaped. rewrite Hrows. apply Forall_map, Forall_forall.
    intros d _. apply mask_row_length.
  - unfold dis. now rewrite length_map.
  - intros i d Hd. rewrite Hrows, nth_error_map, Hd. simpl.
    eexists. split; [reflexivity | ].
    unfold dis in Hd. rewrite nth_error_map in Hd.
    destruct (nth_error (rows done) i) as [row0 | ] eqn:Erow; simpl in Hd;
      [ | discriminate].
    injection Hd as <-.
    split; [ | split].
    + intros s Hs. rewrite (mask_row_nth _ Hs).
      eexists. split; [reflexivity | ].
      destruct (Z.of_nat s <=? _) eqn:E; simpl.
      * apply Z.leb_le in E. split; [now right | tauto].
      * apply Z.leb_gt in E. split; [now left | ]. split; [discriminate | lia].
    + rewrite mask_row_count by lia. f_equal. lia.
    + intros row [= <-] Hin. rewrite Nat2Z.id, argmax_row_first_true.
      destruct (first_true row0) as [k | ] eqn:Ek; [reflexivity | ].
      exfalso. clear - Hin Ek.
      induction row0 as [ | [ | ] row0 IH]; simpl in *.
      * contradiction.
      * discriminate.
      * destruct Hin as [H | H]; [discriminate | ].
        destruct (first_true row0); [discriminate | now apply IH].
Qed.

Lemma mask_marks_steps_up_to_done_plus_one_witness :
  well_shaped done_tensor_2x5 /\ (0 < n_cols done_tensor_2x5)%nat
  /\ exists done_indices mask,
    resolve_boundaries done_tensor_2x5 = Ok (done_indices, mask)
    /\ shape mask = shape done_tensor_2x5
    /\ well_shaped mask
    /\ length done_indices = length (rows done_tensor_2x5)
    /\ forall (i : nat) (d : Z),
         nth_error done_indices i = Some d ->
         exists mrow,
           nth_error (rows mask) i = Some mrow
           /\ (forall s, (s < n_cols done_tensor_2x5)%nat ->
                 exists v, nth_error mrow s = Some v
                           /\ (v = 0 \/ v = 1)
                           /\ (v = 1 <-> Z.of_nat s <= d + 1))
           /\ count_set mrow = Z.min (d + 2) (Z.of_nat (n_cols done_tensor_2x5))
           /\ (forall row, nth_error (rows done_tensor_2x5) i = Some row -> In true row ->
                 first_true row = Some (Z.to_nat d)).
Proof.
  assert (Hws : well_shaped done_tensor_2x5).
  { unfold well_shaped; simpl. repeat constructor. }
  assert (Hn : (0 < n_cols done_tensor_2x5)%nat) by (simpl; lia).
  split; [exact Hws | ]. split; [exact Hn | ].
  exact (mask_marks_steps_up_to_done_plus_one Hws Hn).
Defined.

End BoundaryResolution.

Section NeverDone.

Lemma first_true_all_false (row : list bool) :
  Forall (fun b => b = false) row -> first_true row = None.
Proof.
  induction 1 as [ | b row Hb _ IH]; simpl; [reflexivity | ].
  subst b. now rewrite IH.
Qed.

Lemma argmax_row_all_false (row : list bool) :
  Forall (fun b => b = false) row -> argmax_row (map int_of_bool row) = O.
Proof.
  intros H. now rewrite argmax_row_first_true, (first_true_all_false H).
Qed.

(** C5, as amended.  A row that is false at every step resolves to done
    index 0, the first step: [argmax] returns the first occurrence of the
    largest entry and all entries are equal.  That is the last step only
    when the rollout has a single step. *)
Theorem all_false_row_resolves_to_first_step
    (done : tensor2 bool) (i : nat) (row : list bool) :
  (0 < n_cols done)%nat ->
  nth_error (rows done) i = Some row ->
  Forall (fun b => b = false) row ->
  exists done_indices mask,
    resolve_boundaries done = Ok (done_indices, mask)
    /\ nth_error done_indices i = Some 0
    /\ (0 = Z.of_nat (n_cols done) - 1 <-> n_cols done = 1%nat).
Proof.
  intros Hn Hrow Hfalse.
  unfold resolve_boundaries. rewrite (done_indices_of_ok done Hn). simpl.
  eexists. eexists. split; [reflexivity | ]. split.
  - rewrite nth_error_map, Hrow. simpl.
    now rewrite (argmax_row_all_false Hfalse).
  - lia.
Qed.

Lemma all_false_row_resolves_to_first_step_witness :
  (0 < n_cols never_done_1x3)%nat
  /\ nth_error (rows never_done_1x3) 0 = Some [false; false; false]
  /\ Forall (fun b => b = false) [false; false; false]
  /\ exists done_indices mask,
    resolve_boundaries never_done_1x3 = Ok (done_indices, mask)
    /\ nth_error done_indices 0 = Some 0
    /\ (0 = Z.of_nat (n_cols never_done_1x3) - 1 <-> n_cols never_done_1x3 = 1%nat).
Proof.
  assert (Hn : (0 < n_cols never_done_1x3)%nat) by (simpl; lia).
  assert (Hrow : nth_error (rows never_done_1x3) 0 = Some [false; false; false])
    by reflexivity.
  assert (Hf : Forall (fun b => b = false) [false; false; false])
    by (repeat constructor).
  split; [exact Hn | ]. split; [exact Hrow | ]. split; [exact Hf | ].
  exact (all_false_row_resolves_to_first_step never_done_1x3 0 Hn Hrow Hf).
Defined.

(** C5 as stated fails: in a rollout of three steps, a row that never
    reaches done gets done index 0, not 2. *)
Lemma never_done_is_not_last_step_counterexample :
  ~ (forall (done : tensor2 bool) (i : nat) (row : list bool),
        well_shaped done ->
        nth_error (rows done) i = Some row ->
        Forall (fun b => b = false) row ->
        exists done_indices mask,
          resolve_boundaries done = Ok (done_indices, mask)
          /\ nth_error done_indices i = Some (Z.of_nat (n_cols done) - 1)).
Proof.
  intros H.
  destruct (H never_done_1x3 O [false; false; false])
    as (dis & mask & Hres & Hnth).
  - unfold well_shaped; simpl. repeat constructor.
  - reflexivity.
  - repeat constructor.
  - vm_compute in Hres. injection Hres as <- _.
    vm_compute in Hnth. discriminate Hnth.
Qed.

End NeverDone.

Section CompilerFacts.

Lemma getitem_ok {A : Type} (l : list A) (i : Z) (d : A) :
  0 <= i < len l -> getitem l i = Ok (nth (Z.to_nat i) l d).
Proof.
  intros [Hlo Hhi]. unfold getitem.
  destruct (i <? 0) eqn:E; [apply Z.ltb_lt in E; lia | ].
  rewrite E. destruct (len l <=? i) eqn:E2; [apply Z.leb_le in E2; lia | ]. simpl.
  unfold len in Hhi.
  destruct (nth_error l (Z.to_nat i)) as [a | ] eqn:En.
  - now rewrite (nth_error_nth _ _ d En).
  - apply nth_error_None in En. lia.
Qed.

Lemma slice_to_length {A : Type} (l : list A) (n : Z) :
  0 <= n <= len l -> len (slice_to l n) = n.
Proof.
  intros [Hlo Hhi]. unfold slice_to, len in *.
  destruct (n <? 0) eqn:E; [apply Z.ltb_lt in E; lia | ].
  rewrite length_firstn. lia.
Qed.

Lemma slice_to_from {A : Type} (l : list A) (n : Z) :
  slice_to l n ++ slice_from l n = l.
Proof.
  unfold slice_to, slice_from. destruct (n <? 0); apply firstn_skipn.
Qed.

Lemma arange_ok (lo hi : Z) : lo <= hi -> arange lo hi = Ok (range lo hi).
Proof.
  intros H. unfold arange.
  destruct (hi <? lo) eqn:E; [apply Z.ltb_lt in E; lia | reflexivity].
Qed.

Lemma range_len (lo hi : Z) : lo <= hi -> len (range lo hi) = hi - lo.
Proof. intros H. unfold len. rewrite range_length. lia. Qed.

Lemma list_times_len {A : Type} (x : A) (n : Z) : 0 <= n -> len (list_times x n) = n.
Proof. intros H. unfold len, list_times. rewrite repeat_length. lia. Qed.

Lemma len_app {A : Type} (a b : list A) : len (a ++ b) = len a + len b.
Proof. unfold len. rewrite length_app. lia. Qed.

Lemma len_map {A B : Type} (f : A -> B) (l : list A) : len (map f l) = len l.
Proof. unfold len. now rewrite length_map. Qed.

End CompilerFacts.

Section CompilerLoop.

Variable rd : rollout_data.
Variable obs : list (String.string * list (list tensor)).
Variable done_indices : list Z.
Variable start_episode_index : Z.
Variable fps : Q.

Hypothesis Hobs : rd_observation rd = Some obs.

Lemma observation_views_ok (ep_ix : Z) :
  0 <= ep_ix ->
  Forall (fun kt : String.string * list (list tensor) => ep_ix < len (snd kt)) obs ->
  observation_views rd ep_ix = Ok tt.
Proof.
  intros H0 H. unfold observation_views. rewrite Hobs. clear Hobs.
  induction H as [ | kt l Hkt Hl IH]; simpl; [reflexivity | ].
  rewrite (getitem_ok (snd kt) [] (conj H0 Hkt)). simpl. exact IH.
Qed.

Lemma compile_episode_ok (acc : compile_acc) (ep_ix : Z) :
  episode_ready rd obs done_indices ep_ix ->
  compile_episode rd done_indices start_episode_index fps acc ep_ix
  = Ok {| ep_dicts := ep_dicts acc
            ++ [ep_dict_at rd done_indices start_episode_index fps ep_ix];
          acc_from := acc_from acc ++ [data_index_from acc];
          acc_to := acc_to acc
            ++ [data_index_from acc + num_frames_at done_indices ep_ix];
          total_frames := total_frames acc + num_frames_at done_indices ep_ix;
          data_index_from := data_index_from acc + num_frames_at done_indices ep_ix |}.
Proof.
  intros (Hix & Hn & Ha & Hd & Hr & Ho).
  unfold compile_episode.
  rewrite (getitem_ok done_indices 0 Hix). simpl.
  rewrite (getitem_ok (rows (rd_action rd)) [] (conj (proj1 Hix) Ha)). simpl.
  fold (num_frames_at done_indices ep_ix).
  rewrite (arange_ok Hn). simpl.
  rewrite (getitem_ok (rows (rd_done rd)) [] (conj (proj1 Hix) Hd)). simpl.
  rewrite (getitem_ok (rows (rd_reward rd)) [] (conj (proj1 Hix) Hr)). simpl.
  rewrite (observation_views_ok (proj1 Hix) Ho). simpl.
  reflexivity.
Qed.

Lemma compile_episodes_ok (ep_ixs : list Z) :
  Forall (episode_ready rd obs done_indices) ep_ixs ->
  forall acc,
    compile_episodes rd done_indices start_episode_index fps acc ep_ixs
    = Ok {| ep_dicts := ep_dicts acc
              ++ map (ep_dict_at rd done_indices start_episode_index fps) ep_ixs;
            acc_from := acc_from acc
              ++ map fst (consecutive_ranges (data_index_from acc)
                            (map (num_frames_at done_indices) ep_ixs));
            acc_to := acc_to acc
              ++ map snd (consecutive_ranges (data_index_from acc)
                            (map (num_frames_at done_indices) ep_ixs));
            total_frames := total_frames acc
              + sum_Z (map (num_frames_at done_indices) ep_ixs);
            data_index_from := data_index_from acc
              + sum_Z (map (num_frames_at done_indices) ep_ixs) |}.
Proof.
  induction 1 as [ | ep_ix rest Hready _ IH]; intros acc; simpl.
  - rewrite !app_nil_r, !Z.add_0_r. now destruct acc.
  - rewrite (compile_episode_ok acc Hready). simpl. rewrite IH. simpl.
    rewrite <- !app_assoc. simpl. rewrite !Z.add_assoc. reflexivity.
Qed.

End CompilerLoop.

Section CompilerImages.

Lemma fromarray_ok (h w c : Z) (pixels : list Z) :
  2 <= c <= 4 ->
  fromarray h w c pixels
  = Ok {| im_height := h; im_width := w; im_channels := c; im_pixels := pixels |}.
Proof.
  intros Hc. unfold fromarray.
  destruct (Z.leb_spec 2 c); [ | lia]. destruct (Z.leb_spec c 4); [ | lia].
  reflexivity.
Qed.

Lemma convert_image_valid (img : tensor) :
  valid_image img -> exists p, convert_image img = (imul_255 img, Ok p).
Proof.
  intros (c & h & w & Hchk & Hc). unfold convert_image.
  rewrite Hchk, (fromarray_ok _ _ _ Hc). eexists. reflexivity.
Qed.

Lemma convert_images_valid (frames : list tensor) :
  Forall valid_image frames ->
  exists ps, convert_images frames = (map imul_255 frames, Ok ps)
             /\ len ps = len frames.
Proof.
  induction 1 as [ | img rest Himg _ IH]; simpl.
  - exists []. split; reflexivity.
  - destruct (convert_image_valid Himg) as [p ->].
    destruct IH as (ps & -> & Hlen). simpl.
    exists (p :: ps). split; [reflexivity | ].
    unfold len in *. simpl. lia.
Qed.

Lemma Forall_take {A : Type} (P : A -> Prop) (l : list A) :
  Forall P l -> forall k, Forall P (firstn k l).
Proof.
  induction 1 as [ | a l Ha _ IH]; intros [ | k]; simpl; constructor; auto.
Qed.

Lemma Forall_slice_to {A : Type} (P : A -> Prop) (l : list A) (n : Z) :
  Forall P l -> Forall P (slice_to l n).
Proof.
  intros H. unfold slice_to. destruct (n <? 0); now apply Forall_take.
Qed.

Lemma convert_episodes_valid (L : Z) (num_frames : list Z) :
  forall t : list (list tensor),
    length t = length num_frames ->
    Forall (fun r => len r = L) t ->
    Forall (fun n => 0 <= n <= L) num_frames ->
    Forall (Forall valid_image) t ->
    exists imgs,
      convert_episodes num_frames t
      = (map (fun p => scaled_row (fst p) (snd p)) (combine t num_frames), Ok imgs)
      /\ len imgs = sum_Z num_frames.
Proof.
  induction num_frames as [ | n ns IH]; intros t Hlen HL Hn Hv.
  - destruct t; [ | discriminate]. simpl. exists []. split; reflexivity.
  - destruct t as [ | row t]; [discriminate | ]. simpl.
    inversion HL as [ | ? ? HrowL HtL]; subst.
    inversion Hn as [ | ? ? Hn0 Hns]; subst.
    inversion Hv as [ | ? ? Hrow Ht]; subst.
    destruct (convert_images_valid (Forall_slice_to n Hrow)) as (imgs & -> & Hlen1).
    destruct (IH t) as (imgs' & -> & Hlen2); try assumption.
    { simpl in Hlen. lia. }
    simpl. exists (imgs ++ imgs'). split; [reflexivity | ].
    rewrite len_app, Hlen1, Hlen2, slice_to_length by lia. reflexivity.
Qed.

Lemma cat_episodes_len {A : Type} (L : Z) (num_frames : list Z) :
  forall t : list (list A),
    length t = length num_frames ->
    Forall (fun r => len r = L) t ->
    Forall (fun n => 0 <= n <= L) num_frames ->
    len (cat_episodes num_frames t) = sum_Z num_frames.
Proof.
  unfold cat_episodes.
  induction num_frames as [ | n ns IH]; intros t Hlen HL Hn.
  - destruct t; [reflexivity | discriminate].
  - destruct t as [ | row t]; [discriminate | ]. simpl.
    inversion HL as [ | ? ? HrowL HtL]; subst.
    inversion Hn as [ | ? ? Hn0 Hns]; subst.
    rewrite len_app, slice_to_length by lia.
    rewrite IH; try assumption; [reflexivity | simpl in Hlen; lia].
Qed.

Lemma cat_episodes_Forall {A : Type} (P : A -> Prop) (num_frames : list Z) :
  forall t : list (list A),
    Forall (Forall P) t -> Forall P (cat_episodes num_frames t).
Proof.
  unfold cat_episodes.
  induction num_frames as [ | n ns IH]; intros [ | row t] H; simpl; try constructor.
  inversion H as [ | ? ? Hrow Ht]; subst.
  apply Forall_app. split; [now apply Forall_slice_to | now apply IH].
Qed.

Lemma frame_axes_uniform (sh : list Z) (t : list (list tensor)) :
  t <> [] -> Forall (fun r => r <> []) t ->
  Forall (Forall (fun frame => t_shape frame = sh)) t ->
  frame_axes t = sh.
Proof.
  intros Hne Hrows Hsh. unfold frame_axes.
  destruct t as [ | row t]; [contradiction | ].
  inversion Hrows as [ | ? ? Hrow _]; subst.
  inversion Hsh as [ | ? ? Hrsh _]; subst.
  destruct row as [ | frame row]; [contradiction | ].
  inversion Hrsh; subst. reflexivity.
Qed.

Lemma compile_observation_valid (L : Z) (num_frames : list Z)
    (obs : list (String.string * list (list tensor))) :
  num_frames <> [] -> 0 < L ->
  Forall (fun kt => length (snd kt) = length num_frames
                    /\ Forall (fun r => len r = L) (snd kt)) obs ->
  Forall (fun n => 0 <= n <= L) num_frames ->
  Forall (fun kt => is_image_key (fst kt) = true ->
                    Forall (Forall valid_image) (snd kt)) obs ->
  Forall (fun kt => is_image_key (fst kt) = false ->
                    exists n, 0 < n
                      /\ Forall (Forall (fun t => t_shape t = [n])) (snd kt)) obs ->
  exists obs' vals features cols,
    compile_observation num_frames obs = (obs', Ok vals)
    /\ observation_features obs = Ok features
    /\ encode_columns vals features = Ok cols
    /\ Forall (fun kc => column_len (snd kc) = sum_Z num_frames) cols
    /\ Forall2 column_of_tensor obs cols.
Proof.
  intros Hnf HLpos Hshape Hn Himg Hvec.
  induction obs as [ | [key t] rest IH]; simpl.
  - exists [], [], [], []. repeat split; constructor.
  - inversion Hshape as [ | ? ? [Hlen HL] Hrest]; subst.
    inversion Himg as [ | ? ? Hkey Hirest]; subst.
    inversion Hvec as [ | ? ? Hkvec Hvrest]; subst. simpl in *.
    destruct (IH Hrest Hirest Hvrest) as (rest' & vals & fs & cols & Hco & Hfs & Hen & Hcols & Hrel).
    destruct (is_image_key key) eqn:Ek.
    + destruct (convert_episodes_valid Hlen HL Hn (Hkey eq_refl)) as (imgs & -> & Hl).
      rewrite Hco, Hfs. cbn [bind].
      eexists. eexists. eexists. eexists.
      split; [reflexivity | ]. split; [reflexivity | ].
      split; [cbn [encode_columns encode_column bind]; rewrite Hen; reflexivity | ].
      split.
      * constructor; [ | exact Hcols]. cbn [snd column_len]. now rewrite len_map.
      * constructor; [ | exact Hrel]. split; [reflexivity | exact Ek].
    + destruct (Hkvec eq_refl) as (n & Hnpos & Hsh).
      assert (Hax : frame_axes t = [n]).
      { apply frame_axes_uniform; [ | | exact Hsh].
        - destruct t; [ | discriminate]. destruct num_frames; [contradiction | discriminate].
        - eapply Forall_impl; [ | exact HL]. intros r Hr E. subst r.
          unfold len in Hr. simpl in Hr. lia. }
      assert (Hrank : forallb (fun frame => (length (t_shape frame) =? 1)%nat)
                              (cat_episodes num_frames t) = true).
      { apply forallb_forall. intros frame Hin.
        pose proof (cat_episodes_Forall num_frames Hsh) as Hall.
        rewrite Forall_forall in Hall. rewrite (Hall _ Hin). reflexivity. }
      rewrite Hco, Hfs, Hax. cbn [bind].
      eexists. eexists. eexists. eexists.
      split; [reflexivity | ]. split; [reflexivity | ].
      split; [cbn [encode_columns encode_column bind]; rewrite Hrank, Hen; reflexivity | ].
      split.
      * constructor; [ | exact Hcols]. cbn [snd column_len]. rewrite len_map.
        now apply cat_episodes_len with (L := L).
      * constructor; [ | exact Hrel]. split; [reflexivity | ].
        cbn [snd fst]. repeat split; assumption.
Qed.

End CompilerImages.

Section CompilerColumns.

Lemma map_seq_nth_shift {B : Type} (g : Z -> Z -> B) (l : list Z) :
  forall s : nat,
    map (fun k => g (Z.of_nat k) (nth (k - s) l 0)) (seq s (length l))
    = map (fun p => g (fst p) (snd p)) (combine (map Z.of_nat (seq s (length l))) l).
Proof.
  induction l as [ | a l IH]; intros s; simpl; [reflexivity | ].
  rewrite Nat.sub_diag. f_equal.
  rewrite <- IH. apply map_ext_in. intros k Hk. apply in_seq in Hk.
  replace (k - s)%nat with (S (k - S s)) by lia. reflexivity.
Qed.

Lemma map_range_nth {B : Type} (g : Z -> Z -> B) (l : list Z) :
  map (fun ix => g ix (nth (Z.to_nat ix) l 0)) (range 0 (len l))
  = map (fun p => g (fst p) (snd p)) (combine (range 0 (len l)) l).
Proof.
  unfold len. rewrite range_0, map_map, <- map_seq_nth_shift.
  apply map_ext. intros k. now rewrite Nat2Z.id, Nat.sub_0_r.
Qed.

Lemma map_snd_combine_range (l : list Z) :
  map snd (combine (range 0 (len l)) l) = l.
Proof.
  unfold len. rewrite range_0. generalize O.
  induction l as [ | a l IH]; intros s; simpl; [reflexivity | now rewrite IH].
Qed.

Lemma num_frames_over_range (done_indices : list Z) :
  map (num_frames_at done_indices) (range 0 (len done_indices))
  = map (fun d => d + 1) done_indices.
Proof.
  unfold num_frames_at.
  rewrite (map_range_nth (fun _ d => d + 1)).
  rewrite <- (map_snd_combine_range done_indices) at 3.
  now rewrite map_map.
Qed.

Lemma len_concat_map {A B : Type} (f : A -> list B) (l : list A) :
  len (concat (map f l)) = sum_Z (map (fun x => len (f x)) l).
Proof.
  induction l as [ | a l IH]; simpl; [reflexivity | ].
  rewrite len_app, IH. reflexivity.
Qed.

Lemma sum_Z_ext_in {A : Type} (f g : A -> Z) (l : list A) :
  (forall x, In x l -> f x = g x) -> sum_Z (map f l) = sum_Z (map g l).
Proof. intros H. f_equal. now apply map_ext_in. Qed.

Lemma sum_Z_nonneg (l : list Z) : Forall (fun n => 0 <= n) l -> 0 <= sum_Z l.
Proof. induction 1; simpl; lia. Qed.

Lemma in_range (lo hi x : Z) : In x (range lo hi) <-> lo <= x < hi.
Proof.
  unfold range. rewrite in_map_iff. split.
  - intros (k & <- & Hk). apply in_seq in Hk. lia.
  - intros H. exists (Z.to_nat (x - lo)). split; [lia | ]. apply in_seq. lia.
Qed.

Lemma nth_row_length {A : Type} (t : list (list A)) (n : nat) (i : nat) :
  Forall (fun r => length r = n) t -> (i < length t)%nat -> length (nth i t []) = n.
Proof.
  intros H Hi. rewrite Forall_forall in H. apply H. now apply nth_In.
Qed.

End CompilerColumns.

Section EpisodeCompilation.

Lemma rollout_ready (rd : rollout_data)
    (obs : list (String.string * list (list tensor)))
    (batch n_steps : nat) (done_indices : list Z) :
  rollout_ok rd obs batch n_steps ->
  length done_indices = batch ->
  Forall (fun d => 0 <= d < Z.of_nat n_steps) done_indices ->
  Forall (episode_ready rd obs done_indices) (range 0 (Z.of_nat batch)).
Proof.
  intros [_ [Ha _] [Hr _] [Hd _] Hf _ _ _ _] Hlen Hdi.
  apply Forall_forall. intros ix Hix. apply in_range in Hix.
  unfold episode_ready, len. rewrite Ha, Hr, Hd, Hlen.
  repeat split; try lia.
  - unfold num_frames_at.
    assert (Hin : In (nth (Z.to_nat ix) done_indices 0) done_indices)
      by (apply nth_In; lia).
    rewrite Forall_forall in Hdi. specialize (Hdi _ Hin). lia.
  - eapply Forall_impl; [ | exact Hf]. intros kt [Hk _]. simpl. rewrite Hk. lia.
Qed.

Lemma from_dict_ok (d : data_dict) (features : list (String.string * feature))
    (cols : list (String.string * column)) (n : Z) :
  encode_columns (dd_observation d) features = Ok cols ->
  len (dd_action d) = n -> len (dd_episode_index d) = n ->
  len (dd_frame_index d) = n -> len (dd_timestamp d) = n ->
  len (dd_next_done d) = n -> len (dd_next_reward d) = n ->
  len (dd_index d) = n ->
  Forall (fun kc => column_len (snd kc) = n) cols ->
  from_dict d features
  = Ok {| col_action := dd_action d;
          col_episode_index := dd_episode_index d;
          col_frame_index := dd_frame_index d;
          col_timestamp := dd_timestamp d;
          col_next_done := dd_next_done d;
          col_next_reward := dd_next_reward d;
          col_observation := cols;
          col_index := dd_index d |}.
Proof.
  intros He H1 H2 H3 H4 H5 H6 H7 H8. unfold from_dict.
  rewrite He. cbn [bind].
  rewrite H1, H2, H3, H4, H5, H6, H7, !Z.eqb_refl. simpl.
  replace (forallb _ cols) with true; [reflexivity | ].
  symmetry. apply forallb_forall. intros kc Hin.
  rewrite Forall_forall in H8. apply Z.eqb_eq. now apply H8.
Qed.

Section Explicit.

Variable rd : rollout_data.
Variable obs : list (String.string * list (list tensor)).
Variables batch n_steps : nat.
Variable done_indices : list Z.
Variables start_episode_index start_data_index : Z.
Variable fps : Q.

Hypothesis Hok : rollout_ok rd obs batch n_steps.
Hypothesis Hbatch : (0 < batch)%nat.
Hypothesis Hlen : length done_indices = batch.
Hypothesis Hdone : Forall (fun d => 0 <= d < Z.of_nat n_steps) done_indices.

Local Abbreviation ep_ixs := (range 0 (Z.of_nat batch)).
Local Abbreviation widths := (map (num_frames_at done_indices) ep_ixs).
Local Abbreviation eps := (map (ep_dict_at rd done_indices start_episode_index fps) ep_ixs).

Lemma widths_bounds : Forall (fun n => 0 <= n <= Z.of_nat n_steps) widths.
Proof.
  apply Forall_map, Forall_forall. intros ix Hix.
  apply in_range in Hix. unfold num_frames_at.
  assert (Hin : In (nth (Z.to_nat ix) done_indices 0) done_indices)
    by (apply nth_In; lia).
  rewrite Forall_forall in Hdone. specialize (Hdone _ Hin). lia.
Qed.

Lemma widths_length : length widths = batch.
Proof.
  rewrite length_map, range_length. lia.
Qed.

Lemma column_of_slices_len {A : Type} (t : list (list A)) :
  length t = batch -> Forall (fun r => length r = n_steps) t ->
  len (concat (map (fun ix => slice_to (nth (Z.to_nat ix) t [])
                                       (num_frames_at done_indices ix)) ep_ixs))
  = sum_Z widths.
Proof.
  intros Ht Hrows. rewrite len_concat_map.
  apply sum_Z_ext_in. intros ix Hix.
  pose proof widths_bounds as Hb. rewrite Forall_forall in Hb.
  specialize (Hb _ (in_map _ _ _ Hix)).
  apply in_range in Hix. apply slice_to_length. unfold len.
  rewrite (nth_row_length Hrows) by lia. lia.
Qed.

Lemma compile_explicit :
  exists obs' vals cols,
    compile_observation widths obs = (obs', Ok vals)
    /\ Forall (fun kc => column_len (snd kc) = sum_Z widths) cols
    /\ Forall2 column_of_tensor obs cols
    /\ _compile_episode_data rd done_indices start_episode_index start_data_index fps
       = (set_observation rd obs',
          Ok ({| col_action := concat (map ep_action eps);
                 col_episode_index := concat (map ep_episode_index eps);
                 col_frame_index := concat (map ep_frame_index eps);
                 col_timestamp := concat (map ep_timestamp eps);
                 col_next_done := concat (map ep_next_done eps);
                 col_next_reward := concat (map ep_next_reward eps);
                 col_observation := cols;
                 col_index := range start_data_index (start_data_index + sum_Z widths) |},
              {| edi_from := map fst (consecutive_ranges start_data_index widths);
                 edi_to := map snd (consecutive_ranges start_data_index widths) |})).
Proof.
  pose proof widths_bounds as Hwb. pose proof widths_length as Hwl.
  destruct Hok as [Hobs [Ha Har] [Hr Hrr] [Hd Hdr] Hf Hi Hv _ _].
  assert (Hsum : 0 <= sum_Z widths).
  { apply sum_Z_nonneg. eapply Forall_impl; [ | exact Hwb]. simpl. intros; lia. }
  destruct (@compile_observation_valid (Z.of_nat (S n_steps)) widths obs)
    as (obs' & vals & features & cols & Hco & Hfs & Hen & Hcols & Hrel).
  { intros E. apply (f_equal (@length Z)) in E. rewrite Hwl in E. simpl in E. lia. }
  { lia. }
  { eapply Forall_impl; [ | exact Hf]. intros kt [Hk Hrows]. split; [lia | ].
    eapply Forall_impl; [ | exact Hrows]. intros r Hrl. unfold len. now rewrite Hrl. }
  { eapply Forall_impl; [ | exact Hwb]. simpl. intros; lia. }
  { exact Hi. }
  { exact Hv. }
  exists obs', vals, cols. split; [exact Hco | ].
  split; [exact Hcols | ]. split; [exact Hrel | ].
  unfold _compile_episode_data.
  unfold len at 1. rewrite Ha.
  rewrite (compile_episodes_ok start_episode_index fps Hobs
             (rollout_ready Hok Hlen Hdone)).
  cbn [ep_dicts acc_from acc_to total_frames data_index_from app].
  rewrite Hobs.
  destruct eps as [ | e0 erest] eqn:Eeps.
  { exfalso. apply (f_equal (@length _)) in Eeps.
    rewrite length_map, range_length in Eeps. simpl in Eeps. lia. }
  rewrite <- Eeps.
  replace (map ep_num_frames eps) with widths
    by (rewrite map_map; reflexivity).
  rewrite Hco. f_equal.
  cbn [bind]. rewrite Z.add_0_l.
  rewrite arange_ok by lia. cbn [bind]. rewrite Hfs. cbn [bind].
  erewrite from_dict_ok with (n := sum_Z widths) (cols := cols); [reflexivity | .. ];
    cbn [dd_action dd_episode_index dd_frame_index dd_timestamp
         dd_next_done dd_next_reward dd_index dd_observation].
  - exact Hen.
  - rewrite map_map. cbn [ep_dict_at ep_action].
    now apply column_of_slices_len.
  - rewrite map_map. cbn [ep_dict_at ep_episode_index].
    rewrite len_concat_map. apply sum_Z_ext_in. intros ix Hix.
    apply list_times_len.
    rewrite Forall_forall in Hwb. specialize (Hwb _ (in_map _ _ _ Hix)). lia.
  - rewrite map_map. cbn [ep_dict_at ep_frame_index].
    rewrite len_concat_map. apply sum_Z_ext_in. intros ix Hix.
    rewrite range_len; [lia | ].
    rewrite Forall_forall in Hwb. specialize (Hwb _ (in_map _ _ _ Hix)). lia.
  - rewrite map_map. cbn [ep_dict_at ep_timestamp].
    rewrite len_concat_map. apply sum_Z_ext_in. intros ix Hix.
    rewrite len_map, range_len; [lia | ].
    rewrite Forall_forall in Hwb. specialize (Hwb _ (in_map _ _ _ Hix)). lia.
  - rewrite map_map. cbn [ep_dict_at ep_next_done].
    now apply column_of_slices_len.
  - rewrite map_map. cbn [ep_dict_at ep_next_reward].
    now apply column_of_slices_len.
  - rewrite range_len; lia.
  - exact Hcols.
Qed.

End Explicit.

End EpisodeCompilation.

Section EpisodeCompilationTheorem.


Lemma fold_Qmax_le (b : Q) (l : list Q) :
  Forall (fun x => (x <= b)%Q) l ->
  forall a, (a <= b)%Q -> (fold_left Qmax l a <= b)%Q.
Proof.
  induction 1 as [ | x l Hx _ IH]; intros a Ha; simpl; [exact Ha | ].
  apply IH. now apply Q.max_lub.
Qed.

Lemma fold_Qmin_ge (b : Q) (l : list Q) :
  Forall (fun x => (b <= x)%Q) l ->
  forall a, (b <= a)%Q -> (b <= fold_left Qmin l a)%Q.
Proof.
  induction 1 as [ | x l Hx _ IH]; intros a Ha; simpl; [exact Ha | ].
  apply IH. now apply Q.min_glb.
Qed.

(** The checks pass on a channel-first float32 image with entries in [0, 1]. *)
Lemma check_image_ok (c h w : Z) (a : Q) (data : list Q) :
  c < h -> c < w ->
  Forall (fun x => (0 <= x)%Q /\ (x <= 1)%Q) (a :: data) ->
  check_image {| t_shape := [c; h; w]; t_dtype := Float32; t_data := a :: data |}
  = Ok (c, h, w).
Proof.
  intros Hh Hw Hall. unfold check_image.
  cbn [t_shape t_dtype t_data unpack3 bind tensor_max tensor_min dtype_eqb].
  apply Z.ltb_lt in Hh, Hw. rewrite Hh, Hw.
  cbn [andb assert_ bind].
  inversion Hall as [ | ? ? [Ha0 Ha1] Hdata]; subst.
  assert (Hmx : Qle_bool (fold_left Qmax data a) 1 = true).
  { apply Qle_bool_iff, fold_Qmax_le; [ | exact Ha1].
    eapply Forall_impl; [ | exact Hdata]. intros x [_ Hx]; exact Hx. }
  assert (Hmn : Qle_bool 0 (fold_left Qmin data a) = true).
  { apply Qle_bool_iff, fold_Qmin_ge; [ | exact Ha0].
    eapply Forall_impl; [ | exact Hdata]. intros x [Hx _]; exact Hx. }
  rewrite Hmx. cbn [assert_ bind]. rewrite Hmn. reflexivity.
Qed.

Lemma flat_image_valid (v : Q) :
  (0 <= v)%Q -> (v <= 1)%Q -> valid_image (flat_image v).
Proof.
  intros H0 H1. exists 3, 4, 4. split; [ | lia].
  change (flat_image v)
    with {| t_shape := [3; 4; 4]; t_dtype := Float32; t_data := v :: repeat v 47 |}.
  apply check_image_ok; [lia | lia | ].
  constructor; [now split | ].
  apply Forall_forall. intros x Hx. apply repeat_spec in Hx. subst x. now split.
Qed.

Lemma rollout_2x5_ok : rollout_ok rollout_2x5 observation_2x6 2 5.
Proof.
  constructor.
  - reflexivity.
  - split; [reflexivity | ]. repeat (constructor; [reflexivity | ]). constructor.
  - split; [reflexivity | ]. repeat (constructor; [reflexivity | ]). constructor.
  - split; [reflexivity | ]. repeat (constructor; [reflexivity | ]). constructor.
  - unfold observation_2x6.
    repeat (constructor;
            [split; [reflexivity | ];
             repeat (constructor; [reflexivity | ]); constructor | ]).
    constructor.
  - unfold observation_2x6.
    constructor; [ | constructor; [ | constructor]].
    + intros _. cbn [snd].
      constructor; [ | constructor; [ | constructor]];
        apply Forall_forall; intros x Hx; apply repeat_spec in Hx; subst x;
        apply flat_image_valid; unfold Qle; simpl; lia.
    + intros H. discriminate H.
  - unfold observation_2x6.
    constructor; [ | constructor; [ | constructor]].
    + intros H. discriminate H.
    + intros _. exists 2. split; [lia | ]. cbn [snd].
      constructor; [ | constructor; [ | constructor]];
        apply Forall_forall; intros x Hx; apply repeat_spec in Hx; subst x; reflexivity.
  - unfold observation_2x6, reserved_keys.
    constructor; [ | constructor; [ | constructor]]; cbn [fst In];
      intros H; repeat (destruct H as [H | H]; [discriminate H | ]); exact H.
  - exists 1%nat. split; [lia | ]. cbn [rollout_2x5 rd_action rows].
    constructor; [ | constructor; [ | constructor]];
      apply Forall_forall; intros x Hx; apply repeat_spec in Hx; subst x; reflexivity.
Qed.


End EpisodeCompilationTheorem.

Section MergeEvaluation.

(** C1 fails on the code.  The online dataset holds episodes 0 and 1 in
    frames 0..4, so the last existing episode index is 1 and the last
    existing global index is 4; a batch of one episode of two frames is
    merged.  The claim has the incoming frames stored as episode 2 with
    global indices 5 and 6.  The code takes its offsets from the last row of
    the incoming batch (episode 0, index 1) and stores them as episode 1
    with indices 2 and 3, which the dataset already holds. *)
Theorem merge_shifts_by_incoming_last_row :
  col_episode_index (od_hf_dataset (st_online state_after_first_merge)) = [0; 0; 0; 1; 1]
  /\ col_index (od_hf_dataset (st_online state_after_first_merge)) = [0; 1; 2; 3; 4]
  /\ col_episode_index (batch_of_lengths [2]) = [0; 0]
  /\ col_index (batch_of_lengths [2]) = [0; 1]
  /\ exists st' edi',
       add_episodes_inplace state_after_first_merge
         (batch_of_lengths [2]) (index_of_lengths [2]) (1 # 2)
       = (st', edi', Ok tt)
       /\ col_episode_index (od_hf_dataset (st_online st')) = [0; 0; 0; 1; 1] ++ [1; 1]
       /\ col_index (od_hf_dataset (st_online st')) = [0; 1; 2; 3; 4] ++ [2; 3]
       /\ col_episode_index (od_hf_dataset (st_online st'))
          <> [0; 0; 0; 1; 1] ++ map (fun e => e + (1 + 1)) [0; 0]
       /\ col_index (od_hf_dataset (st_online st'))
          <> [0; 1; 2; 3; 4] ++ map (fun i => i + (4 + 1)) [0; 1].
Proof.
  split; [reflexivity | ]. split; [reflexivity | ].
  split; [reflexivity | ]. split; [reflexivity | ].
  eexists. eexists. split; [vm_compute; reflexivity | ].
  cbn [st_online od_hf_dataset col_episode_index col_index].
  split; [reflexivity | ]. split; [reflexivity | ].
  split; discriminate.
Qed.

(** C2 fails on the code.  Starting from an empty online dataset, a batch
    of two episodes (3 and 2 frames) and then a batch of one episode (2
    frames) are merged, each zero-based with its consistent index table.
    Both calls return, the online dataset has 7 frames, and: its episode
    indices are 0,0,0,1,1,1,1 (two episodes, not three), its global indices
    are 0,1,2,3,4,2,3 (not 0..6), and its index table still has only the
    ranges (0,3),(3,5) of the first batch, which cover 5 of the 7 frames. *)
Theorem merges_break_contiguity :
  exists st',
    merge_all fresh_state
      [(batch_of_lengths [3; 2], index_of_lengths [3; 2], 1 # 2);
       (batch_of_lengths [2], index_of_lengths [2], 1 # 2)]
    = (st', Ok tt)
    /\ num_rows (od_hf_dataset (st_online st')) = 7
    /\ col_episode_index (od_hf_dataset (st_online st')) = [0; 0; 0; 1; 1; 1; 1]
    /\ col_index (od_hf_dataset (st_online st')) = [0; 1; 2; 3; 4; 2; 3]
    /\ ~ counts_from_zero (col_index (od_hf_dataset (st_online st')))
    /\ distinct_runs (col_episode_index (od_hf_dataset (st_online st'))) = [0; 1]
    /\ combine (edi_from (od_episode_data_index (st_online st')))
               (edi_to (od_episode_data_index (st_online st')))
       = [(0, 3); (3, 5)]
    /\ combine (edi_from (od_episode_data_index (st_online st')))
               (edi_to (od_episode_data_index (st_online st')))
       <> consecutive_ranges 0 [3; 2; 2].
Proof.
  eexists. split; [vm_compute; reflexivity | ].
  cbn [st_online od_hf_dataset od_episode_data_index col_episode_index col_index
       edi_from edi_to num_rows].
  split; [reflexivity | ]. split; [reflexivity | ]. split; [reflexivity | ].
  split; [unfold counts_from_zero; vm_compute; discriminate | ].
  split; [reflexivity | ]. split; [reflexivity | ].
  vm_compute. discriminate.
Qed.

End MergeEvaluation.

Section MergePreconditions.

Lemma getitem_first {A : Type} (l : list A) (d : A) :
  l <> [] -> getitem l 0 = Ok (hd d l).
Proof.
  intros H. destruct l as [ | a l]; [contradiction | ].
  rewrite (getitem_ok (a :: l) d); [reflexivity | ].
  unfold len; simpl. lia.
Qed.

Lemma nth_last {A : Type} (l : list A) (d : A) :
  nth (length l - 1) l d = last l d.
Proof.
  induction l as [ | a l IH]; [reflexivity | ].
  destruct l as [ | b l]; [reflexivity | ].
  change (last (a :: b :: l) d) with (last (b :: l) d). rewrite <- IH.
  simpl. now rewrite Nat.sub_0_r.
Qed.

Lemma getitem_minus_one {A : Type} (l : list A) (d : A) :
  l <> [] -> getitem l (-1) = Ok (last l d).
Proof.
  intros H. unfold getitem.
  assert (Hlen : 0 < len l).
  { destruct l; [contradiction | unfold len; simpl; lia]. }
  change (-1 <? 0) with true. cbv iota.
  destruct (len l + -1 <? 0) eqn:E1; [apply Z.ltb_lt in E1; lia | ].
  destruct (len l <=? len l + -1) eqn:E2; [apply Z.leb_le in E2; lia | ]. simpl.
  destruct (nth_error l (Z.to_nat (len l + -1))) as [a | ] eqn:En.
  - f_equal. rewrite <- (nth_error_nth _ _ d En).
    replace (Z.to_nat (len l + -1)) with (length l - 1)%nat by (unfold len; lia).
    apply nth_last.
  - apply nth_error_None in En. unfold len in *. lia.
Qed.

Lemma getitem_at_end {A : Type} (l : list A) (i : Z) (d : A) :
  0 <= i -> len l = i + 1 -> getitem l i = Ok (last l d).
Proof.
  intros Hi Hlen. rewrite (getitem_ok l d) by lia.
  f_equal. replace (Z.to_nat i) with (length l - 1)%nat by (unfold len in Hlen; lia).
  apply nth_last.
Qed.

Lemma getitem_empty {A : Type} (i : Z) : getitem (@nil A) i = Raise IndexError.
Proof.
  unfold getitem. destruct (_ || _); [reflexivity | ].
  destruct (Z.to_nat _); reflexivity.
Qed.


(** Two tables with the same columns are aligned as they are. *)
Lemma align_columns_same (na nb : Z) (a : list (String.string * column)) :
  forall b o,
    concatenate_observation a b = Ok o -> align_columns na nb a b = (a, b).
Proof.
  induction a as [ | [k1 c1] a IH]; intros [ | [k2 c2] b] o H; simpl in H;
    try discriminate H; [reflexivity | ].
  destruct (String.eqb_spec k1 k2) as [E | E]; [ | discriminate H]. subst k2.
  destruct (concatenate_observation a b) as [rest | e] eqn:Er.
  2:{ destruct c1, c2; try discriminate H;
        try (destruct (_ =? _); discriminate H). }
  cbn [align_columns take_column]. rewrite String.eqb_refl.
  now rewrite (IH b rest Er).
Qed.

Lemma concatenate_datasets_same (a b : hf_dataset) (o : list (String.string * column)) :
  concatenate_observation (col_observation a) (col_observation b) = Ok o ->
  concatenate_datasets a b
  = Ok {| col_action := col_action a ++ col_action b;
          col_episode_index := col_episode_index a ++ col_episode_index b;
          col_frame_index := col_frame_index a ++ col_frame_index b;
          col_timestamp := col_timestamp a ++ col_timestamp b;
          col_next_done := col_next_done a ++ col_next_done b;
          col_next_reward := col_next_reward a ++ col_next_reward b;
          col_observation := o;
          col_index := col_index a ++ col_index b |}.
Proof.
  intros H. unfold concatenate_datasets.
  rewrite (align_columns_same _ _ _ _ H), H. reflexivity.
Qed.

Lemma concatenate_datasets_inv (a b merged : hf_dataset) :
  concatenate_datasets a b = Ok merged ->
  col_index merged = col_index a ++ col_index b
  /\ col_episode_index merged = col_episode_index a ++ col_episode_index b.
Proof.
  unfold concatenate_datasets. intros H.
  destruct (align_columns _ _ _ _) as [x y].
  destruct (concatenate_observation x y); [ | discriminate H].
  injection H as <-. split; reflexivity.
Qed.

Lemma check_incoming_spec (hf : hf_dataset) (edi : episode_data_index) :
  col_episode_index hf <> [] -> col_index hf <> [] -> edi_from edi <> [] ->
  0 <= last (col_episode_index hf) 0 ->
  len (edi_to edi) = last (col_episode_index hf) 0 + 1 ->
  (incoming_violation hf edi /\ check_incoming hf edi = Raise AssertionError)
  \/ (~ incoming_violation hf edi
      /\ check_incoming hf edi
         = Ok (last (col_episode_index hf) 0, last (col_index hf) 0)).
Proof.
  intros He Hi Hf Hl Ht. unfold check_incoming, incoming_violation.
  rewrite (getitem_first 0 He), (getitem_minus_one 0 He).
  rewrite (getitem_first 0 Hi), (getitem_minus_one 0 Hi).
  cbn [bind].
  destruct (Z.eqb_spec (hd 0 (col_episode_index hf)) 0) as [E1 | E1];
    [ | left; split; [tauto | reflexivity]].
  cbn [assert_ bind].
  destruct (Z.eqb_spec (hd 0 (col_index hf)) 0) as [E2 | E2];
    [ | left; split; [tauto | reflexivity]].
  cbn [assert_ bind].
  rewrite E1, (getitem_first 0 Hf). cbn [bind].
  destruct (Z.eqb_spec (hd 0 (col_index hf)) (hd 0 (edi_from edi))) as [E3 | E3];
    [ | left; split; [right; right; left; congruence | reflexivity]].
  cbn [assert_ bind].
  rewrite (getitem_at_end (edi_to edi) 0 Hl Ht). cbn [bind].
  destruct (Z.eqb_spec (last (col_index hf) 0) (last (edi_to edi) 0 - 1)) as [E4 | E4].
  - right. split; [ | reflexivity].
    intros [H | [H | [H | H]]]; try contradiction; [congruence | lia].
  - left. split; [right; right; right; lia | reflexivity].
Qed.

Lemma cumsum_from_length (online : online_dataset) (sequence : list dataset_ref) :
  forall s, length (cumsum_from online s sequence) = length sequence.
Proof. induction sequence as [ | e l IH]; intros s; simpl; [ | rewrite IH]; reflexivity. Qed.

Lemma update_sampling_ok (st : merge_state) (pc : Q) :
  datasets (st_concat st) <> [] ->
  0 < num_rows (od_hf_dataset (st_online st)) ->
  (0 <= pc)%Q -> (pc < 1)%Q ->
  exists st', update_sampling st pc = (st', Ok tt) /\ st_online st' = st_online st.
Proof.
  intros Hd Hn H0 H1. unfold update_sampling, len_concat.
  cbn [cumulative_sizes].
  assert (Hne : cumsum (st_online st) (datasets (st_concat st)) <> []).
  { intros E. apply (f_equal (@length Z)) in E. unfold cumsum in E.
    rewrite cumsum_from_length in E. destruct (datasets (st_concat st));
      [contradiction | discriminate]. }
  rewrite (getitem_minus_one 0 Hne).
  rewrite (weight_defined _ Hn H0 H1).
  eexists. split; reflexivity.
Qed.

End MergePreconditions.

Section EmptyBatch.

(** C8, as amended.  Merging a batch without rows raises [IndexError] at
    the first look-up, before anything is mutated: the online dataset, the
    combined dataset's cumulative sizes, the weights and the sample count
    (and the incoming index table) are as they were, and the call does not
    return normally. *)
Theorem merging_empty_batch_raises_before_mutation
    (st : merge_state) (hf : hf_dataset) (edi : episode_data_index) (pc : Q) :
  col_episode_index hf = [] ->
  add_episodes_inplace st hf edi pc = (st, edi, Raise IndexError).
Proof.
  intros H. unfold add_episodes_inplace, check_incoming.
  rewrite H, getitem_empty. reflexivity.
Qed.

Lemma merging_empty_batch_raises_before_mutation_witness :
  col_episode_index empty_hf_dataset = []
  /\ add_episodes_inplace fresh_state empty_hf_dataset (index_of_lengths []) (1 # 2)
     = (fresh_state, index_of_lengths [], Raise IndexError).
Proof.
  split; [reflexivity | ].
  apply (@merging_empty_batch_raises_before_mutation
           fresh_state empty_hf_dataset (index_of_lengths []) (1 # 2)).
  reflexivity.
Defined.

(** C8 as stated fails: the merge of an empty batch is not an operation
    that completes and changes nothing, the call raises. *)
Lemma merging_empty_batch_counterexample :
  ~ (forall (st : merge_state) (edi : episode_data_index) (pc : Q),
        add_episodes_inplace st empty_hf_dataset edi pc = (st, edi, Ok tt)).
Proof.
  intros H. specialize (H fresh_state (index_of_lengths []) (1 # 2)).
  apply (f_equal snd) in H. vm_compute in H. discriminate H.
Qed.

End EmptyBatch.

Section MergeValidation.




End MergeValidation.

Section RolloutBatchAfterCompilation.

(** What the compiler leaves in the caller's rollout batch, for any batch
    it accepts: in every image tensor the frames that went into an episode
    are multiplied by 255, everything else is as it was. *)
Lemma compile_leaves_scaled_images
    (rd : rollout_data) (obs : list (String.string * list (list tensor)))
    (batch n_steps : nat) (done_indices : list Z)
    (start_episode_index start_data_index : Z) (fps : Q) :
  rollout_ok rd obs batch n_steps ->
  (0 < batch)%nat ->
  length done_indices = batch ->
  Forall (fun d => 0 <= d < Z.of_nat n_steps) done_indices ->
  exists out,
    _compile_episode_data rd done_indices start_episode_index start_data_index fps
    = (set_observation rd
         (map (fun kt =>
                 if is_image_key (fst kt)
                 then (fst kt,
                       map (fun p => scaled_row (fst p) (snd p + 1))
                           (combine (snd kt) done_indices))
                 else kt) obs),
       Ok out).
Proof.
  intros Hok Hbatch Hlen Hdone.
  destruct (compile_explicit start_episode_index start_data_index fps
              Hok Hbatch Hlen Hdone) as (obs' & cols & dcols & Hco & _ & _ & Hc).
  eexists. rewrite Hc. f_equal. f_equal.
  assert (HL : Z.of_nat batch = len done_indices) by (unfold len; now rewrite Hlen).
  rewrite HL, num_frames_over_range in Hco.
  destruct Hok as [_ _ _ _ Hf Hi _ _ _].
  assert (Hw : Forall (fun n => 0 <= n <= Z.of_nat (S n_steps))
                 (map (fun d => d + 1) done_indices)).
  { apply Forall_map. eapply Forall_impl; [ | exact Hdone]. simpl. intros; lia. }
  clear Hc. revert obs' cols Hco.
  induction obs as [ | [key t] rest IH]; intros obs' cols Hco; simpl in Hco |- *.
  - now injection Hco as <- _.
  - inversion Hf as [ | ? ? [Hk Hrows] Hfrest]; subst.
    inversion Hi as [ | ? ? Hkey Hirest]; subst. simpl in *.
    destruct (is_image_key key) eqn:Ek.
    + destruct (@convert_episodes_valid (Z.of_nat (S n_steps))
                  (map (fun d => d + 1) done_indices) t)
        as (imgs & Hce & _).
      * rewrite length_map. lia.
      * eapply Forall_impl; [ | exact Hrows]. intros r Hr. unfold len. now rewrite Hr.
      * exact Hw.
      * now apply Hkey.
      * rewrite Hce in Hco.
        destruct (compile_observation (map (fun d => d + 1) done_indices) rest)
          as [rest' r] eqn:Er.
        destruct r as [cols' | e]; [ | discriminate Hco].
        injection Hco as <- _.
        rewrite (IH Hfrest Hirest rest' cols' eq_refl).
        f_equal. f_equal.
        clear. revert done_indices.
        induction t as [ | row t IHt]; intros [ | d ds]; simpl; try reflexivity.
        now rewrite IHt.
    + destruct (compile_observation (map (fun d => d + 1) done_indices) rest)
        as [rest' r] eqn:Er.
      destruct r as [cols' | e]; [ | discriminate Hco].
      injection Hco as <- _.
      now rewrite (IH Hfrest Hirest rest' cols' eq_refl).
Qed.

(** C10 fails on the code.  The rollout of two environments over five
    steps, with image frames filled with 1/2 and with 1, is compiled with
    done indices 2 and 4.  The call returns, and the rollout batch the
    caller holds has changed: the first 3 image frames of the first
    environment now hold 255/2 and the first 5 of the second hold 255
    ([img *= 255] writes through the view into the batch); the remaining
    frames and the state vectors are as before. *)
Theorem compile_overwrites_rollout_images :
  rd_observation rollout_2x5
  = Some [("observation.image"%string,
           [repeat (flat_image (1 # 2)) 6; repeat (flat_image 1) 6]);
          ("observation.state"%string,
           [repeat (state_frame 0 1) 6; repeat (state_frame 1 0) 6])]
  /\ exists rd' out,
       _compile_episode_data rollout_2x5 [2; 4] 0 0 10 = (rd', Ok out)
       /\ rd_observation rd'
          = Some [("observation.image"%string,
                   [repeat (flat_image (255 # 2)) 3 ++ repeat (flat_image (1 # 2)) 3;
                    repeat (flat_image 255) 5 ++ repeat (flat_image 1) 1]);
                  ("observation.state"%string,
                   [repeat (state_frame 0 1) 6; repeat (state_frame 1 0) 6])]
       /\ rd_observation rd' <> rd_observation rollout_2x5
       /\ ~ (255 # 2 == 1 # 2)%Q.
Proof.
  split; [reflexivity | ].
  eexists. eexists. split; [vm_compute; reflexivity | ].
  cbn [rd_observation]. split; [reflexivity | ].
  split; discriminate.
Qed.

End RolloutBatchAfterCompilation.

Section EvalLoop.

Variable World : Type.
Variable rollout : World -> list Z -> World * rollout_data.
Variables num_envs start_seed : Z.

Hypothesis Hwidth : 0 < num_envs.
Hypothesis Hrollout :
  forall world seeds, rollout_batch_of (snd (rollout world seeds)) num_envs.

Lemma seq_from (n : nat) : forall a : nat, seq a n = map (Nat.add a) (seq 0 n).
Proof.
  induction n as [ | n IH]; intros a; simpl; [reflexivity | ].
  rewrite Nat.add_0_r. f_equal.
  rewrite <- (seq_shift n 0), map_map, (IH (S a)).
  apply map_ext. intros k. lia.
Qed.

Lemma range_app (lo mid hi : Z) :
  lo <= mid -> mid <= hi -> range lo mid ++ range mid hi = range lo hi.
Proof.
  intros H1 H2. unfold range.
  replace (Z.to_nat (hi - lo)) with (Z.to_nat (mid - lo) + Z.to_nat (hi - mid))%nat by lia.
  rewrite seq_app, map_app. f_equal.
  rewrite (seq_from (Z.to_nat (hi - mid)) (0 + Z.to_nat (mid - lo))), map_map.
  apply map_ext. intros k. lia.
Qed.

Lemma range_snoc (k : Z) : 0 <= k -> range 0 (k + 1) = range 0 k ++ [k].
Proof.
  intros H. rewrite <- (@range_app 0 k (k + 1)) by lia. f_equal.
  unfold range. replace (Z.to_nat (k + 1 - k)) with 1%nat by lia. simpl.
  f_equal. lia.
Qed.

Lemma mul_mask_len (x : list (list Q)) (mask : list (list Z)) :
  len x = len mask -> len (mul_mask x mask) = len x.
Proof.
  intros H. unfold mul_mask, len in *. rewrite length_map, length_combine. lia.
Qed.

Lemma reduce_any_len (x : list (list bool)) (mask : list (list Z)) :
  len x = len mask -> len (reduce_any x mask) = len x.
Proof.
  intros H. unfold reduce_any, len in *. rewrite length_map, length_combine. lia.
Qed.

Lemma eval_batch_step (st : World * list (list Z) * metric_lists) (k : Z) :
  0 <= k ->
  batches_done num_envs start_seed k st ->
  exists st',
    eval_batch rollout num_envs (Some start_seed) st k = Ok st'
    /\ batches_done num_envs start_seed (k + 1) st'.
Proof.
  intros Hk (Hs & Hm & Ha & Hseeds & Hcalls).
  destruct st as [[world calls] acc]. cbn [fst snd] in *.
  unfold eval_batch.
  cbn [bind]. fold (seeds_of_batch start_seed num_envs k).
  pose proof (Hrollout world (seeds_of_batch start_seed num_envs k)) as Hrd.
  destruct (rollout world (seeds_of_batch start_seed num_envs k)) as [world' rd].
  cbn [snd] in Hrd. destruct Hrd as (Hr & Hsu & Hd & Hn).
  unfold resolve_boundaries. rewrite (done_indices_of_ok _ Hn). cbn [bind snd].
  rewrite validity_mask_rows, map_map.
  set (mask := map _ (rows (rd_done rd))).
  assert (Hmask : len mask = num_envs).
  { subst mask. now rewrite len_map. }
  eexists. split; [reflexivity | ].
  unfold batches_done. cbn [fst snd sum_rewards max_rewards all_successes all_seeds].
  unfold reduce_sum, reduce_max.
  rewrite !len_app, !len_map, mul_mask_len, reduce_any_len by congruence.
  rewrite Hs, Hm, Ha, Hr, Hsu.
  repeat split; try lia.
  - rewrite Hseeds. unfold seeds_of_batch. apply range_app; nia.
  - rewrite Hcalls, range_snoc, map_app by assumption. reflexivity.
Qed.

Lemma eval_batches_run (m : nat) :
  forall (a : nat) (st : World * list (list Z) * metric_lists),
    batches_done num_envs start_seed (Z.of_nat a) st ->
    exists st',
      eval_batches rollout num_envs (Some start_seed) st (map Z.of_nat (seq a m)) = Ok st'
      /\ batches_done num_envs start_seed (Z.of_nat (a + m)) st'.
Proof.
  induction m as [ | m IH]; intros a st Hst; simpl.
  - exists st. split; [reflexivity | ]. now rewrite Nat.add_0_r.
  - destruct (eval_batch_step (Zle_0_nat a) Hst) as (st1 & -> & Hst1). cbn [bind].
    replace (Z.of_nat a + 1) with (Z.of_nat (S a)) in Hst1 by lia.
    destruct (IH (S a) st1 Hst1) as (st' & Hrun & Hst').
    exists st'. split; [exact Hrun | ].
    now replace (a + S m)%nat with (S a + m)%nat by lia.
Qed.

End EvalLoop.

Section EvalResult.

Lemma slice_to_firstn {A : Type} (l : list A) (n : Z) :
  0 <= n -> slice_to l n = firstn (Z.to_nat n) l.
Proof.
  intros H. unfold slice_to.
  destruct (n <? 0) eqn:E; [apply Z.ltb_lt in E; lia | reflexivity].
Qed.

Lemma firstn_range (s n k : Z) :
  0 <= n <= k -> firstn (Z.to_nat n) (range s (s + k)) = range s (s + n).
Proof.
  intros H. rewrite <- (@range_app s (s + n) (s + k)) by lia.
  rewrite firstn_app, range_length.
  replace (Z.to_nat n - Z.to_nat (s + n - s))%nat with O by lia.
  rewrite firstn_all2 by (rewrite range_length; lia).
  simpl. apply app_nil_r.
Qed.

Lemma zip4_strict_ok {A B C D : Type} (a : list A) :
  forall (b : list B) (c : list C) (d : list D),
    length b = length a -> length c = length a -> length d = length a ->
    exists z,
      zip4_strict a b c d = Ok z
      /\ map (fun t => fst (fst (fst t))) z = a
      /\ map (fun t => snd (fst (fst t))) z = b
      /\ map (fun t => snd (fst t)) z = c
      /\ map snd z = d.
Proof.
  induction a as [ | x a IH]; intros [ | y b] [ | u c] [ | v d] Hb Hc Hd;
    try discriminate.
  - exists []. repeat split.
  - destruct (IH b c d) as (z & Hz & H1 & H2 & H3 & H4); try (simpl in *; lia).
    exists ((x, y, u, v) :: z). simpl. rewrite Hz. simpl.
    rewrite H1, H2, H3, H4. repeat split.
Qed.

Lemma enumerate_from_fst {A : Type} (l : list A) :
  forall i, map fst (enumerate_from i l) = range i (i + len l).
Proof.
  induction l as [ | x l IH]; intros i.
  - unfold range, len. simpl. now replace (i + 0 - i) with 0 by lia.
  - simpl. rewrite IH.
    rewrite <- (@range_app i (i + 1) (i + len (x :: l)))
      by (unfold len; simpl length; lia).
    replace (i + 1 + len l) with (i + len (x :: l)) by (unfold len; simpl length; lia).
    f_equal. unfold range. replace (Z.to_nat (i + 1 - i)) with 1%nat by lia.
    simpl. f_equal. lia.
Qed.

Lemma enumerate_from_snd {A : Type} (l : list A) :
  forall i, map snd (enumerate_from i l) = l.
Proof. induction l as [ | x l IH]; intros i; simpl; [ | rewrite IH]; reflexivity. Qed.

Lemma ceil_batches (n w : Z) :
  0 < n -> 0 < w ->
  let n_batches := n / w + int_of_bool (negb (n mod w =? 0)) in
  (n_batches - 1) * w < n <= n_batches * w.
Proof.
  intros Hn Hw. simpl.
  pose proof (Z.div_mod n w ltac:(lia)) as Hdm.
  pose proof (Z.mod_pos_bound n w Hw) as Hb.
  destruct (Z.eqb_spec (n mod w) 0) as [E | E]; simpl; nia.
Qed.

End EvalResult.

Section EvalPolicyTheorem.

(** C7.  For [n_episodes > 0], batch width [num_envs > 0] and a start
    seed, [eval_policy] returns, after exactly [ceil(n_episodes / num_envs)]
    calls of [rollout] with the seeds
    [start_seed + b * num_envs .. start_seed + (b + 1) * num_envs - 1] for
    batch [b].  The metric lists of all batches have
    [n_batches * num_envs] entries; the per-episode entries are the first
    [n_episodes] of them (the excess is cut from the tail), numbered
    [0 .. n_episodes - 1], with the seeds [start_seed ..
    start_seed + n_episodes - 1] in order; the aggregated metrics are means
    over those first [n_episodes] entries. *)
Theorem eval_policy_keeps_first_n_episodes
    (World : Type) (rollout : World -> list Z -> World * rollout_data)
    (world : World) (num_envs n_episodes start_seed : Z) :
  0 < n_episodes -> 0 < num_envs ->
  (forall wd seeds, rollout_batch_of (snd (rollout wd seeds)) num_envs) ->
  exists world' calls info n_batches full,
    eval_policy rollout world num_envs n_episodes (Some start_seed)
    = Ok (world', calls, info)
    /\ eval_batches rollout num_envs (Some start_seed) (world, [], no_metrics)
         (range 0 n_batches)
       = Ok (world', calls, full)
    /\ (n_batches - 1) * num_envs < n_episodes <= n_batches * num_envs
    /\ len calls = n_batches
    /\ calls = map (seeds_of_batch start_seed num_envs) (range 0 n_batches)
    /\ len (sum_rewards full) = n_batches * num_envs
    /\ len (max_rewards full) = n_batches * num_envs
    /\ len (all_successes full) = n_batches * num_envs
    /\ all_seeds full = range start_seed (start_seed + n_batches * num_envs)
    /\ len (per_episode info) = n_episodes
    /\ map episode_ix (per_episode info) = range 0 n_episodes
    /\ map seed (per_episode info) = range start_seed (start_seed + n_episodes)
    /\ map sum_reward (per_episode info) = firstn (Z.to_nat n_episodes) (sum_rewards full)
    /\ map max_reward (per_episode info) = firstn (Z.to_nat n_episodes) (max_rewards full)
    /\ map success (per_episode info) = firstn (Z.to_nat n_episodes) (all_successes full)
    /\ avg_sum_reward (aggregated info)
       = nanmean (firstn (Z.to_nat n_episodes) (sum_rewards full))
    /\ avg_max_reward (aggregated info)
       = nanmean (firstn (Z.to_nat n_episodes) (max_rewards full))
    /\ pc_success (aggregated info)
       = option_map (fun m => (m * 100)%Q)
           (nanmean (map (fun b => inject_Z (int_of_bool b))
                         (firstn (Z.to_nat n_episodes) (all_successes full)))).
Proof.
  intros Hn Hw Hrollout.
  set (n_batches := n_episodes / num_envs
                    + int_of_bool (negb (n_episodes mod num_envs =? 0))).
  pose proof (ceil_batches Hn Hw) as Hceil. cbv zeta in Hceil. fold n_batches in Hceil.
  assert (Hnb : 0 <= n_batches) by nia.
  (* the batch loop *)
  assert (Hinit : batches_done num_envs start_seed (Z.of_nat 0) (world, [], no_metrics)).
  { unfold batches_done, no_metrics; simpl.
    repeat split. unfold range. now replace (start_seed + 0 - start_seed) with 0 by lia. }
  destruct (@eval_batches_run World rollout num_envs start_seed Hw Hrollout
              (Z.to_nat n_batches) O (world, [], no_metrics) Hinit)
    as ([[world' calls] full] & Hrun & Hdone).
  rewrite Nat.add_0_l, Z2Nat.id in Hdone by assumption.
  rewrite <- range_0, Z2Nat.id in Hrun by assumption.
  destruct Hdone as (Hs & Hm & Ha & Hseeds & Hcalls). cbn [fst snd] in *.
  (* the four truncated lists have n_episodes entries *)
  assert (Hlen : forall (A : Type) (l : list A),
             len l = n_batches * num_envs ->
             length (firstn (Z.to_nat n_episodes) l) = Z.to_nat n_episodes).
  { intros A l Hl. rewrite length_firstn. unfold len in Hl. lia. }
  assert (Hseedlen : len (all_seeds full) = n_batches * num_envs).
  { rewrite Hseeds, range_len; nia. }
  destruct (@zip4_strict_ok _ _ _ _
              (firstn (Z.to_nat n_episodes) (sum_rewards full))
              (firstn (Z.to_nat n_episodes) (max_rewards full))
              (firstn (Z.to_nat n_episodes) (all_successes full))
              (firstn (Z.to_nat n_episodes) (all_seeds full)))
    as (zipped & Hzip & Hz1 & Hz2 & Hz3 & Hz4);
    try (rewrite !Hlen by assumption; reflexivity).
  assert (Hzlen : len zipped = n_episodes).
  { rewrite <- (len_map (fun t => fst (fst (fst t)))), Hz1.
    unfold len. rewrite Hlen by assumption. lia. }
  (* the call *)
  eexists world', calls, _, n_batches, full.
  split.
  { unfold eval_policy, floordiv, pymod.
    destruct (Z.eqb_spec num_envs 0) as [E | _]; [lia | ]. cbn [bind].
    fold n_batches. unfold no_metrics in Hrun. rewrite Hrun. cbn [bind].
    rewrite !slice_to_firstn by lia. rewrite Hzip. cbn [bind].
    destruct (Z.eqb_spec n_episodes 0) as [E | _]; [lia | ]. cbn [bind].
    reflexivity. }
  split; [exact Hrun | ]. split; [exact Hceil | ].
  split; [rewrite Hcalls, len_map, range_len; lia | ].
  split; [exact Hcalls | ].
  split; [exact Hs | ]. split; [exact Hm | ]. split; [exact Ha | ].
  split; [exact Hseeds | ].
  cbn [per_episode aggregated avg_sum_reward avg_max_reward pc_success].
  assert (Hfst : map fst (enumerate_from 0 zipped) = range 0 n_episodes)
    by (rewrite enumerate_from_fst, Hzlen; reflexivity).
  pose proof (enumerate_from_snd zipped 0) as Hsnd.
  assert (Hproj : forall (B : Type) (f : episode_entry -> B)
                    (g : Q * Q * bool * Z -> B),
             (forall i sr mr su sd,
                 f {| episode_ix := i; sum_reward := sr; max_reward := mr;
                      success := su; seed := sd |} = g (sr, mr, su, sd)) ->
             map f (map (fun e : Z * (Q * Q * bool * Z) =>
                           let '(i, (sr, mr, su, sd)) := e in
                           {| episode_ix := i; sum_reward := sr; max_reward := mr;
                              success := su; seed := sd |})
                        (enumerate_from 0 zipped))
             = map g zipped).
  { intros B f g Hfg. rewrite map_map. rewrite <- Hsnd at 2. rewrite map_map.
    apply map_ext. intros [i [[[sr mr] su] sd]]. apply Hfg. }
  split.
  { rewrite len_map. rewrite <- (len_map fst), Hfst, range_len; lia. }
  split.
  { rewrite map_map. rewrite <- Hfst. rewrite <- (map_map _ fst) at 1.
    rewrite map_map. apply map_ext. now intros [i [[[sr mr] su] sd]]. }
  split.
  { rewrite (Hproj Z seed snd) by reflexivity.
    rewrite Hz4, Hseeds. apply firstn_range. lia. }
  split; [rewrite (Hproj Q sum_reward (fun t => fst (fst (fst t)))) by reflexivity;
          exact Hz1 | ].
  split; [rewrite (Hproj Q max_reward (fun t => snd (fst (fst t)))) by reflexivity;
          exact Hz2 | ].
  split; [rewrite (Hproj bool success (fun t => snd (fst t))) by reflexivity;
          exact Hz3 | ].
  repeat split.
Qed.

Lemma eval_policy_keeps_first_n_episodes_witness :
  0 < 5 /\ 0 < 2
  /\ (forall wd seeds, rollout_batch_of (snd (constant_rollout wd seeds)) 2)
  /\ exists world' calls info,
       eval_policy constant_rollout tt 2 5 (Some 7) = Ok (world', calls, info)
       /\ calls = [[7; 8]; [9; 10]; [11; 12]]
       /\ len (per_episode info) = 5
       /\ map episode_ix (per_episode info) = [0; 1; 2; 3; 4]
       /\ map seed (per_episode info) = [7; 8; 9; 10; 11].
Proof.
  assert (H1 : 0 < 5) by lia.
  assert (H2 : 0 < 2) by lia.
  assert (H3 : forall wd seeds, rollout_batch_of (snd (constant_rollout wd seeds)) 2).
  { intros wd seeds. unfold rollout_batch_of, constant_rollout; simpl.
    repeat split; lia. }
  split; [exact H1 | ]. split; [exact H2 | ]. split; [exact H3 | ].
  destruct (@eval_policy_keeps_first_n_episodes unit constant_rollout tt 2 5 7 H1 H2 H3)
    as (world' & calls & info & n_batches & full & Hcall & _ & Hceil & _ & Hcalls
        & _ & _ & _ & _ & Hlen & Hix & Hseed & _).
  assert (Hnb : n_batches = 3) by lia. subst n_batches.
  exists world', calls, info.
  split; [exact Hcall | ]. split; [exact Hcalls | ]. split; [exact Hlen | ].
  split; [exact Hix | exact Hseed].
Defined.

End EvalPolicyTheorem.

Section MergeOffsets.

Lemma update_sampling_keeps_online (st : merge_state) (pc : Q) :
  st_online (fst (update_sampling st pc)) = st_online st.
Proof.
  unfold update_sampling.
  destruct (len_concat _); [ | reflexivity].
  destruct (calculate_online_sample_weight _ _ _); reflexivity.
Qed.



End MergeOffsets.

Section WeightMonotone.

(** The weight is never negative, and raising the target fraction never
    lowers it: for [n_off >= 0], [n_on > 0] and
    [0 <= pc1 <= pc2 < 1] the weights satisfy [0 <= w1 <= w2]. *)
Theorem weight_nonnegative_and_monotone (n_off n_on : Z) (pc1 pc2 : Q) :
  0 <= n_off -> 0 < n_on ->
  (0 <= pc1)%Q -> (pc1 <= pc2)%Q -> (pc2 < 1)%Q ->
  exists w1 w2,
    calculate_online_sample_weight n_off n_on pc1 = Ok w1
    /\ calculate_online_sample_weight n_off n_on pc2 = Ok w2
    /\ (0 <= w1)%Q /\ (w1 <= w2)%Q.
Proof.
  intros Hoff Hon H0 H12 H2.
  assert (H1 : (pc1 < 1)%Q) by lra.
  assert (H02 : (0 <= pc2)%Q) by lra.
  rewrite (weight_defined n_off Hon H0 H1), (weight_defined n_off Hon H02 H2).
  eexists. eexists. split; [reflexivity | ]. split; [reflexivity | ].
  pose proof (inject_Z_pos Hon) as Hn.
  assert (Ha : (0 <= inject_Z n_off)%Q) by (unfold Qle; simpl; lia).
  set (a := inject_Z n_off) in *. set (b := inject_Z n_on) in *.
  assert (Hform : forall pc, (pc < 1)%Q ->
             (- (a * pc) / (b * (pc - 1)) == a * pc / (b * (1 - pc)))%Q).
  { intros pc Hpc. field. split; lra. }
  rewrite (Hform pc1 H1), (Hform pc2 H2).
  assert (Hd1 : (0 < b * (1 - pc1))%Q) by (apply Qmult_lt_0_compat; lra).
  assert (Hd2 : (0 < b * (1 - pc2))%Q) by (apply Qmult_lt_0_compat; lra).
  split.
  - apply Qle_shift_div_l; [exact Hd1 | ]. rewrite Qmult_0_l.
    apply Qmult_le_0_compat; assumption.
  - apply Qle_shift_div_l; [exact Hd2 | ].
    assert (Hx : (a * pc1 / (b * (1 - pc1)) * (b * (1 - pc2))
                  == a * (pc1 * (1 - pc2)) / (1 - pc1))%Q) by (field; split; lra).
    rewrite Hx. apply Qle_shift_div_r; [lra | ].
    assert (Hp : (0 <= a * (pc2 - pc1))%Q) by (apply Qmult_le_0_compat; lra).
    lra.
Qed.

Lemma weight_nonnegative_and_monotone_witness :
  0 <= 100 /\ 0 < 50 /\ (0 <= 1 # 4)%Q /\ (1 # 4 <= 1 # 2)%Q /\ (1 # 2 < 1)%Q
  /\ exists w1 w2,
       calculate_online_sample_weight 100 50 (1 # 4) = Ok w1
       /\ calculate_online_sample_weight 100 50 (1 # 2) = Ok w2
       /\ (0 <= w1)%Q /\ (w1 <= w2)%Q.
Proof.
  assert (H1 : 0 <= 100) by lia.
  assert (H2 : 0 < 50) by lia.
  assert (H3 : (0 <= 1 # 4)%Q) by discriminate.
  assert (H4 : (1 # 4 <= 1 # 2)%Q) by discriminate.
  assert (H5 : (1 # 2 < 1)%Q) by reflexivity.
  repeat (split; [assumption | ]).
  exact (@weight_nonnegative_and_monotone 100 50 (1 # 4) (1 # 2) H1 H2 H3 H4 H5).
Defined.

End WeightMonotone.

Section SamplerAfterMerge.

Lemma weight_ok_inv (n_off n_on : Z) (pc_on w : Q) :
  calculate_online_sample_weight n_off n_on pc_on = Ok w ->
  (0 <= pc_on)%Q /\ (pc_on < 1)%Q /\ n_on <> 0
  /\ w = (- (inject_Z n_off * pc_on) / (inject_Z n_on * (pc_on - 1)))%Q.
Proof.
  unfold calculate_online_sample_weight, truediv. intros H.
  destruct (Qle_bool 0 pc_on) eqn:E0; [ | discriminate H].
  destruct (Qle_bool pc_on 1) eqn:E1; [ | discriminate H].
  cbn [andb assert_ bind] in H.
  destruct (Qeq_bool (inject_Z n_on * (pc_on - 1)) 0) eqn:Ed; [discriminate H | ].
  injection H as <-.
  apply Qle_bool_iff in E0, E1.
  assert (Hnz : ~ (inject_Z n_on * (pc_on - 1) == 0)%Q).
  { intros Hz. apply Qeq_bool_iff in Hz. congruence. }
  split; [assumption | ]. split; [ | split; [ | reflexivity]].
  - apply Qle_lteq in E1. destruct E1 as [E1 | E1]; [assumption | ].
    exfalso. apply Hnz. rewrite E1. ring.
  - intros ->. apply Hnz. change (inject_Z 0) with 0%Q. ring.
Qed.

Lemma cumsum_from_last (online : online_dataset) (ds : list dataset_ref) :
  ds <> [] ->
  forall s, last (cumsum_from online s ds) 0 = s + total_len online ds.
Proof.
  unfold total_len.
  induction ds as [ | e ds IH]; intros Hne s; [contradiction | ].
  destruct ds as [ | e' ds].
  - simpl. lia.
  - change (cumsum_from online s (e :: e' :: ds))
      with ((len_dataset online e + s)
              :: cumsum_from online (s + len_dataset online e) (e' :: ds)).
    change (last (?x :: cumsum_from online ?t (e' :: ds)) 0)
      with (last (cumsum_from online t (e' :: ds)) 0).
    rewrite IH by discriminate. simpl. lia.
Qed.

Lemma total_len_offline (online : online_dataset) (ds : list dataset_ref) :
  fixed_lengths_ok ds -> In TheOnlineDataset ds ->
  num_rows (od_hf_dataset online) <= total_len online ds.
Proof.
  unfold total_len, fixed_lengths_ok. intros Hf Hin.
  assert (Hn : 0 <= num_rows (od_hf_dataset online)) by (unfold num_rows, len; lia).
  assert (H0 : 0 <= sum_Z (map (len_dataset online) ds)).
  { clear Hin. induction Hf as [ | [n | ] ds Hr _ IH]; simpl; lia. }
  induction Hf as [ | r ds Hr Hds IH]; [contradiction | ].
  simpl. destruct Hin as [-> | Hin].
  - simpl.
    assert (0 <= sum_Z (map (len_dataset online) ds)).
    { clear - Hds Hn. induction Hds as [ | [n | ] ds Hr _ IH]; simpl; lia. }
    lia.
  - assert (0 <= sum_Z (map (len_dataset online) ds)).
    { clear - Hds Hn. induction Hds as [ | [n | ] ds Hr' _ IH']; simpl; lia. }
    destruct r as [n | ]; simpl in *; [ | lia].
    specialize (IH Hin). lia.
Qed.

(** What a completed call of [update_sampling] has written. *)
Lemma update_sampling_inv (st st' : merge_state) (pc : Q) :
  update_sampling st pc = (st', Ok tt) ->
  st_online st' = st_online st
  /\ datasets (st_concat st') = datasets (st_concat st)
  /\ cumulative_sizes (st_concat st') = cumsum (st_online st) (datasets (st_concat st))
  /\ datasets (st_concat st) <> []
  /\ num_samples (st_sampler st') = total_len (st_online st) (datasets (st_concat st))
  /\ exists w,
       calculate_online_sample_weight
         (total_len (st_online st) (datasets (st_concat st))
          - num_rows (od_hf_dataset (st_online st)))
         (num_rows (od_hf_dataset (st_online st))) pc = Ok w
       /\ weights (st_sampler st')
          = list_times 1%Q (total_len (st_online st) (datasets (st_concat st))
                            - num_rows (od_hf_dataset (st_online st)))
            ++ list_times w (num_rows (od_hf_dataset (st_online st))).
Proof.
  unfold update_sampling, len_concat. cbn [cumulative_sizes]. intros H.
  destruct (datasets (st_concat st)) as [ | e ds] eqn:Eds.
  { unfold cumsum in H. simpl in H. try rewrite getitem_empty in H.
    injection H as _ H. discriminate H. }
  assert (Hlast : getitem (cumsum (st_online st) (e :: ds)) (-1)
                  = Ok (total_len (st_online st) (e :: ds))).
  { assert (Hne : cumsum (st_online st) (e :: ds) <> []).
    { intros E. apply (f_equal (@length Z)) in E. unfold cumsum in E.
      rewrite cumsum_from_length in E. discriminate E. }
    rewrite (getitem_minus_one 0 Hne). unfold cumsum.
    rewrite cumsum_from_last by discriminate. reflexivity. }
  rewrite Hlast in H.
  destruct (calculate_online_sample_weight _ _ pc) as [w | err] eqn:Ew;
    [ | injection H as _ H; discriminate H].
  injection H as <-.
  cbn [st_online st_concat st_sampler datasets cumulative_sizes weights num_samples].
  repeat split; try discriminate.
  exists w. split; reflexivity.
Qed.

(** A completed merge ends in [update_sampling] on the state that holds
    the grown online dataset. *)
Lemma add_episodes_ok_inv (st st' : merge_state) (hf : hf_dataset)
    (edi edi' : episode_data_index) (pc : Q) :
  add_episodes_inplace st hf edi pc = (st', edi', Ok tt) ->
  exists st1,
    update_sampling st1 pc = (st', Ok tt)
    /\ st_concat st1 = st_concat st.
Proof.
  unfold add_episodes_inplace. intros H.
  destruct (check_incoming hf edi) as [[le li] | e]; [ | discriminate H].
  destruct (num_rows (od_hf_dataset (st_online st)) =? 0).
  - match type of H with
    | context [update_sampling ?s pc] =>
        exists s; destruct (update_sampling s pc) as [st2 r] eqn:Eu
    end.
    injection H as <- _ ->. split; [reflexivity | reflexivity].
  - destruct (concatenate_datasets _ _) as [merged | e]; [ | discriminate H].
    match type of H with
    | context [update_sampling ?s pc] =>
        exists s; destruct (update_sampling s pc) as [st2 r] eqn:Eu
    end.
    injection H as <- _ ->. split; reflexivity.
Qed.

(** After a merge that returns, the combined dataset and the sampler agree
    with the grown online dataset: the cumulative sizes are recomputed from
    it, the sample count is the combined length, and there is one weight
    per combined sample, 1 for each sample outside the online dataset and
    one shared weight for each online sample. *)
Theorem merge_rebuilds_sampler (st st' : merge_state) (hf : hf_dataset)
    (edi edi' : episode_data_index) (pc : Q) :
  add_episodes_inplace st hf edi pc = (st', edi', Ok tt) ->
  fixed_lengths_ok (datasets (st_concat st)) ->
  In TheOnlineDataset (datasets (st_concat st)) ->
  let n_on := num_rows (od_hf_dataset (st_online st')) in
  let n_all := total_len (st_online st') (datasets (st_concat st)) in
  datasets (st_concat st') = datasets (st_concat st)
  /\ cumulative_sizes (st_concat st')
     = cumsum (st_online st') (datasets (st_concat st))
  /\ len_concat (st_concat st') = Ok n_all
  /\ num_samples (st_sampler st') = n_all
  /\ len (weights (st_sampler st')) = n_all
  /\ exists w,
       weights (st_sampler st') = list_times 1%Q (n_all - n_on) ++ list_times w n_on.
Proof.
  intros H Hf Hin. cbv zeta.
  destruct (add_episodes_ok_inv _ _ _ _ H) as (st1 & Hu & Hc).
  destruct (update_sampling_inv _ _ Hu) as (Ho & Hd & Hcs & Hne & Hns & w & Hw & Hws).
  rewrite Hc in *. rewrite Ho.
  pose proof (@total_len_offline (st_online st1) _ Hf Hin) as Hle.
  assert (Hn : 0 <= num_rows (od_hf_dataset (st_online st1)))
    by (unfold num_rows, len; lia).
  split; [exact Hd | ]. split; [exact Hcs | ]. split.
  { unfold len_concat. rewrite Hcs.
    assert (Hne' : cumsum (st_online st1) (datasets (st_concat st)) <> []).
    { intros E. apply (f_equal (@length Z)) in E. unfold cumsum in E.
      rewrite cumsum_from_length in E.
      destruct (datasets (st_concat st)); [contradiction | discriminate E]. }
    rewrite (getitem_minus_one 0 Hne'). unfold cumsum.
    rewrite cumsum_from_last by assumption. reflexivity. }
  split; [exact Hns | ]. split.
  - rewrite Hws, len_app, !list_times_len by lia. lia.
  - exists w. exact Hws.
Qed.

End SamplerAfterMerge.

Section SamplerWitness.

Lemma merge_rebuilds_sampler_witness :
  add_episodes_inplace fresh_state (batch_of_lengths [3; 2]) (index_of_lengths [3; 2]) (1 # 2)
  = (state_after_first_merge, index_of_lengths [3; 2], Ok tt)
  /\ fixed_lengths_ok (datasets (st_concat fresh_state))
  /\ In TheOnlineDataset (datasets (st_concat fresh_state))
  /\ datasets (st_concat state_after_first_merge) = datasets (st_concat fresh_state)
  /\ cumulative_sizes (st_concat state_after_first_merge)
     = cumsum (st_online state_after_first_merge) (datasets (st_concat fresh_state))
  /\ len_concat (st_concat state_after_first_merge)
     = Ok (total_len (st_online state_after_first_merge) (datasets (st_concat fresh_state)))
  /\ num_samples (st_sampler state_after_first_merge)
     = total_len (st_online state_after_first_merge) (datasets (st_concat fresh_state))
  /\ len (weights (st_sampler state_after_first_merge))
     = total_len (st_online state_after_first_merge) (datasets (st_concat fresh_state))
  /\ exists w,
       weights (st_sampler state_after_first_merge)
       = list_times 1%Q
           (total_len (st_online state_after_first_merge) (datasets (st_concat fresh_state))
            - num_rows (od_hf_dataset (st_online state_after_first_merge)))
         ++ list_times w (num_rows (od_hf_dataset (st_online state_after_first_merge))).
Proof.
  assert (H1 : add_episodes_inplace fresh_state (batch_of_lengths [3; 2])
                 (index_of_lengths [3; 2]) (1 # 2)
               = (state_after_first_merge, index_of_lengths [3; 2], Ok tt))
    by (vm_compute; reflexivity).
  assert (H2 : fixed_lengths_ok (datasets (st_concat fresh_state))).
  { unfold fixed_lengths_ok; simpl. constructor; [lia | ]. constructor; [exact I | constructor]. }
  assert (H3 : In TheOnlineDataset (datasets (st_concat fresh_state)))
    by (simpl; tauto).
  split; [exact H1 | ]. split; [exact H2 | ]. split; [exact H3 | ].
  exact (@merge_rebuilds_sampler fresh_state state_after_first_merge _ _ _ _ H1 H2 H3).
Defined.

End SamplerWitness.

Section TargetFraction.

Lemma fold_Qplus_shift (l : list Q) (a : Q) :
  (fold_left Qplus l a == a + sum_Q l)%Q.
Proof.
  unfold sum_Q. revert a. induction l as [ | x l IH]; intros a; simpl.
  - ring.
  - rewrite (IH (a + x)%Q), (IH (0 + x)%Q). ring.
Qed.

Lemma sum_Q_app (a b : list Q) : (sum_Q (a ++ b) == sum_Q a + sum_Q b)%Q.
Proof.
  unfold sum_Q at 1. rewrite fold_left_app, fold_Qplus_shift. reflexivity.
Qed.

Lemma sum_Q_repeat (x : Q) (k : nat) :
  (sum_Q (repeat x k) == inject_Z (Z.of_nat k) * x)%Q.
Proof.
  induction k as [ | k IH].
  - change (inject_Z (Z.of_nat 0)) with 0%Q. unfold sum_Q; simpl. ring.
  - change (repeat x (S k)) with ([x] ++ repeat x k).
    rewrite sum_Q_app, IH. unfold sum_Q at 1. cbn [fold_left].
    rewrite Nat2Z.inj_succ. unfold Z.succ. rewrite inject_Z_plus. ring.
Qed.

Lemma sum_Q_list_times (x : Q) (n : Z) :
  0 <= n -> (sum_Q (list_times x n) == inject_Z n * x)%Q.
Proof.
  intros Hn. unfold list_times. rewrite sum_Q_repeat, Z2Nat.id by assumption.
  reflexivity.
Qed.

(** The weights written by a merge that returns hit the target: when the
    combined dataset has samples outside the online dataset, the weights of
    the online samples (the last [n_on] of the list) add up to the fraction
    [pc_online_samples] of the sum of all weights. *)
Theorem merge_hits_target_fraction (st st' : merge_state) (hf : hf_dataset)
    (edi edi' : episode_data_index) (pc : Q) :
  add_episodes_inplace st hf edi pc = (st', edi', Ok tt) ->
  fixed_lengths_ok (datasets (st_concat st)) ->
  In TheOnlineDataset (datasets (st_concat st)) ->
  num_rows (od_hf_dataset (st_online st'))
  < total_len (st_online st') (datasets (st_concat st)) ->
  let n_on := num_rows (od_hf_dataset (st_online st')) in
  let n_all := total_len (st_online st') (datasets (st_concat st)) in
  let ws := weights (st_sampler st') in
  let online_ws := skipn (Z.to_nat (n_all - n_on)) ws in
  len online_ws = n_on
  /\ (0 < sum_Q ws)%Q
  /\ (sum_Q online_ws / sum_Q ws == pc)%Q.
Proof.
  intros H Hf Hin Hoff. cbv zeta.
  destruct (add_episodes_ok_inv _ _ _ _ H) as (st1 & Hu & Hc).
  destruct (update_sampling_inv _ _ Hu) as (Ho & _ & _ & _ & _ & w & Hw & Hws).
  rewrite Hc in *. rewrite Ho in *.
  set (n_on := num_rows (od_hf_dataset (st_online st1))) in *.
  set (n_off := total_len (st_online st1) (datasets (st_concat st)) - n_on) in *.
  assert (Hoff' : 0 < n_off) by (subst n_off; lia).
  destruct (weight_ok_inv _ _ _ Hw) as (H0 & H1 & Hnz & ->).
  assert (Hon : 0 < n_on) by (subst n_on; unfold num_rows, len in *; lia).
  pose proof (inject_Z_pos Hon) as Hn. pose proof (inject_Z_pos Hoff') as Hm.
  rewrite Hws.
  assert (Hskip : skipn (Z.to_nat n_off)
                    (list_times 1%Q n_off
                     ++ list_times (- (inject_Z n_off * pc) / (inject_Z n_on * (pc - 1)))%Q n_on)
                  = list_times (- (inject_Z n_off * pc) / (inject_Z n_on * (pc - 1)))%Q n_on).
  { rewrite skipn_app.
    replace (Z.to_nat n_off - length (list_times 1%Q n_off))%nat with O
      by (unfold list_times; rewrite repeat_length; lia).
    rewrite skipn_all2 by (unfold list_times; rewrite repeat_length; lia).
    reflexivity. }
  rewrite Hskip.
  assert (Hsum : (sum_Q (list_times 1%Q n_off
                         ++ list_times (- (inject_Z n_off * pc) / (inject_Z n_on * (pc - 1)))%Q n_on)
                  == inject_Z n_off / (1 - pc))%Q).
  { rewrite sum_Q_app, !sum_Q_list_times by lia. field. split; lra. }
  split; [apply list_times_len; lia | ]. split.
  - rewrite Hsum. apply Qlt_shift_div_l; lra.
  - rewrite Hsum, sum_Q_list_times by lia. field. repeat split; lra.
Qed.

Lemma merge_hits_target_fraction_witness :
  add_episodes_inplace fresh_state (batch_of_lengths [3; 2]) (index_of_lengths [3; 2]) (1 # 2)
  = (state_after_first_merge, index_of_lengths [3; 2], Ok tt)
  /\ fixed_lengths_ok (datasets (st_concat fresh_state))
  /\ In TheOnlineDataset (datasets (st_concat fresh_state))
  /\ num_rows (od_hf_dataset (st_online state_after_first_merge))
     < total_len (st_online state_after_first_merge) (datasets (st_concat fresh_state))
  /\ len (skipn (Z.to_nat
                   (total_len (st_online state_after_first_merge)
                      (datasets (st_concat fresh_state))
                    - num_rows (od_hf_dataset (st_online state_after_first_merge))))
            (weights (st_sampler state_after_first_merge)))
     = num_rows (od_hf_dataset (st_online state_after_first_merge))
  /\ (0 < sum_Q (weights (st_sampler state_after_first_merge)))%Q
  /\ (sum_Q (skipn (Z.to_nat
                      (total_len (st_online state_after_first_merge)
                         (datasets (st_concat fresh_state))
                       - num_rows (od_hf_dataset (st_online state_after_first_merge))))
               (weights (st_sampler state_after_first_merge)))
      / sum_Q (weights (st_sampler state_after_first_merge)) == 1 # 2)%Q.
Proof.
  assert (H1 : add_episodes_inplace fresh_state (batch_of_lengths [3; 2])
                 (index_of_lengths [3; 2]) (1 # 2)
               = (state_after_first_merge, index_of_lengths [3; 2], Ok tt))
    by (vm_compute; reflexivity).
  assert (H2 : fixed_lengths_ok (datasets (st_concat fresh_state))).
  { unfold fixed_lengths_ok; simpl. constructor; [lia | ]. constructor; [exact I | constructor]. }
  assert (H3 : In TheOnlineDataset (datasets (st_concat fresh_state)))
    by (simpl; tauto).
  assert (H4 : num_rows (od_hf_dataset (st_online state_after_first_merge))
               < total_len (st_online state_after_first_merge)
                   (datasets (st_concat fresh_state)))
    by (vm_compute; reflexivity).
  split; [exact H1 | ]. split; [exact H2 | ]. split; [exact H3 | ]. split; [exact H4 | ].
  exact (@merge_hits_target_fraction fresh_state state_after_first_merge _ _ _ _
           H1 H2 H3 H4).
Defined.

End TargetFraction.

Section OnlineDatasetGrowth.

Lemma len_zero_nil {A : Type} (l : list A) : len l = 0 -> l = [].
Proof. destruct l; [reflexivity | unfold len; simpl; lia]. Qed.

(** The online dataset never loses a row: whatever the outcome of a merge,
    the global indices stored before the call are a prefix of those stored
    after it.  When the call returns, exactly the incoming rows have been
    added; when the sanity checks (or the first look-ups) raise, nothing
    has. *)
Theorem merge_never_drops_rows
    (st : merge_state) (hf : hf_dataset) (edi : episode_data_index) (pc : Q) :
  exists tail,
    col_index (od_hf_dataset (st_online (fst (fst (add_episodes_inplace st hf edi pc)))))
    = col_index (od_hf_dataset (st_online st)) ++ tail
    /\ (snd (add_episodes_inplace st hf edi pc) = Ok tt -> len tail = num_rows hf)
    /\ (forall e, check_incoming hf edi = Raise e -> tail = []).
Proof.
  unfold add_episodes_inplace.
  destruct (check_incoming hf edi) as [[le li] | e] eqn:Ec.
  - destruct (Z.eqb_spec (num_rows (od_hf_dataset (st_online st))) 0) as [E | E].
    + match goal with
      | |- context [update_sampling ?s pc] =>
          pose proof (update_sampling_keeps_online s pc) as Hk;
          destruct (update_sampling s pc) as [st2 r]
      end.
      cbn [fst snd] in *. rewrite Hk. cbn [st_online od_hf_dataset].
      exists (col_index hf). rewrite (len_zero_nil _ E).
      split; [reflexivity | ]. split; [reflexivity | discriminate].
    + destruct (concatenate_datasets _ _) as [merged | e] eqn:Em.
      * match goal with
        | |- context [update_sampling ?s pc] =>
            pose proof (update_sampling_keeps_online s pc) as Hk;
            destruct (update_sampling s pc) as [st2 r]
        end.
        cbn [fst snd] in *. rewrite Hk. cbn [st_online od_hf_dataset].
        destruct (concatenate_datasets_inv _ _ Em) as [-> _].
        cbn [col_index shift_indices].
        eexists. split; [reflexivity | ].
        split; [intros _; unfold num_rows; now rewrite len_map | discriminate].
      * cbn [fst snd]. exists []. rewrite app_nil_r.
        split; [reflexivity | ]. split; [discriminate | reflexivity].
  - cbn [fst snd]. exists []. rewrite app_nil_r.
    split; [reflexivity | ]. split; [discriminate | reflexivity].
Qed.

Lemma range_last (lo hi : Z) : lo < hi -> last (range lo hi) 0 = hi - 1.
Proof.
  intros H. rewrite <- (@range_app lo (hi - 1) hi) by lia.
  unfold range at 2. replace (Z.to_nat (hi - (hi - 1))) with 1%nat by lia.
  simpl. rewrite last_last. lia.
Qed.


Lemma range_head (lo hi : Z) : lo < hi -> hd 0 (range lo hi) = lo.
Proof.
  intros H. unfold range.
  destruct (Z.to_nat (hi - lo)) as [ | k] eqn:E; [lia | ]. simpl. lia.
Qed.



End OnlineDatasetGrowth.

Section MaskedMetrics.

Lemma sum_Q_cons (x : Q) (l : list Q) : (sum_Q (x :: l) == x + sum_Q l)%Q.
Proof. change (x :: l) with ([x] ++ l). rewrite sum_Q_app. unfold sum_Q at 1; simpl. ring. Qed.

(** A reward row times its mask row, from step [a] on with bound [x]. *)
Lemma masked_row_from (x : Z) (r : list Q) :
  forall a : nat,
    Forall2 Qeq
      (map (fun q => (fst q * inject_Z (snd q))%Q)
           (combine r (map (fun s => int_of_bool (Z.of_nat s <=? x)) (seq a (length r)))))
      (firstn (Z.to_nat (x + 1 - Z.of_nat a)) r
       ++ repeat 0%Q (length r - Z.to_nat (x + 1 - Z.of_nat a))).
Proof.
  induction r as [ | h t IH]; intros a.
  - simpl. rewrite firstn_nil. constructor.
  - cbn [length seq map combine fst snd].
    destruct (Z.of_nat a <=? x) eqn:E.
    + apply Z.leb_le in E.
      replace (Z.to_nat (x + 1 - Z.of_nat a))
        with (S (Z.to_nat (x + 1 - Z.of_nat (S a)))) by lia.
      cbn [firstn app Nat.sub]. constructor.
      * simpl. ring.
      * apply IH.
    + apply Z.leb_gt in E.
      replace (Z.to_nat (x + 1 - Z.of_nat a)) with O by lia.
      cbn [firstn app Nat.sub repeat]. constructor.
      * simpl. ring.
      * specialize (IH (S a)).
        replace (Z.to_nat (x + 1 - Z.of_nat (S a))) with O in IH by lia.
        rewrite Nat.sub_0_r in IH. exact IH.
Qed.

Lemma sum_Q_Forall2 (l l' : list Q) : Forall2 Qeq l l' -> (sum_Q l == sum_Q l')%Q.
Proof.
  induction 1 as [ | x y l l' Hxy _ IH]; [reflexivity | ].
  now rewrite !sum_Q_cons, Hxy, IH.
Qed.

Lemma fold_Qmax_Forall2 (l l' : list Q) :
  Forall2 Qeq l l' ->
  forall a a', (a == a')%Q -> (fold_left Qmax l a == fold_left Qmax l' a')%Q.
Proof.
  induction 1 as [ | x y l l' Hxy _ IH]; intros a a' Ha; simpl; [exact Ha | ].
  apply IH. now rewrite Ha, Hxy.
Qed.

Lemma max_Q_Forall2 (l l' : list Q) : Forall2 Qeq l l' -> (max_Q l == max_Q l')%Q.
Proof.
  destruct 1 as [ | x y l l' Hxy Hl]; [reflexivity | ].
  simpl. now apply fold_Qmax_Forall2.
Qed.

Lemma fold_Qmax_zeros (k : nat) (m : Q) :
  (fold_left Qmax (repeat 0%Q (S k)) m == Qmax m 0)%Q.
Proof.
  revert m. induction k as [ | k IH]; intros m; [reflexivity | ].
  change (repeat 0%Q (S (S k))) with (0%Q :: repeat 0%Q (S k)).
  cbn [fold_left]. rewrite IH.
  rewrite <- Q.max_assoc, Q.max_id. reflexivity.
Qed.

Lemma max_Q_zeros_after (kept : list Q) (k : nat) :
  kept <> [] -> (max_Q (kept ++ repeat 0%Q (S k)) == Qmax (max_Q kept) 0)%Q.
Proof.
  destruct kept as [ | a kept]; [contradiction | ]. intros _.
  unfold max_Q. cbn [app]. rewrite fold_left_app. apply fold_Qmax_zeros.
Qed.

Lemma sum_Q_zeros (k : nat) : (sum_Q (repeat 0%Q k) == 0)%Q.
Proof. rewrite sum_Q_repeat. ring. Qed.

Lemma masked_success_from (x : Z) (r : list bool) :
  forall a : nat,
    existsb (fun q => negb (int_of_bool (fst q) * snd q =? 0))
            (combine r (map (fun s => int_of_bool (Z.of_nat s <=? x)) (seq a (length r))))
    = existsb (fun b => b) (firstn (Z.to_nat (x + 1 - Z.of_nat a)) r).
Proof.
  induction r as [ | h t IH]; intros a.
  - simpl. now rewrite firstn_nil.
  - cbn [length seq map combine existsb fst snd].
    destruct (Z.of_nat a <=? x) eqn:E.
    + apply Z.leb_le in E.
      replace (Z.to_nat (x + 1 - Z.of_nat a))
        with (S (Z.to_nat (x + 1 - Z.of_nat (S a)))) by lia.
      cbn [firstn existsb]. rewrite IH. now destruct h.
    + apply Z.leb_gt in E.
      replace (Z.to_nat (x + 1 - Z.of_nat a)) with O by lia.
      rewrite IH. replace (Z.to_nat (x + 1 - Z.of_nat (S a))) with O by lia.
      cbn [firstn existsb]. now destruct h.
Qed.

Lemma nth_error_combine {A B : Type} (l : list A) (l' : list B) (i : nat) (a : A) (b : B) :
  nth_error l i = Some a -> nth_error l' i = Some b ->
  nth_error (combine l l') i = Some (a, b).
Proof.
  revert l l'. induction i as [ | i IH]; intros [ | x l] [ | y l'] Ha Hb;
    try discriminate; simpl in *.
  - now injection Ha as ->; injection Hb as ->.
  - now apply IH.
Qed.

(** The metrics [eval_policy] takes from a rollout cover the steps up to
    and including the one after the done step: for environment [i] with
    done index [d], the sum of rewards is the sum over the first [d + 2]
    steps (all steps, when the rollout has fewer), the success flag is the
    disjunction over these steps, and the maximum is taken over these steps
    together with a 0 for the masked steps whenever there is one. *)
Theorem masked_metrics_cover_step_after_done
    (rd : rollout_data) (done_indices : list Z) (mask : tensor2 Z)
    (i : nat) (d : Z) (r : list Q) (s : list bool) :
  resolve_boundaries (rd_done rd) = Ok (done_indices, mask) ->
  nth_error done_indices i = Some d ->
  nth_error (rows (rd_reward rd)) i = Some r ->
  nth_error (rows (rd_success rd)) i = Some s ->
  length r = n_cols (rd_done rd) -> length s = n_cols (rd_done rd) ->
  let kept := firstn (Z.to_nat (d + 2)) r in
  exists v_sum v_max,
    nth_error (reduce_sum (mul_mask (rows (rd_reward rd)) (rows mask))) i = Some v_sum
    /\ (v_sum == sum_Q kept)%Q
    /\ nth_error (reduce_max (mul_mask (rows (rd_reward rd)) (rows mask))) i = Some v_max
    /\ (Z.of_nat (length r) <= d + 2 -> (v_max == max_Q kept)%Q)
    /\ (d + 2 < Z.of_nat (length r) -> (v_max == Qmax (max_Q kept) 0)%Q)
    /\ nth_error (reduce_any (rows (rd_success rd)) (rows mask)) i
       = Some (existsb (fun b => b) (firstn (Z.to_nat (d + 2)) s)).
Proof.
  intros Hres Hd Hr Hs Hlr Hls. cbv zeta.
  unfold resolve_boundaries in Hres.
  destruct (done_indices_of (rd_done rd)) as [dis | e] eqn:Edis; [ | discriminate Hres].
  cbn [bind] in Hres. injection Hres as <- <-.
  assert (Hd0 : 0 <= d).
  { unfold done_indices_of, argmax_axis1 in Edis.
    destruct (Nat.eqb _ 0); [discriminate Edis | ]. injection Edis as <-.
    rewrite nth_error_map in Hd.
    destruct (nth_error _ i); [ | discriminate Hd]. injection Hd as <-. lia. }
  rewrite validity_mask_rows.
  assert (Hm : nth_error (map (fun d0 => mask_row (n_cols (rd_done rd)) (d0 + 1)) dis) i
               = Some (mask_row (n_cols (rd_done rd)) (d + 1)))
    by (rewrite nth_error_map, Hd; reflexivity).
  pose proof (masked_row_from (d + 1) r 0) as Hrow.
  rewrite Hlr in Hrow at 1. fold (mask_row (n_cols (rd_done rd)) (d + 1)) in Hrow.
  replace (d + 1 + 1 - Z.of_nat 0) with (d + 2) in Hrow by lia.
  unfold reduce_sum, reduce_max, reduce_any, mul_mask.
  rewrite !nth_error_map, (nth_error_combine _ _ _ Hr Hm),
    (nth_error_combine _ _ _ Hs Hm).
  cbn [option_map fst snd].
  eexists. eexists. split; [reflexivity | ]. split.
  { rewrite (sum_Q_Forall2 Hrow), sum_Q_app, sum_Q_zeros. ring. }
  split; [reflexivity | ].
  fold (max_Q (map (fun q : Q * Z => (fst q * inject_Z (snd q))%Q)
                   (combine r (mask_row (n_cols (rd_done rd)) (d + 1))))).
  split; [ | split].
  - intros Hall. rewrite (max_Q_Forall2 Hrow).
    replace (length r - Z.to_nat (d + 2))%nat with O by lia.
    cbn [repeat]. now rewrite app_nil_r.
  - intros Hless. rewrite (max_Q_Forall2 Hrow).
    destruct (length r - Z.to_nat (d + 2))%nat as [ | k] eqn:Ek; [lia | ].
    apply max_Q_zeros_after.
    destruct r as [ | h t]; [simpl in Hless; lia | ].
    replace (Z.to_nat (d + 2)) with (S (Z.to_nat (d + 1))) by lia. discriminate.
  - f_equal. unfold mask_row. rewrite <- Hls.
    rewrite (masked_success_from (d + 1) s 0). f_equal. f_equal. lia.
Qed.

End MaskedMetrics.

Section MaskedMetricsWitness.

Lemma masked_metrics_cover_step_after_done_witness :
  resolve_boundaries (rd_done rollout_2x5) = Ok ([2; 4], validity_mask 5 [2; 4])
  /\ nth_error [2; 4] 0 = Some 2
  /\ nth_error (rows (rd_reward rollout_2x5)) 0 = Some [0; 0; 1; 0; 0]%Q
  /\ nth_error (rows (rd_success rollout_2x5)) 0 = Some [false; false; true; false; false]
  /\ length [0; 0; 1; 0; 0]%Q = n_cols (rd_done rollout_2x5)
  /\ length [false; false; true; false; false] = n_cols (rd_done rollout_2x5)
  /\ exists v_sum v_max,
       nth_error (reduce_sum (mul_mask (rows (rd_reward rollout_2x5))
                                       (rows (validity_mask 5 [2; 4])))) 0 = Some v_sum
       /\ (v_sum == sum_Q (firstn (Z.to_nat (2 + 2)) [0; 0; 1; 0; 0]%Q))%Q
       /\ nth_error (reduce_max (mul_mask (rows (rd_reward rollout_2x5))
                                          (rows (validity_mask 5 [2; 4])))) 0 = Some v_max
       /\ (Z.of_nat (length [0; 0; 1; 0; 0]%Q) <= 2 + 2 ->
           (v_max == max_Q (firstn (Z.to_nat (2 + 2)) [0; 0; 1; 0; 0]%Q))%Q)
       /\ (2 + 2 < Z.of_nat (length [0; 0; 1; 0; 0]%Q) ->
           (v_max == Qmax (max_Q (firstn (Z.to_nat (2 + 2)) [0; 0; 1; 0; 0]%Q)) 0)%Q)
       /\ nth_error (reduce_any (rows (rd_success rollout_2x5))
                                (rows (validity_mask 5 [2; 4]))) 0
          = Some (existsb (fun b => b)
                    (firstn (Z.to_nat (2 + 2)) [false; false; true; false; false])).
Proof.
  assert (H1 : resolve_boundaries (rd_done rollout_2x5)
               = Ok ([2; 4], validity_mask 5 [2; 4])) by reflexivity.
  assert (H2 : nth_error [2; 4] 0 = Some 2) by reflexivity.
  assert (H3 : nth_error (rows (rd_reward rollout_2x5)) 0 = Some [0; 0; 1; 0; 0]%Q)
    by reflexivity.
  assert (H4 : nth_error (rows (rd_success rollout_2x5)) 0
               = Some [false; false; true; false; false]) by reflexivity.
  assert (H5 : length [0; 0; 1; 0; 0]%Q = n_cols (rd_done rollout_2x5)) by reflexivity.
  assert (H6 : length [false; false; true; false; false] = n_cols (rd_done rollout_2x5))
    by reflexivity.
  repeat (split; [assumption | ]).
  exact (@masked_metrics_cover_step_after_done rollout_2x5 _ _ 0 2 _ _
           H1 H2 H3 H4 H5 H6).
Defined.

End MaskedMetricsWitness.

Section CompilerEdges.

(** A rollout batch without batch elements is refused: the first loop does
    nothing, [ep_dicts[0]] raises [IndexError], and the batch is as it
    was. *)
Theorem compile_empty_batch_raises
    (rd : rollout_data) (done_indices : list Z)
    (start_episode_index start_data_index : Z) (fps : Q) :
  rows (rd_action rd) = [] ->
  _compile_episode_data rd done_indices start_episode_index start_data_index fps
  = (rd, Raise IndexError).
Proof.
  intros H. unfold _compile_episode_data. rewrite H. reflexivity.
Qed.

Lemma compile_empty_batch_raises_witness :
  rows (rd_action (RolloutData (Tensor2 5 []) (Tensor2 5 []) (Tensor2 5 [])
                               (Tensor2 5 []) (Some []))) = []
  /\ _compile_episode_data
       (RolloutData (Tensor2 5 []) (Tensor2 5 []) (Tensor2 5 []) (Tensor2 5 []) (Some []))
       [] 0 0 10
     = (RolloutData (Tensor2 5 []) (Tensor2 5 []) (Tensor2 5 []) (Tensor2 5 []) (Some []),
        Raise IndexError).
Proof.
  split; [reflexivity | ].
  apply (@compile_empty_batch_raises
           (RolloutData (Tensor2 5 []) (Tensor2 5 []) (Tensor2 5 []) (Tensor2 5 []) (Some []))
           [] 0 0 10).
  reflexivity.
Defined.

(** A rollout that kept no observations is refused with [KeyError] in the
    first pass of the first loop, once the other look-ups of that pass have
    succeeded; the batch is as it was. *)
Theorem compile_without_observations_raises
    (rd : rollout_data) (done_indices : list Z)
    (start_episode_index start_data_index : Z) (fps : Q) (d0 : Z) :
  rd_observation rd = None ->
  rows (rd_action rd) <> [] -> rows (rd_done rd) <> [] -> rows (rd_reward rd) <> [] ->
  nth_error done_indices 0 = Some d0 -> -1 <= d0 ->
  _compile_episode_data rd done_indices start_episode_index start_data_index fps
  = (rd, Raise KeyError).
Proof.
  intros Hobs Ha Hd Hr Hd0 Hge.
  unfold _compile_episode_data.
  assert (Hrange : exists rest, range 0 (len (rows (rd_action rd))) = 0 :: rest).
  { destruct (rows (rd_action rd)) as [ | a l]; [contradiction | ].
    unfold range, len. simpl length.
    replace (Z.to_nat (Z.of_nat (S (length l)) - 0)) with (S (length l)) by lia.
    simpl. eexists. reflexivity. }
  destruct Hrange as [rest ->]. cbn [compile_episodes].
  unfold compile_episode.
  assert (Hdi : done_indices <> []) by (destruct done_indices; [discriminate | discriminate]).
  rewrite (getitem_first 0 Hdi).
  assert (Hhd : hd 0 done_indices = d0).
  { destruct done_indices; [discriminate | ]. simpl in *. congruence. }
  rewrite Hhd. cbn [bind].
  rewrite (getitem_first [] Ha). cbn [bind].
  rewrite arange_ok by lia. cbn [bind].
  rewrite (getitem_first [] Hd), (getitem_first [] Hr). cbn [bind].
  unfold observation_views. rewrite Hobs. reflexivity.
Qed.

Lemma compile_without_observations_raises_witness :
  rd_observation (RolloutData (rd_action rollout_2x5) (rd_reward rollout_2x5)
                              (rd_success rollout_2x5) (rd_done rollout_2x5) None) = None
  /\ rows (rd_action rollout_2x5) <> [] /\ rows (rd_done rollout_2x5) <> []
  /\ rows (rd_reward rollout_2x5) <> []
  /\ nth_error [2; 4] 0 = Some 2 /\ -1 <= 2
  /\ _compile_episode_data
       (RolloutData (rd_action rollout_2x5) (rd_reward rollout_2x5)
                    (rd_success rollout_2x5) (rd_done rollout_2x5) None)
       [2; 4] 0 0 10
     = (RolloutData (rd_action rollout_2x5) (rd_reward rollout_2x5)
                    (rd_success rollout_2x5) (rd_done rollout_2x5) None,
        Raise KeyError).
Proof.
  assert (H1 : rd_observation (RolloutData (rd_action rollout_2x5) (rd_reward rollout_2x5)
                                 (rd_success rollout_2x5) (rd_done rollout_2x5) None) = None)
    by reflexivity.
  assert (H2 : rows (rd_action rollout_2x5) <> []) by discriminate.
  assert (H3 : rows (rd_done rollout_2x5) <> []) by discriminate.
  assert (H4 : rows (rd_reward rollout_2x5) <> []) by discriminate.
  assert (H5 : nth_error [2; 4] 0 = Some 2) by reflexivity.
  assert (H6 : -1 <= 2) by lia.
  repeat (split; [assumption | ]).
  exact (@compile_without_observations_raises
           (RolloutData (rd_action rollout_2x5) (rd_reward rollout_2x5)
                        (rd_success rollout_2x5) (rd_done rollout_2x5) None)
           [2; 4] 0 0 10 2 H1 H2 H3 H4 H5 H6).
Defined.

End CompilerEdges.

Section ImageValidation.

Lemma fold_Qmax_ge_init (l : list Q) : forall a, (a <= fold_left Qmax l a)%Q.
Proof.
  induction l as [ | x l IH]; intros a; simpl; [apply Qle_refl | ].
  eapply Qle_trans; [apply Q.le_max_l | apply IH].
Qed.

Lemma fold_Qmax_ge_all (l : list Q) :
  forall a, Forall (fun x => (x <= fold_left Qmax l a)%Q) l.
Proof.
  induction l as [ | x l IH]; intros a; simpl; constructor.
  - eapply Qle_trans; [apply Q.le_max_r | apply fold_Qmax_ge_init].
  - apply IH.
Qed.

Lemma fold_Qmin_le_init (l : list Q) : forall a, (fold_left Qmin l a <= a)%Q.
Proof.
  induction l as [ | x l IH]; intros a; simpl; [apply Qle_refl | ].
  eapply Qle_trans; [apply IH | apply Q.le_min_l].
Qed.

Lemma fold_Qmin_le_all (l : list Q) :
  forall a, Forall (fun x => (fold_left Qmin l a <= x)%Q) l.
Proof.
  induction l as [ | x l IH]; intros a; simpl; constructor.
  - eapply Qle_trans; [apply fold_Qmin_le_init | apply Q.le_min_r].
  - apply IH.
Qed.

Lemma dtype_eqb_eq (a b : dtype) : dtype_eqb a b = true <-> a = b.
Proof. destruct a, b; simpl; split; intros H; try reflexivity; discriminate H. Qed.

Lemma check_image_inv (img : tensor) (c h w : Z) :
  check_image img = Ok (c, h, w) ->
  t_shape img = [c; h; w] /\ c < h /\ c < w /\ t_dtype img = Float32
  /\ t_data img <> []
  /\ Forall (fun x => (0 <= x)%Q /\ (x <= 1)%Q) (t_data img).
Proof.
  unfold check_image. intros H.
  destruct (t_shape img) as [ | c' [ | h' [ | w' [ | ? ?]]]]; try discriminate H.
  cbn [unpack3 bind] in H.
  destruct ((c' <? h') && (c' <? w')) eqn:E1; [ | discriminate H].
  destruct (dtype_eqb (t_dtype img) Float32) eqn:E2; [ | discriminate H].
  cbn [assert_ bind] in H.
  destruct (t_data img) as [ | a data]; [discriminate H | ].
  cbn [tensor_max tensor_min bind] in H.
  destruct (Qle_bool (fold_left Qmax data a) 1) eqn:E3; [ | discriminate H].
  cbn [assert_ bind] in H.
  destruct (Qle_bool 0 (fold_left Qmin data a)) eqn:E4; [ | discriminate H].
  cbn [assert_ bind] in H. injection H as <- <- <-.
  apply andb_true_iff in E1. destruct E1 as [Eh Ew].
  apply Z.ltb_lt in Eh, Ew. apply dtype_eqb_eq in E2.
  apply Qle_bool_iff in E3, E4.
  repeat split; try assumption; try discriminate.
  constructor.
  - split; [eapply Qle_trans; [exact E4 | apply fold_Qmin_le_init]
           | eapply Qle_trans; [apply fold_Qmax_ge_init | exact E3]].
  - pose proof (fold_Qmax_ge_all data a) as Hmx.
    pose proof (fold_Qmin_le_all data a) as Hmn.
    rewrite Forall_forall in *. intros x Hx. split.
    + eapply Qle_trans; [exact E4 | now apply Hmn].
    + eapply Qle_trans; [now apply Hmx | exact E3].
Qed.

(** The images the compiler accepts are exactly the three-dimensional
    float32 tensors with fewer channels than rows and than columns, at
    least one entry and every entry in [0, 1]; a tensor of that shape and
    type with an entry outside [0, 1] is refused with [AssertionError]. *)
Theorem check_image_accepts_iff (img : tensor) (c h w : Z) :
  (check_image img = Ok (c, h, w)
   <-> (t_shape img = [c; h; w] /\ c < h /\ c < w /\ t_dtype img = Float32
        /\ t_data img <> []
        /\ Forall (fun x => (0 <= x)%Q /\ (x <= 1)%Q) (t_data img)))
  /\ (t_shape img = [c; h; w] -> c < h -> c < w -> t_dtype img = Float32 ->
      Exists (fun x => (x < 0)%Q \/ (1 < x)%Q) (t_data img) ->
      check_image img = Raise AssertionError).
Proof.
  split.
  - split; [apply check_image_inv | ].
    intros (Hs & Hh & Hw & Hd & Hne & Hall).
    destruct img as [sh dt data]. cbn [t_shape t_dtype t_data] in *. subst sh dt.
    destruct data as [ | a data]; [contradiction | ].
    now apply check_image_ok.
  - intros Hs Hh Hw Hd Hex.
    destruct (check_image img) as [[[c' h'] w'] | e] eqn:Ec.
    + exfalso. destruct (check_image_inv _ Ec) as (_ & _ & _ & _ & _ & Hall).
      apply Exists_exists in Hex. destruct Hex as (x & Hx & Hout).
      rewrite Forall_forall in Hall. destruct (Hall x Hx) as [H0 H1].
      destruct Hout; lra.
    + unfold check_image in Ec. rewrite Hs, Hd in Ec.
      cbn [unpack3 bind dtype_eqb] in Ec.
      apply Z.ltb_lt in Hh, Hw. rewrite Hh, Hw in Ec. cbn [andb assert_ bind] in Ec.
      destruct (t_data img) as [ | a data]; [inversion Hex | ].
      cbn [tensor_max tensor_min bind] in Ec.
      destruct (Qle_bool (fold_left Qmax data a) 1);
        cbn [assert_ bind] in Ec; [ | congruence].
      destruct (Qle_bool 0 (fold_left Qmin data a));
        cbn [assert_ bind] in Ec; congruence.
Qed.

End ImageValidation.

Section RejectedImages.

Lemma convert_images_rejected (frames : list tensor) :
  Exists rejected_image frames -> exists e, snd (convert_images frames) = Raise e.
Proof.
  induction frames as [ | img rest IH]; intros H; [inversion H | ].
  simpl. unfold convert_image.
  destruct (check_image img) as [[[c h] w] | e] eqn:Ec.
  - destruct (fromarray h w c _) as [p | e]; [ | exists e; reflexivity].
    destruct (convert_images rest) as [rest' r] eqn:Er.
    inversion H as [? ? [e He] | ? ? Hrest]; subst; [congruence | ].
    destruct (IH Hrest) as [e He]. cbn [snd] in *. subst r.
    exists e. reflexivity.
  - exists e. reflexivity.
Qed.

Lemma convert_episodes_rejected (num_frames : list Z) :
  forall t : list (list tensor),
    Exists (fun p => Exists rejected_image (slice_to (fst p) (snd p)))
           (combine t num_frames) ->
    exists e, snd (convert_episodes num_frames t) = Raise e.
Proof.
  induction num_frames as [ | n ns IH]; intros [ | row t] H; try (now inversion H).
  cbn [convert_episodes]. cbn [combine] in H.
  destruct (convert_images (slice_to row n)) as [converted r] eqn:Ec.
  destruct r as [imgs | e]; [ | exists e; reflexivity].
  inversion H as [? ? Hrow | ? ? Hrest]; subst.
  - cbn [fst snd] in Hrow. destruct (convert_images_rejected Hrow) as [e He].
    rewrite Ec in He. discriminate He.
  - destruct (IH t Hrest) as [e He].
    destruct (convert_episodes ns t) as [t'' r']. cbn [snd] in *. subst r'.
    exists e. reflexivity.
Qed.

Lemma compile_observation_rejected (num_frames : list Z)
    (obs : list (String.string * list (list tensor))) :
  Exists (fun kt => is_image_key (fst kt) = true
                    /\ Exists (fun p => Exists rejected_image (slice_to (fst p) (snd p)))
                              (combine (snd kt) num_frames)) obs ->
  exists e, snd (compile_observation num_frames obs) = Raise e.
Proof.
  induction obs as [ | [key t] rest IH]; intros H; [inversion H | ].
  cbn [compile_observation].
  destruct (is_image_key key) eqn:Ek.
  - destruct (convert_episodes num_frames t) as [t' r] eqn:Ec.
    destruct r as [imgs | e]; [ | exists e; reflexivity].
    inversion H as [? ? [_ Hkey] | ? ? Hrest]; subst.
    + cbn [fst snd] in Hkey.
      destruct (convert_episodes_rejected _ _ Hkey) as [e He].
      rewrite Ec in He. discriminate He.
    + destruct (IH Hrest) as [e He].
      destruct (compile_observation num_frames rest) as [rest' r']. cbn [snd] in *.
      subst r'. exists e. reflexivity.
  - inversion H as [? ? [Hk _] | ? ? Hrest]; subst; [cbn [fst] in Hk; congruence | ].
    destruct (IH Hrest) as [e He].
    destruct (compile_observation num_frames rest) as [rest' r']. cbn [snd] in *.
    subst r'. exists e. reflexivity.
Qed.

Lemma shapes_ready (rd : rollout_data)
    (obs : list (String.string * list (list tensor)))
    (batch n_steps : nat) (done_indices : list Z) :
  rollout_shapes rd obs batch n_steps ->
  length done_indices = batch ->
  Forall (fun d => 0 <= d < Z.of_nat n_steps) done_indices ->
  Forall (episode_ready rd obs done_indices) (range 0 (Z.of_nat batch)).
Proof.
  intros (_ & [Ha _] & [Hr _] & [Hd _] & Hf) Hlen Hdi.
  apply Forall_forall. intros ix Hix. apply in_range in Hix.
  unfold episode_ready, len. rewrite Ha, Hr, Hd, Hlen.
  repeat split; try lia.
  - unfold num_frames_at.
    assert (Hin : In (nth (Z.to_nat ix) done_indices 0) done_indices)
      by (apply nth_In; lia).
    rewrite Forall_forall in Hdi. specialize (Hdi _ Hin). lia.
  - eapply Forall_impl; [ | exact Hf]. intros kt [Hk _]. simpl. rewrite Hk. lia.
Qed.

(** No dataset is made from a batch with a bad image: when one of the
    frames that go into an episode (the first [done_indices[i] + 1] frames
    of environment [i], under a key that contains "image") is rejected by
    the sanity checks, the call raises. *)
Theorem compile_refuses_rejected_image
    (rd : rollout_data) (obs : list (String.string * list (list tensor)))
    (batch n_steps : nat) (done_indices : list Z)
    (start_episode_index start_data_index : Z) (fps : Q) :
  rollout_shapes rd obs batch n_steps ->
  (0 < batch)%nat ->
  length done_indices = batch ->
  Forall (fun d => 0 <= d < Z.of_nat n_steps) done_indices ->
  Exists (fun kt => is_image_key (fst kt) = true
                    /\ Exists (fun p => Exists rejected_image (slice_to (fst p) (snd p + 1)))
                              (combine (snd kt) done_indices)) obs ->
  exists e,
    snd (_compile_episode_data rd done_indices start_episode_index start_data_index fps)
    = Raise e.
Proof.
  intros Hsh Hbatch Hlen Hdone Hbad.
  pose proof Hsh as (Hobs & [Ha _] & _).
  unfold _compile_episode_data.
  unfold len at 1. rewrite Ha.
  rewrite (compile_episodes_ok start_episode_index fps Hobs
             (shapes_ready Hsh Hlen Hdone)).
  cbn [ep_dicts acc_from acc_to total_frames data_index_from app].
  rewrite Hobs.
  destruct (map (ep_dict_at rd done_indices start_episode_index fps)
                (range 0 (Z.of_nat batch))) as [ | e0 erest] eqn:Eeps.
  { exfalso. apply (f_equal (@length _)) in Eeps.
    rewrite length_map, range_length in Eeps. simpl in Eeps. lia. }
  rewrite <- Eeps.
  replace (map ep_num_frames _) with (map (fun d => d + 1) done_indices).
  2:{ rewrite map_map. cbn [ep_dict_at ep_num_frames].
      assert (HL : Z.of_nat batch = len done_indices) by (unfold len; now rewrite Hlen).
      rewrite HL. symmetry. apply num_frames_over_range. }
  destruct (@compile_observation_rejected (map (fun d => d + 1) done_indices) obs)
    as [e He].
  { eapply Exists_impl; [ | exact Hbad]. intros kt [Hk Hex]. split; [exact Hk | ].
    clear - Hex. revert Hex. generalize (snd kt) as t. generalize done_indices as ds.
    induction ds as [ | d ds IH]; intros [ | row t] Hex; try (now inversion Hex).
    cbn [map combine] in *. inversion Hex as [? ? H | ? ? H]; subst.
    - left. exact H.
    - right. now apply IH. }
  destruct (compile_observation _ obs) as [obs' r]. cbn [snd] in *. subst r.
  exists e. reflexivity.
Qed.

End RejectedImages.

Section RejectedImagesWitness.

Lemma rollout_bad_2x5_shapes : rollout_shapes rollout_bad_2x5 observation_bad_2x6 2 5.
Proof.
  unfold rollout_shapes. split; [reflexivity | ].
  split; [split; [reflexivity | repeat (constructor; [reflexivity | ]); constructor] | ].
  split; [split; [reflexivity | repeat (constructor; [reflexivity | ]); constructor] | ].
  split; [split; [reflexivity | repeat (constructor; [reflexivity | ]); constructor] | ].
  unfold observation_bad_2x6.
  repeat (constructor;
          [split; [reflexivity | ];
           repeat (constructor; [reflexivity | ]); constructor | ]).
  constructor.
Qed.

Lemma compile_refuses_rejected_image_witness :
  rollout_shapes rollout_bad_2x5 observation_bad_2x6 2 5
  /\ (0 < 2)%nat
  /\ length [2; 4] = 2%nat
  /\ Forall (fun d => 0 <= d < Z.of_nat 5) [2; 4]
  /\ Exists (fun kt => is_image_key (fst kt) = true
                       /\ Exists (fun p => Exists rejected_image
                                             (slice_to (fst p) (snd p + 1)))
                                 (combine (snd kt) [2; 4])) observation_bad_2x6
  /\ exists e, snd (_compile_episode_data rollout_bad_2x5 [2; 4] 0 0 10) = Raise e.
Proof.
  assert (H2 : (0 < 2)%nat) by lia.
  assert (H3 : length [2; 4] = 2%nat) by reflexivity.
  assert (H4 : Forall (fun d => 0 <= d < Z.of_nat 5) [2; 4])
    by (repeat constructor; simpl; lia).
  assert (H5 : Exists (fun kt => is_image_key (fst kt) = true
                       /\ Exists (fun p => Exists rejected_image
                                             (slice_to (fst p) (snd p + 1)))
                                 (combine (snd kt) [2; 4])) observation_bad_2x6).
  { unfold observation_bad_2x6. left. split; [reflexivity | ].
    left. left. exists AssertionError. vm_compute. reflexivity. }
  split; [exact rollout_bad_2x5_shapes | ].
  repeat (split; [assumption | ]).
  exact (@compile_refuses_rejected_image rollout_bad_2x5 observation_bad_2x6 2 5 [2; 4]
           0 0 10 rollout_bad_2x5_shapes H2 H3 H4 H5).
Defined.

End RejectedImagesWitness.

Section RefusedAfterTheChecks.

Lemma combine_map_r {A B C : Type} (f : B -> C) (l : list A) :
  forall l' : list B,
    combine l (map f l') = map (fun p => (fst p, f (snd p))) (combine l l').
Proof.
  induction l as [ | a l IH]; intros [ | b l']; simpl; try reflexivity.
  now rewrite IH.
Qed.

(** The compiler up to the loop over the observation keys, on a batch of
    consistent shapes. *)
Lemma compile_reaches_observations (rd : rollout_data)
    (obs : list (String.string * list (list tensor)))
    (batch n_steps : nat) (done_indices : list Z)
    (start_episode_index start_data_index : Z) (fps : Q) :
  rollout_shapes rd obs batch n_steps ->
  (0 < batch)%nat ->
  length done_indices = batch ->
  Forall (fun d => 0 <= d < Z.of_nat n_steps) done_indices ->
  exists total k,
    0 <= total
    /\ forall obs' r,
         compile_observation (map (fun d => d + 1) done_indices) obs = (obs', r) ->
         _compile_episode_data rd done_indices start_episode_index start_data_index fps
         = (set_observation rd obs',
            vals <- r ;;
            index <- arange start_data_index (start_data_index + total) ;;
            features <- observation_features obs ;;
            k vals index features).
Proof.
  intros Hsh Hbatch Hlen Hdone.
  pose proof Hsh as (Hobs & [Ha _] & _).
  pose proof (widths_bounds n_steps Hbatch Hlen Hdone) as Hwb.
  exists (sum_Z (map (num_frames_at done_indices) (range 0 (Z.of_nat batch)))).
  eexists. split.
  { apply sum_Z_nonneg. eapply Forall_impl; [ | exact Hwb]. simpl. intros; lia. }
  intros obs' r Hco.
  unfold _compile_episode_data.
  unfold len at 1. rewrite Ha.
  rewrite (compile_episodes_ok start_episode_index fps Hobs
             (shapes_ready Hsh Hlen Hdone)).
  cbn [ep_dicts acc_from acc_to total_frames data_index_from app].
  rewrite Hobs.
  destruct (map (ep_dict_at rd done_indices start_episode_index fps)
                (range 0 (Z.of_nat batch))) as [ | e0 erest] eqn:Eeps.
  { exfalso. apply (f_equal (@length _)) in Eeps.
    rewrite length_map, range_length in Eeps. simpl in Eeps. lia. }
  rewrite <- Eeps.
  replace (map ep_num_frames _) with (map (fun d => d + 1) done_indices).
  2:{ rewrite map_map. cbn [ep_dict_at ep_num_frames].
      assert (HL : Z.of_nat batch = len done_indices) by (unfold len; now rewrite Hlen).
      rewrite HL. symmetry. apply num_frames_over_range. }
  rewrite Hco, Z.add_0_l. reflexivity.
Qed.

Lemma fromarray_raises (h w c : Z) (pixels : list Z) (e : exception) :
  fromarray h w c pixels = Raise e -> e = TypeError /\ (c < 2 \/ 4 < c).
Proof.
  unfold fromarray.
  destruct (Z.leb_spec 2 c) as [Hlo | Hlo]; destruct (Z.leb_spec c 4) as [Hhi | Hhi];
    cbn [andb]; intros Hr; try discriminate Hr; injection Hr as <-;
    split; (reflexivity || lia).
Qed.

Lemma convert_images_checked (frames : list tensor) :
  Forall checked_image frames ->
  (forall e, snd (convert_images frames) = Raise e -> e = TypeError)
  /\ (Exists unsupported_image frames ->
      snd (convert_images frames) = Raise TypeError).
Proof.
  induction 1 as [ | img rest [[[c h] w] Ec] _ [IH1 IH2]]; cbn [convert_images].
  - split; [intros e H; discriminate H | intros H; inversion H].
  - unfold convert_image. rewrite Ec.
    destruct (fromarray h w c _) as [p | e'] eqn:Ef.
    + destruct (convert_images rest) as [rest' r]. cbn [snd] in *. split.
      * intros e He. destruct r as [ps | e'']; [discriminate He | ].
        cbn [bind] in He. injection He as <-. now apply IH1.
      * intros Hex. inversion Hex as [? ? (c' & h' & w' & Ec' & Hc') | ? ? Hrest]; subst.
        -- exfalso. rewrite Ec in Ec'. injection Ec' as <- <- <-.
           unfold fromarray in Ef.
           destruct (Z.leb_spec 2 c); destruct (Z.leb_spec c 4); cbn [andb] in Ef;
             try discriminate Ef; lia.
        -- rewrite (IH2 Hrest). reflexivity.
    + cbn [snd]. destruct (fromarray_raises _ _ _ _ Ef) as [-> _].
      split; [intros e He; now injection He as <- | reflexivity].
Qed.

Lemma convert_episodes_checked (num_frames : list Z) :
  forall t : list (list tensor),
    Forall (fun p => Forall checked_image (slice_to (fst p) (snd p)))
           (combine t num_frames) ->
    (forall e, snd (convert_episodes num_frames t) = Raise e -> e = TypeError)
    /\ (Exists (fun p => Exists unsupported_image (slice_to (fst p) (snd p)))
               (combine t num_frames) ->
        snd (convert_episodes num_frames t) = Raise TypeError).
Proof.
  induction num_frames as [ | n ns IH]; intros [ | row t] Hall;
    cbn [convert_episodes combine] in *;
    try (split; [intros e H; discriminate H | intros H; inversion H]).
  inversion Hall as [ | ? ? Hrow Hrest]; subst. cbn [fst snd] in Hrow.
  destruct (convert_images_checked Hrow) as [H1 H2].
  destruct (IH t Hrest) as [IH1 IH2].
  destruct (convert_images (slice_to row n)) as [converted r].
  cbn [snd] in H1, H2.
  destruct r as [imgs | e'].
  - destruct (convert_episodes ns t) as [t'' r']. cbn [snd] in *. split.
    + intros e He. destruct r' as [imgs' | e'']; [discriminate He | ].
      cbn [bind] in He. injection He as <-. now apply IH1.
    + intros Hex. inversion Hex as [? ? Hhere | ? ? Hthere]; subst.
      * cbn [fst snd] in Hhere. specialize (H2 Hhere). discriminate H2.
      * rewrite (IH2 Hthere). reflexivity.
  - cbn [snd]. rewrite (H1 e' eq_refl).
    split; [intros e He; now injection He as <- | reflexivity].
Qed.

Lemma compile_observation_checked (num_frames : list Z)
    (obs : list (String.string * list (list tensor))) :
  Forall (fun kt => is_image_key (fst kt) = true ->
                    Forall (fun p => Forall checked_image (slice_to (fst p) (snd p)))
                           (combine (snd kt) num_frames)) obs ->
  (forall e, snd (compile_observation num_frames obs) = Raise e -> e = TypeError)
  /\ (Exists (fun kt => is_image_key (fst kt) = true
                        /\ Exists (fun p => Exists unsupported_image
                                              (slice_to (fst p) (snd p)))
                                  (combine (snd kt) num_frames)) obs ->
      snd (compile_observation num_frames obs) = Raise TypeError).
Proof.
  induction obs as [ | [key t] rest IH]; intros Hall; cbn [compile_observation].
  - split; [intros e H; discriminate H | intros H; inversion H].
  - inversion Hall as [ | ? ? Hkey Hrest]; subst. cbn [fst snd] in Hkey.
    destruct (IH Hrest) as [IH1 IH2].
    destruct (is_image_key key) eqn:Ek.
    + destruct (convert_episodes_checked num_frames t (Hkey eq_refl)) as [H1 H2].
      destruct (convert_episodes num_frames t) as [t' r]. cbn [snd] in H1, H2.
      destruct r as [imgs | e'].
      * destruct (compile_observation num_frames rest) as [rest' r'].
        cbn [snd] in *. split.
        -- intros e He. destruct r' as [vals | e'']; [discriminate He | ].
           cbn [bind] in He. injection He as <-. now apply IH1.
        -- intros Hex. inversion Hex as [? ? [_ Hhere] | ? ? Hthere]; subst.
           ++ cbn [fst snd] in Hhere. specialize (H2 Hhere). discriminate H2.
           ++ rewrite (IH2 Hthere). reflexivity.
      * cbn [snd]. rewrite (H1 e' eq_refl).
        split; [intros e He; now injection He as <- | reflexivity].
    + destruct (compile_observation num_frames rest) as [rest' r'].
      cbn [snd] in *. split.
      * intros e He. destruct r' as [vals | e'']; [discriminate He | ].
        cbn [bind] in He. injection He as <-. now apply IH1.
      * intros Hex. inversion Hex as [? ? [Hk _] | ? ? Hthere]; subst;
          [cbn [fst] in Hk; congruence | ].
        rewrite (IH2 Hthere). reflexivity.
Qed.

(** An image can pass every sanity check and still be refused: when the
    frames that go into an episode pass the checks and one of them has a
    number of channels other than two, three or four, the call raises
    [TypeError] (from [PILImage.fromarray]), not an [AssertionError], and
    no dataset is made. *)
Theorem compile_refuses_unsupported_channels
    (rd : rollout_data) (obs : list (String.string * list (list tensor)))
    (batch n_steps : nat) (done_indices : list Z)
    (start_episode_index start_data_index : Z) (fps : Q) :
  rollout_shapes rd obs batch n_steps ->
  (0 < batch)%nat ->
  length done_indices = batch ->
  Forall (fun d => 0 <= d < Z.of_nat n_steps) done_indices ->
  Forall (fun kt => is_image_key (fst kt) = true ->
                    Forall (fun p => Forall checked_image (slice_to (fst p) (snd p + 1)))
                           (combine (snd kt) done_indices)) obs ->
  Exists (fun kt => is_image_key (fst kt) = true
                    /\ Exists (fun p => Exists unsupported_image
                                          (slice_to (fst p) (snd p + 1)))
                              (combine (snd kt) done_indices)) obs ->
  snd (_compile_episode_data rd done_indices start_episode_index start_data_index fps)
  = Raise TypeError.
Proof.
  intros Hsh Hbatch Hlen Hdone Hall Hbad.
  destruct (compile_reaches_observations start_episode_index start_data_index fps
              Hsh Hbatch Hlen Hdone) as (total & k & _ & Hrun).
  destruct (@compile_observation_checked (map (fun d => d + 1) done_indices) obs)
    as [_ H2].
  { eapply Forall_impl; [ | exact Hall]. intros kt Hkt Hk.
    rewrite combine_map_r. apply Forall_map. exact (Hkt Hk). }
  assert (Hr : snd (compile_observation (map (fun d => d + 1) done_indices) obs)
               = Raise TypeError).
  { apply H2. eapply Exists_impl; [ | exact Hbad]. intros kt [Hk Hex].
    split; [exact Hk | ]. rewrite combine_map_r. apply Exists_map. exact Hex. }
  destruct (compile_observation _ obs) as [obs' r] eqn:Eco. cbn [snd] in Hr. subst r.
  rewrite (Hrun _ _ eq_refl). reflexivity.
Qed.

Lemma frame_axes_scalar (t : list (list tensor)) :
  Forall (Forall (fun frame => t_shape frame = [])) t -> frame_axes t = [].
Proof.
  intros H. unfold frame_axes.
  destruct (concat t) as [ | frame rest] eqn:E; [reflexivity | ].
  assert (Hin : In frame (concat t)) by (rewrite E; now left).
  apply in_concat in Hin. destruct Hin as (row & Hrow & Hframe).
  rewrite Forall_forall in H. specialize (H _ Hrow).
  rewrite Forall_forall in H. exact (H _ Hframe).
Qed.

Lemma observation_features_scalar (obs : list (String.string * list (list tensor))) :
  Exists (fun kt => is_image_key (fst kt) = false
                    /\ Forall (Forall (fun frame => t_shape frame = [])) (snd kt)) obs ->
  observation_features obs = Raise IndexError.
Proof.
  induction obs as [ | [key t] rest IH]; intros H; [inversion H | ].
  cbn [observation_features].
  inversion H as [? ? [Hk Hsc] | ? ? Hrest]; subst.
  - cbn [fst snd] in Hk, Hsc. rewrite Hk, (frame_axes_scalar Hsc). reflexivity.
  - destruct (is_image_key key).
    + cbn [bind]. now rewrite (IH Hrest).
    + destruct (frame_axes t); [reflexivity | ]. cbn [bind]. now rewrite (IH Hrest).
Qed.

Lemma compile_observation_converts (L : Z) (num_frames : list Z)
    (obs : list (String.string * list (list tensor))) :
  Forall (fun kt => length (snd kt) = length num_frames
                    /\ Forall (fun r => len r = L) (snd kt)) obs ->
  Forall (fun n => 0 <= n <= L) num_frames ->
  Forall (fun kt => is_image_key (fst kt) = true ->
                    Forall (Forall valid_image) (snd kt)) obs ->
  exists obs' vals, compile_observation num_frames obs = (obs', Ok vals).
Proof.
  intros Hshape Hn Himg.
  induction obs as [ | [key t] rest IH]; cbn [compile_observation].
  - exists [], []. reflexivity.
  - inversion Hshape as [ | ? ? [Hlen HL] Hrest]; subst.
    inversion Himg as [ | ? ? Hkey Hirest]; subst. cbn [fst snd] in *.
    destruct (IH Hrest Hirest) as (rest' & vals & Hco).
    destruct (is_image_key key).
    + destruct (convert_episodes_valid Hlen HL Hn (Hkey eq_refl)) as (imgs & -> & _).
      rewrite Hco. cbn [bind]. eexists. eexists. reflexivity.
    + rewrite Hco. cbn [bind]. eexists. eexists. reflexivity.
Qed.

(** An observation that is a scalar per frame cannot be stored: when the
    images are valid and the frames under some key that does not contain
    "image" have no axis, the call raises [IndexError] (from
    [data_dict[key].shape[1]]), after the images of the rollout batch have
    been converted. *)
Theorem compile_refuses_scalar_frames
    (rd : rollout_data) (obs : list (String.string * list (list tensor)))
    (batch n_steps : nat) (done_indices : list Z)
    (start_episode_index start_data_index : Z) (fps : Q) :
  rollout_shapes rd obs batch n_steps ->
  (0 < batch)%nat ->
  length done_indices = batch ->
  Forall (fun d => 0 <= d < Z.of_nat n_steps) done_indices ->
  Forall (fun kt => is_image_key (fst kt) = true ->
                    Forall (Forall valid_image) (snd kt)) obs ->
  Exists (fun kt => is_image_key (fst kt) = false
                    /\ Forall (Forall (fun frame => t_shape frame = [])) (snd kt)) obs ->
  snd (_compile_episode_data rd done_indices start_episode_index start_data_index fps)
  = Raise IndexError.
Proof.
  intros Hsh Hbatch Hlen Hdone Himg Hscalar.
  destruct (compile_reaches_observations start_episode_index start_data_index fps
              Hsh Hbatch Hlen Hdone) as (total & k & Htotal & Hrun).
  pose proof Hsh as (_ & _ & _ & _ & Hf).
  destruct (@compile_observation_converts (Z.of_nat (S n_steps))
              (map (fun d => d + 1) done_indices) obs) as (obs' & vals & Hco).
  { eapply Forall_impl; [ | exact Hf]. intros kt [Hk Hrows]. split.
    - rewrite length_map. lia.
    - eapply Forall_impl; [ | exact Hrows]. intros r Hrl. unfold len. now rewrite Hrl. }
  { apply Forall_map. eapply Forall_impl; [ | exact Hdone]. simpl. intros; lia. }
  { exact Himg. }
  rewrite (Hrun _ _ Hco). cbn [snd bind].
  rewrite arange_ok by lia. cbn [bind].
  now rewrite (observation_features_scalar Hscalar).
Qed.

End RefusedAfterTheChecks.

Section RefusedAfterTheChecksWitness.

Lemma gray_image_checked (v : Q) :
  (0 <= v)%Q -> (v <= 1)%Q -> check_image (gray_image v) = Ok (1, 4, 4).
Proof.
  intros H0 H1.
  change (gray_image v)
    with {| t_shape := [1; 4; 4]; t_dtype := Float32; t_data := v :: repeat v 15 |}.
  apply check_image_ok; [lia | lia | ].
  constructor; [now split | ].
  apply Forall_forall. intros x Hx. apply repeat_spec in Hx. subst x. now split.
Qed.

Lemma rollout_gray_2x5_shapes : rollout_shapes rollout_gray_2x5 observation_gray_2x6 2 5.
Proof.
  unfold rollout_shapes. split; [reflexivity | ].
  split; [split; [reflexivity | repeat (constructor; [reflexivity | ]); constructor] | ].
  split; [split; [reflexivity | repeat (constructor; [reflexivity | ]); constructor] | ].
  split; [split; [reflexivity | repeat (constructor; [reflexivity | ]); constructor] | ].
  unfold observation_gray_2x6.
  repeat (constructor;
          [split; [reflexivity | ];
           repeat (constructor; [reflexivity | ]); constructor | ]).
  constructor.
Qed.

Lemma rollout_scalar_2x5_shapes :
  rollout_shapes rollout_scalar_2x5 observation_scalar_2x6 2 5.
Proof.
  unfold rollout_shapes. split; [reflexivity | ].
  split; [split; [reflexivity | repeat (constructor; [reflexivity | ]); constructor] | ].
  split; [split; [reflexivity | repeat (constructor; [reflexivity | ]); constructor] | ].
  split; [split; [reflexivity | repeat (constructor; [reflexivity | ]); constructor] | ].
  unfold observation_scalar_2x6.
  repeat (constructor;
          [split; [reflexivity | ];
           repeat (constructor; [reflexivity | ]); constructor | ]).
  constructor.
Qed.

Lemma compile_refuses_unsupported_channels_witness :
  rollout_shapes rollout_gray_2x5 observation_gray_2x6 2 5
  /\ (0 < 2)%nat
  /\ length [2; 4] = 2%nat
  /\ Forall (fun d => 0 <= d < Z.of_nat 5) [2; 4]
  /\ Forall (fun kt => is_image_key (fst kt) = true ->
                       Forall (fun p => Forall checked_image
                                          (slice_to (fst p) (snd p + 1)))
                              (combine (snd kt) [2; 4])) observation_gray_2x6
  /\ Exists (fun kt => is_image_key (fst kt) = true
                       /\ Exists (fun p => Exists unsupported_image
                                             (slice_to (fst p) (snd p + 1)))
                                 (combine (snd kt) [2; 4])) observation_gray_2x6
  /\ snd (_compile_episode_data rollout_gray_2x5 [2; 4] 0 0 10) = Raise TypeError.
Proof.
  assert (H2 : (0 < 2)%nat) by lia.
  assert (H3 : length [2; 4] = 2%nat) by reflexivity.
  assert (H4 : Forall (fun d => 0 <= d < Z.of_nat 5) [2; 4])
    by (repeat constructor; simpl; lia).
  assert (Hhalf : check_image (gray_image (1 # 2)) = Ok (1, 4, 4))
    by (apply gray_image_checked; unfold Qle; simpl; lia).
  assert (Hone : check_image (gray_image 1) = Ok (1, 4, 4))
    by (apply gray_image_checked; unfold Qle; simpl; lia).
  assert (H5 : Forall (fun kt => is_image_key (fst kt) = true ->
                       Forall (fun p => Forall checked_image
                                          (slice_to (fst p) (snd p + 1)))
                              (combine (snd kt) [2; 4])) observation_gray_2x6).
  { unfold observation_gray_2x6.
    constructor; [ | constructor; [ | constructor]].
    - intros _. cbn [snd fst combine].
      constructor; [ | constructor; [ | constructor]]; cbn [fst snd];
        apply Forall_forall; intros x Hx;
        [ assert (x = gray_image (1 # 2)) as ->
            by (vm_compute in Hx; repeat (destruct Hx as [<- | Hx]; [reflexivity | ]);
                contradiction)
        | assert (x = gray_image 1) as ->
            by (vm_compute in Hx; repeat (destruct Hx as [<- | Hx]; [reflexivity | ]);
                contradiction) ];
        eexists; eassumption.
    - intros H. discriminate H. }
  assert (H6 : Exists (fun kt => is_image_key (fst kt) = true
                       /\ Exists (fun p => Exists unsupported_image
                                             (slice_to (fst p) (snd p + 1)))
                                 (combine (snd kt) [2; 4])) observation_gray_2x6).
  { unfold observation_gray_2x6. left. split; [reflexivity | ].
    left. left. exists 1, 4, 4. split; [exact Hhalf | lia]. }
  split; [exact rollout_gray_2x5_shapes | ].
  repeat (split; [assumption | ]).
  exact (@compile_refuses_unsupported_channels rollout_gray_2x5 observation_gray_2x6
           2 5 [2; 4] 0 0 10 rollout_gray_2x5_shapes H2 H3 H4 H5 H6).
Defined.

Lemma compile_refuses_scalar_frames_witness :
  rollout_shapes rollout_scalar_2x5 observation_scalar_2x6 2 5
  /\ (0 < 2)%nat
  /\ length [2; 4] = 2%nat
  /\ Forall (fun d => 0 <= d < Z.of_nat 5) [2; 4]
  /\ Forall (fun kt => is_image_key (fst kt) = true ->
                       Forall (Forall valid_image) (snd kt)) observation_scalar_2x6
  /\ Exists (fun kt => is_image_key (fst kt) = false
                       /\ Forall (Forall (fun frame => t_shape frame = [])) (snd kt))
            observation_scalar_2x6
  /\ snd (_compile_episode_data rollout_scalar_2x5 [2; 4] 0 0 10) = Raise IndexError.
Proof.
  assert (H2 : (0 < 2)%nat) by lia.
  assert (H3 : length [2; 4] = 2%nat) by reflexivity.
  assert (H4 : Forall (fun d => 0 <= d < Z.of_nat 5) [2; 4])
    by (repeat constructor; simpl; lia).
  assert (H5 : Forall (fun kt => is_image_key (fst kt) = true ->
                       Forall (Forall valid_image) (snd kt)) observation_scalar_2x6).
  { unfold observation_scalar_2x6.
    constructor; [ | constructor; [ | constructor]].
    - intros _. cbn [snd].
      constructor; [ | constructor; [ | constructor]];
        apply Forall_forall; intros x Hx; apply repeat_spec in Hx; subst x;
        apply flat_image_valid; unfold Qle; simpl; lia.
    - intros H. discriminate H. }
  assert (H6 : Exists (fun kt => is_image_key (fst kt) = false
                       /\ Forall (Forall (fun frame => t_shape frame = [])) (snd kt))
                 observation_scalar_2x6).
  { unfold observation_scalar_2x6. right. left. split; [reflexivity | ]. cbn [snd].
    constructor; [ | constructor; [ | constructor]];
      apply Forall_forall; intros x Hx; apply repeat_spec in Hx; subst x; reflexivity. }
  split; [exact rollout_scalar_2x5_shapes | ].
  repeat (split; [assumption | ]).
  exact (@compile_refuses_scalar_frames rollout_scalar_2x5 observation_scalar_2x6
           2 5 [2; 4] 0 0 10 rollout_scalar_2x5_shapes H2 H3 H4 H5 H6).
Defined.

End RefusedAfterTheChecksWitness.

Section CompiledRows.

Lemma consecutive_ranges_length (widths : list Z) :
  forall start, length (consecutive_ranges start widths) = length widths.
Proof. induction widths as [ | l ws IH]; intros s; simpl; [ | rewrite IH]; reflexivity. Qed.

Lemma consecutive_ranges_last (widths : list Z) :
  forall start,
    widths <> [] ->
    last (map snd (consecutive_ranges start widths)) 0 = start + sum_Z widths.
Proof.
  induction widths as [ | l ws IH]; intros s Hne; [contradiction | ].
  destruct ws as [ | l' ws].
  - simpl. lia.
  - change (consecutive_ranges s (l :: l' :: ws))
      with ((s, s + l) :: consecutive_ranges (s + l) (l' :: ws)).
    cbn [map]. 
    change (last (?x :: map snd (consecutive_ranges ?t (l' :: ws))) 0)
      with (last (map snd (consecutive_ranges t (l' :: ws))) 0).
    rewrite IH by discriminate. simpl. lia.
Qed.


End CompiledRows.

Section CompiledRowsWitness.


End CompiledRowsWitness.

Section ConvertedPixels.

Lemma nth_flat_map_block {A B : Type} (g : B -> list A) (m : nat) (d : A) (b0 : B) :
  forall l : list B,
    Forall (fun b => length (g b) = m) l ->
    length (flat_map g l) = (length l * m)%nat
    /\ forall i j, (i < length l)%nat -> (j < m)%nat ->
         nth (i * m + j) (flat_map g l) d = nth j (g (nth i l b0)) d.
Proof.
  induction 1 as [ | b l Hb _ [IHlen IHnth]]; simpl.
  - split; [reflexivity | intros i j Hi; lia].
  - split; [rewrite length_app, Hb, IHlen; reflexivity | ].
    intros [ | i] j Hi Hj.
    + simpl. apply app_nth1. lia.
    + rewrite app_nth2 by (rewrite Hb; simpl; lia).
      rewrite Hb. replace (S i * m + j - m)%nat with (i * m + j)%nat by (simpl; lia).
      apply IHnth; lia.
Qed.

Lemma nth_range (n i : Z) : 0 <= i < n -> nth (Z.to_nat i) (range 0 n) 0 = i.
Proof.
  intros H. unfold range. rewrite Z.sub_0_r.
  pose proof (map_nth (fun k => 0 + Z.of_nat k) (seq 0 (Z.to_nat n)) O (Z.to_nat i)) as Hm.
  cbv beta in Hm. change (0 + Z.of_nat 0) with 0 in Hm.
  rewrite Hm, seq_nth by lia. lia.
Qed.

(** The channel-last position of pixel ([y], [x], channel [ch]) and the
    channel-first position it comes from. *)
Lemma permute_120_spec (c h w : Z) (data : list Z) :
  0 <= c -> 0 <= h -> 0 <= w ->
  len (permute_120 c h w data) = c * h * w
  /\ forall y x ch, 0 <= y < h -> 0 <= x < w -> 0 <= ch < c ->
       nth (Z.to_nat ((y * w + x) * c + ch)) (permute_120 c h w data) 0
       = nth (Z.to_nat ((ch * h + y) * w + x)) data 0.
Proof.
  intros Hc Hh Hw.
  pose (inner := fun y x : Z =>
         map (fun ch => nth (Z.to_nat ((ch * h + y) * w + x)) data 0) (range 0 c)).
  pose (middle := fun y : Z => flat_map (inner y) (range 0 w)).
  change (permute_120 c h w data) with (flat_map middle (range 0 h)).
  assert (Hinner : forall y x, length (inner y x) = Z.to_nat c).
  { intros y x. unfold inner. rewrite length_map, range_length. lia. }
  assert (Hmid : forall y,
             length (middle y) = (Z.to_nat w * Z.to_nat c)%nat
             /\ forall i j, (i < Z.to_nat w)%nat -> (j < Z.to_nat c)%nat ->
                  nth (i * Z.to_nat c + j) (middle y) 0
                  = nth j (inner y (nth i (range 0 w) 0)) 0).
  { intros y.
    destruct (@nth_flat_map_block Z Z (inner y) (Z.to_nat c) 0 0 (range 0 w))
      as [Hl Hn].
    - apply Forall_forall. intros x _. apply Hinner.
    - rewrite range_length, Z.sub_0_r in Hl, Hn. split; [exact Hl | exact Hn]. }
  destruct (@nth_flat_map_block Z Z middle (Z.to_nat w * Z.to_nat c) 0 0 (range 0 h))
    as [Hl Hn].
  { apply Forall_forall. intros y _. apply Hmid. }
  rewrite range_length, Z.sub_0_r in Hl, Hn.
  split.
  - unfold len. rewrite Hl. nia.
  - intros y x ch Hy Hx Hch.
    replace (Z.to_nat ((y * w + x) * c + ch))
      with (Z.to_nat y * (Z.to_nat w * Z.to_nat c)
            + (Z.to_nat x * Z.to_nat c + Z.to_nat ch))%nat by nia.
    rewrite Hn by nia.
    rewrite nth_range by lia.
    destruct (Hmid y) as [_ Hm]. rewrite Hm by lia.
    rewrite nth_range by lia. unfold inner.
    set (f := fun ch0 => nth (Z.to_nat ((ch0 * h + y) * w + x)) data 0).
    rewrite (nth_indep (map f (range 0 c)) 0 (f 0))
      by (rewrite length_map, range_length; lia).
    rewrite (map_nth f), nth_range by lia. reflexivity.
Qed.

(** What becomes of an image of [c * h * w] entries that passes the
    checks and has two, three or four channels: the stored
    picture is [h] by [w] with [c] channels, channel last; its pixel at row
    [y], column [x], channel [ch] is the entry ([ch], [y], [x]) of the
    tensor times 255, rounded down, a value from 0 to 255; and the tensor
    in the rollout batch is left multiplied by 255. *)
Theorem converted_image_pixels (img : tensor) (c h w : Z) :
  check_image img = Ok (c, h, w) ->
  2 <= c <= 4 ->
  len (t_data img) = c * h * w ->
  exists p,
    convert_image img = (imul_255 img, Ok p)
    /\ im_height p = h /\ im_width p = w /\ im_channels p = c
    /\ len (im_pixels p) = c * h * w
    /\ forall y x ch, 0 <= y < h -> 0 <= x < w -> 0 <= ch < c ->
         nth (Z.to_nat ((y * w + x) * c + ch)) (im_pixels p) 0
         = Qfloor (Qmult (nth (Z.to_nat ((ch * h + y) * w + x)) (t_data img) 0%Q) 255)
         /\ 0 <= nth (Z.to_nat ((y * w + x) * c + ch)) (im_pixels p) 0 <= 255.
Proof.
  intros Hchk Hc Hlen.
  destruct (check_image_inv _ Hchk) as (Hs & Hh & Hw & Hd & Hne & Hall).
  unfold convert_image. rewrite Hchk, (fromarray_ok _ _ _ Hc).
  eexists. split; [reflexivity | ].
  cbn [im_height im_width im_channels im_pixels imul_255 t_data].
  destruct (@permute_120_spec c h w
              (map Qfloor (map (fun x => (x * 255)%Q) (t_data img)))) as [Hl Hn];
    try lia.
  repeat split; try assumption.
  - rewrite Hn by assumption. rewrite map_map.
    change 0 with ((fun x => Qfloor (x * 255)) 0%Q) at 1.
    now rewrite map_nth.
  - rewrite Hn by assumption. rewrite map_map.
    change 0 with ((fun x => Qfloor (x * 255)) 0%Q) at 2.
    rewrite map_nth.
    assert (Hin : In (nth (Z.to_nat ((ch * h + y) * w + x)) (t_data img) 0%Q) (t_data img)).
    { apply nth_In. unfold len in Hlen.
      assert (Hch : ch * h <= (c - 1) * h)
        by (apply Z.mul_le_mono_nonneg_r; lia).
      assert (Hrow : (ch * h + y) * w <= (c * h - 1) * w)
        by (apply Z.mul_le_mono_nonneg_r; lia).
      assert (Hch0 : 0 <= ch * h) by (apply Z.mul_nonneg_nonneg; lia).
      assert (Hrow0 : 0 <= (ch * h + y) * w) by (apply Z.mul_nonneg_nonneg; lia).
      lia. }
    rewrite Forall_forall in Hall. destruct (Hall _ Hin) as [Hv0 Hv1].
    apply Z.le_trans with (Qfloor 0); [discriminate | apply Qfloor_resp_le; lra].
  - rewrite Hn by assumption. rewrite map_map.
    change 0 with ((fun x => Qfloor (x * 255)) 0%Q) at 1.
    rewrite map_nth.
    assert (Hin : In (nth (Z.to_nat ((ch * h + y) * w + x)) (t_data img) 0%Q) (t_data img)).
    { apply nth_In. unfold len in Hlen.
      assert (Hch : ch * h <= (c - 1) * h)
        by (apply Z.mul_le_mono_nonneg_r; lia).
      assert (Hrow : (ch * h + y) * w <= (c * h - 1) * w)
        by (apply Z.mul_le_mono_nonneg_r; lia).
      assert (Hch0 : 0 <= ch * h) by (apply Z.mul_nonneg_nonneg; lia).
      assert (Hrow0 : 0 <= (ch * h + y) * w) by (apply Z.mul_nonneg_nonneg; lia).
      lia. }
    rewrite Forall_forall in Hall. destruct (Hall _ Hin) as [Hv0 Hv1].
    apply Z.le_trans with (Qfloor 255); [apply Qfloor_resp_le; lra | discriminate].
Qed.

Lemma converted_image_pixels_witness :
  check_image (flat_image (1 # 2)) = Ok (3, 4, 4)
  /\ 2 <= 3 <= 4
  /\ len (t_data (flat_image (1 # 2))) = 3 * 4 * 4
  /\ exists p,
       convert_image (flat_image (1 # 2)) = (imul_255 (flat_image (1 # 2)), Ok p)
       /\ im_height p = 4 /\ im_width p = 4 /\ im_channels p = 3
       /\ len (im_pixels p) = 3 * 4 * 4
       /\ forall y x ch, 0 <= y < 4 -> 0 <= x < 4 -> 0 <= ch < 3 ->
            nth (Z.to_nat ((y * 4 + x) * 3 + ch)) (im_pixels p) 0
            = Qfloor (Qmult (nth (Z.to_nat ((ch * 4 + y) * 4 + x))
                                 (t_data (flat_image (1 # 2))) 0%Q) 255)
            /\ 0 <= nth (Z.to_nat ((y * 4 + x) * 3 + ch)) (im_pixels p) 0 <= 255.
Proof.
  assert (H1 : check_image (flat_image (1 # 2)) = Ok (3, 4, 4)) by reflexivity.
  assert (H2 : 2 <= 3 <= 4) by lia.
  assert (H3 : len (t_data (flat_image (1 # 2))) = 3 * 4 * 4) by reflexivity.
  repeat (split; [assumption | ]).
  exact (@converted_image_pixels (flat_image (1 # 2)) 3 4 4 H1 H2 H3).
Defined.

End ConvertedPixels.

Section CompileThenMerge.

Lemma last_app_nonempty {A : Type} (a b : list A) (d : A) :
  b <> [] -> last (a ++ b) d = last b d.
Proof.
  intros Hb. induction a as [ | x a IH]; [reflexivity | ].
  simpl. destruct (a ++ b) eqn:E; [ | exact IH].
  apply app_eq_nil in E. destruct E as [_ E]. contradiction.
Qed.

Lemma last_repeat {A : Type} (x d : A) (k : nat) : last (repeat x (S k)) d = x.
Proof.
  induction k as [ | k IH]; [reflexivity | ].
  change (repeat x (S (S k))) with (x :: repeat x (S k)).
  change (last (x :: repeat x (S k)) d) with (last (repeat x (S k)) d). exact IH.
Qed.

Lemma range_cons (lo hi : Z) : lo < hi -> range lo hi = lo :: range (lo + 1) hi.
Proof.
  intros H. rewrite <- (@range_app lo (lo + 1) hi) by lia.
  unfold range at 1. replace (Z.to_nat (lo + 1 - lo)) with 1%nat by lia.
  simpl. f_equal. lia.
Qed.

(** A rollout batch the compiler accepts, compiled with both start indices
    0, is what the merger asks for: merged into an empty online dataset
    (with a combined dataset of at least one part and
    [0 <= pc_online_samples < 1]) the call returns, and the online dataset
    is the compiled dataset with its index table. *)
Theorem compiled_batch_is_accepted_by_merger
    (rd : rollout_data) (obs : list (String.string * list (list tensor)))
    (batch n_steps : nat) (done_indices : list Z) (fps : Q)
    (st : merge_state) (pc : Q) :
  rollout_ok rd obs batch n_steps ->
  (0 < batch)%nat ->
  length done_indices = batch ->
  Forall (fun d => 0 <= d < Z.of_nat n_steps) done_indices ->
  num_rows (od_hf_dataset (st_online st)) = 0 ->
  datasets (st_concat st) <> [] ->
  (0 <= pc)%Q -> (pc < 1)%Q ->
  exists rd' d edi st',
    _compile_episode_data rd done_indices 0 0 fps = (rd', Ok (d, edi))
    /\ check_incoming d edi = Ok (Z.of_nat batch - 1, num_rows d - 1)
    /\ add_episodes_inplace st d edi pc = (st', edi, Ok tt)
    /\ st_online st' = {| od_hf_dataset := d; od_episode_data_index := edi |}.
Proof.
  intros Hok Hbatch Hlen Hdone Hempty Hds H0 H1.
  destruct (compile_explicit 0 0 fps Hok Hbatch Hlen Hdone)
    as (obs' & vals & cols & _ & _ & _ & Hc).
  pose proof (widths_bounds n_steps Hbatch Hlen Hdone) as Hwb.
  set (widths := map (num_frames_at done_indices) (range 0 (Z.of_nat batch))) in *.
  assert (Hpos : Forall (fun n => 1 <= n) widths).
  { subst widths. apply Forall_map, Forall_forall. intros ix Hix.
    apply in_range in Hix. unfold num_frames_at.
    assert (Hin : In (nth (Z.to_nat ix) done_indices 0) done_indices)
      by (apply nth_In; lia).
    rewrite Forall_forall in Hdone. specialize (Hdone _ Hin). lia. }
  assert (Hwne : widths <> []).
  { intros E. apply (f_equal (@length Z)) in E. subst widths.
    rewrite length_map, range_length in E. simpl in E. lia. }
  assert (Hsum : 1 <= sum_Z widths).
  { destruct widths as [ | w0 ws]; [contradiction | ].
    inversion Hpos as [ | ? ? Hw0 Hws]; subst. simpl.
    assert (0 <= sum_Z ws) by (apply sum_Z_nonneg; eapply Forall_impl; [ | exact Hws];
                               simpl; intros; lia).
    lia. }
  match type of Hc with
  | _ = (_, Ok (?dd, ?ee)) => set (d := dd) in *; set (edi := ee) in *
  end.
  assert (Hidx : col_index d = range 0 (sum_Z widths)) by reflexivity.
  assert (Hrows : num_rows d = sum_Z widths).
  { unfold num_rows. rewrite Hidx, range_len; lia. }
  (* the episode index column starts with 0 and ends with batch - 1 *)
  assert (Hep : col_episode_index d
                = concat (map (fun ix => list_times (0 + ix) (num_frames_at done_indices ix))
                              (range 0 (Z.of_nat batch)))).
  { subst d. cbn [col_episode_index]. now rewrite map_map. }
  assert (Hnf : forall ix, 0 <= ix < Z.of_nat batch ->
                  exists k, list_times (0 + ix) (num_frames_at done_indices ix)
                            = repeat ix (S k)).
  { intros ix Hix. unfold list_times, num_frames_at.
    assert (Hin : In (nth (Z.to_nat ix) done_indices 0) done_indices)
      by (apply nth_In; lia).
    rewrite Forall_forall in Hdone. specialize (Hdone _ Hin).
    exists (Z.to_nat (nth (Z.to_nat ix) done_indices 0)).
    rewrite Z.add_0_l. f_equal. lia. }
  assert (Hephd : exists rest, col_episode_index d = 0 :: rest).
  { rewrite Hep, range_cons by lia. cbn [map concat].
    destruct (Hnf 0 ltac:(lia)) as [k ->]. simpl. eexists. reflexivity. }
  assert (Heplast : last (col_episode_index d) 0 = Z.of_nat batch - 1).
  { rewrite Hep, <- (@range_app 0 (Z.of_nat batch - 1) (Z.of_nat batch)) by lia.
    rewrite map_app, concat_app.
    rewrite (range_cons (lo := Z.of_nat batch - 1)) by lia.
    replace (range (Z.of_nat batch - 1 + 1) (Z.of_nat batch)) with (@nil Z)
      by (unfold range; now replace (Z.to_nat (Z.of_nat batch - (Z.of_nat batch - 1 + 1)))
                              with O by lia).
    cbn [map concat]. rewrite app_nil_r.
    destruct (Hnf (Z.of_nat batch - 1) ltac:(lia)) as [k ->].
    rewrite last_app_nonempty by discriminate. apply last_repeat. }
  assert (Hcheck : check_incoming d edi = Ok (Z.of_nat batch - 1, num_rows d - 1)).
  { destruct Hephd as [eprest Hephd].
    destruct (@check_incoming_spec d edi) as [[Hv _] | [_ Hchk]].
    - rewrite Hephd. discriminate.
    - rewrite Hidx, range_cons by lia. discriminate.
    - subst edi. cbn [edi_from]. destruct widths; [contradiction | discriminate].
    - rewrite Heplast. lia.
    - rewrite Heplast. subst edi. cbn [edi_to]. unfold len.
      rewrite length_map, consecutive_ranges_length. subst widths.
      rewrite length_map, range_length. lia.
    - exfalso. unfold incoming_violation in Hv.
      rewrite Hephd, Hidx, range_head, range_last in Hv by lia.
      subst edi. cbn [edi_from edi_to hd] in Hv.
      rewrite consecutive_ranges_last in Hv by assumption.
      destruct widths as [ | w0 ws]; [contradiction | ]. cbn in Hv.
      destruct Hv as [Hv | [Hv | [Hv | Hv]]]; try (now apply Hv); lia.
    - rewrite Hchk, Heplast, Hidx, range_last, Hrows by lia. reflexivity. }
  exists (set_observation rd obs'), d, edi.
  assert (Hd0 : 0 < num_rows d) by lia.
  destruct (@update_sampling_ok
              {| st_online := {| od_hf_dataset := d; od_episode_data_index := edi |};
                 st_concat := st_concat st; st_sampler := st_sampler st |} pc)
    as (st' & Hu & Ho); try assumption.
  exists st'. split; [exact Hc | ]. split; [exact Hcheck | ]. split; [ | exact Ho].
  unfold add_episodes_inplace. rewrite Hcheck, Hempty. cbn [Z.eqb].
  rewrite Hu. reflexivity.
Qed.

Lemma compiled_batch_is_accepted_by_merger_witness :
  rollout_ok rollout_2x5 observation_2x6 2 5
  /\ (0 < 2)%nat
  /\ length [2; 4] = 2%nat
  /\ Forall (fun d => 0 <= d < Z.of_nat 5) [2; 4]
  /\ num_rows (od_hf_dataset (st_online fresh_state)) = 0
  /\ datasets (st_concat fresh_state) <> []
  /\ (0 <= 1 # 2)%Q /\ (1 # 2 < 1)%Q
  /\ exists rd' d edi st',
       _compile_episode_data rollout_2x5 [2; 4] 0 0 10 = (rd', Ok (d, edi))
       /\ check_incoming d edi = Ok (Z.of_nat 2 - 1, num_rows d - 1)
       /\ add_episodes_inplace fresh_state d edi (1 # 2) = (st', edi, Ok tt)
       /\ st_online st' = {| od_hf_dataset := d; od_episode_data_index := edi |}.
Proof.
  assert (H2 : (0 < 2)%nat) by lia.
  assert (H3 : length [2; 4] = 2%nat) by reflexivity.
  assert (H4 : Forall (fun d => 0 <= d < Z.of_nat 5) [2; 4])
    by (repeat constructor; simpl; lia).
  assert (H5 : num_rows (od_hf_dataset (st_online fresh_state)) = 0) by reflexivity.
  assert (H6 : datasets (st_concat fresh_state) <> []) by discriminate.
  assert (H7 : (0 <= 1 # 2)%Q) by discriminate.
  assert (H8 : (1 # 2 < 1)%Q) by reflexivity.
  split; [exact rollout_2x5_ok | ].
  repeat (split; [assumption | ]).
  exact (@compiled_batch_is_accepted_by_merger rollout_2x5 observation_2x6 2 5 [2; 4] 10
           fresh_state (1 # 2) rollout_2x5_ok H2 H3 H4 H5 H6 H7 H8).
Defined.

End CompileThenMerge.

(** ** The rollout loop *)

Section StackFacts.

Lemma np_or_inv (a b c : list bool) :
  np_or a b = Ok c ->
  length a = length b /\ c = map (fun p => orb (fst p) (snd p)) (combine a b).
Proof.
  unfold np_or. destruct (Nat.eqb_spec (length a) (length b)) as [E | E];
    intros H; [ | discriminate].
  injection H as <-. split; [assumption | reflexivity].
Qed.

Lemma np_or_same_length (a b : list bool) :
  length a = length b ->
  np_or a b = Ok (map (fun p => orb (fst p) (snd p)) (combine a b)).
Proof. intros E. unfold np_or. now rewrite E, Nat.eqb_refl. Qed.

Lemma np_or_length (a b c : list bool) : np_or a b = Ok c -> length c = length b.
Proof.
  intros H. apply np_or_inv in H as [Hl ->].
  rewrite length_map, length_combine. lia.
Qed.

Lemma or_implied_r (a b : list bool) :
  length a = length b ->
  Forall2 (fun x y : bool => x = true -> y = true) b
    (map (fun p => orb (fst p) (snd p)) (combine a b)).
Proof.
  revert b. induction a as [ | x a IH]; intros [ | y b] E; simpl in *;
    try discriminate; constructor.
  - intros ->. apply orb_true_r.
  - apply IH. lia.
Qed.

Lemma or_all_l (a b : list bool) :
  length a = length b -> np_all a = true ->
  np_all (map (fun p => orb (fst p) (snd p)) (combine a b)) = true.
Proof.
  revert b. induction a as [ | x a IH]; intros [ | y b] E H; simpl in *;
    try discriminate; [reflexivity | ].
  apply andb_true_iff in H as [-> H]. simpl. apply IH; [lia | assumption].
Qed.

Lemma or_all_r (a b : list bool) :
  length a = length b -> np_all b = true ->
  np_all (map (fun p => orb (fst p) (snd p)) (combine a b)) = true.
Proof.
  revert b. induction a as [ | x a IH]; intros [ | y b] E H; simpl in *;
    try discriminate; [reflexivity | ].
  apply andb_true_iff in H as [-> H]. rewrite orb_true_r. simpl.
  apply IH; [lia | assumption].
Qed.

Lemma np_all_repeat_true (n : nat) : np_all (repeat true n) = true.
Proof. induction n; simpl; auto. Qed.

Lemma np_all_repeat_false (n : nat) : (0 < n)%nat -> np_all (repeat false n) = false.
Proof. destruct n; [lia | reflexivity]. Qed.







Lemma stack_dim1_ok {A : Type} (b : nat) (cols : list (list A)) :
  Forall (fun c => length c = b) cols -> cols <> [] ->
  stack_dim1 cols = Ok {| n_cols := length cols; rows := transpose b cols |}.
Proof.
  intros Hf Hne. destruct cols as [ | c0 rest]; [contradiction | ].
  unfold stack_dim1. inversion Hf as [ | ? ? Hc Hrest]; subst.
  replace (forallb _ rest) with true; [reflexivity | ].
  symmetry. apply forallb_forall. intros c Hin.
  rewrite Forall_forall in Hrest. rewrite (Hrest c Hin). apply Nat.eqb_refl.
Qed.


Lemma stack_dim1_shaped_ok {A S : Type} (shape_of : A -> S) (same : S -> S -> bool)
    (b : nat) (s : S) (cols : list (list A)) :
  same s s = true ->
  Forall (fun c => length c = b) cols ->
  Forall (Forall (fun x => shape_of x = s)) cols ->
  cols <> [] ->
  stack_dim1_shaped shape_of same cols
  = Ok {| n_cols := length cols; rows := transpose b cols |}.
Proof.
  intros Hs Hf Hsh Hne. destruct cols as [ | c0 rest]; [contradiction | ].
  unfold stack_dim1_shaped.
  inversion Hf as [ | ? ? Hc Hrest]; subst. inversion Hsh as [ | ? ? Hs0 Hsrest]; subst.
  replace (forallb _ rest) with true; [reflexivity | ].
  symmetry. apply forallb_forall. intros c Hin.
  rewrite Forall_forall in Hrest, Hsrest. rewrite (Hrest c Hin), Nat.eqb_refl. simpl.
  apply forallb_forall. intros [x y] Hxy.
  specialize (Hsrest c Hin). rewrite Forall_forall in Hsrest, Hs0. cbn [fst snd].
  rewrite (Hsrest x (in_combine_l _ _ _ _ Hxy)), (Hs0 y (in_combine_r _ _ _ _ Hxy)).
  exact Hs.
Qed.

Lemma shape_eqb_refl (s : list Z) : shape_eqb s s = true.
Proof.
  unfold shape_eqb. rewrite Nat.eqb_refl. simpl.
  induction s as [ | x s IH]; simpl; [reflexivity | ].
  now rewrite Z.eqb_refl.
Qed.

Lemma map_result_inv {A B : Type} (f : A -> result B) (l : list A) (ys : list B) :
  map_result f l = Ok ys -> Forall2 (fun x y => f x = Ok y) l ys.
Proof.
  revert ys. induction l as [ | x l IH]; simpl; intros ys H.
  - injection H as <-. constructor.
  - destruct (f x) as [y | e] eqn:Ex; simpl in H; [ | discriminate].
    destruct (map_result f l) as [ys' | e] eqn:El; simpl in H; [ | discriminate].
    injection H as <-. constructor; auto.
Qed.

Lemma map_result_ok {A B : Type} (f : A -> result B) (g : A -> B) (l : list A) :
  (forall x, In x l -> f x = Ok (g x)) -> map_result f l = Ok (map g l).
Proof.
  induction l as [ | x l IH]; simpl; intros H; [reflexivity | ].
  rewrite (H x (or_introl eq_refl)). simpl. rewrite IH; [reflexivity | ].
  intros y Hy. apply H. now right.
Qed.

Lemma lookup_key_in {A : Type} (key : String.string) (d : list (String.string * A)) (v : A) :
  lookup_key key d = Ok v -> In (key, v) d.
Proof.
  induction d as [ | [k w] d IH]; simpl; intros H; [discriminate | ].
  destruct (String.eqb_spec k key) as [-> | _].
  - injection H as <-. now left.
  - right. auto.
Qed.

Lemma lookup_key_found {A : Type} (key : String.string) (d : list (String.string * A)) :
  In key (map fst d) -> exists v, lookup_key key d = Ok v.
Proof.
  induction d as [ | [k w] d IH]; simpl; intros H; [contradiction | ].
  destruct (String.eqb_spec k key) as [-> | Hne].
  - now exists w.
  - destruct H as [H | H]; [contradiction | auto].
Qed.

End StackFacts.

Section DoneRows.

Local Abbreviation implies := (fun x y : bool => x = true -> y = true).
Local Abbreviation first_done := (fun (x : bool) (k : nat) => x = true -> k = O).



Lemma columns_cumulative_snoc (cols : list (list bool)) (d c : list bool) :
  columns_cumulative cols ->
  (cols <> [] -> Forall2 implies (last cols d) c) ->
  columns_cumulative (cols ++ [c]).
Proof.
  induction cols as [ | c0 cols IH]; intros Hc Hl.
  - simpl. auto.
  - destruct cols as [ | c1 cols].
    + simpl. split; [ | auto]. apply Hl. discriminate.
    + destruct Hc as [H01 Hc]. split; [exact H01 | ].
      apply IH; [exact Hc | ]. intros _. apply Hl. discriminate.
Qed.








End DoneRows.

Section RolloutLoop.

Variables Env Pol RawObs : Type.
Variable num_envs : nat.
Variable env_reset : Env -> list Z -> Env * RawObs.
Variable env_step : Env -> list (list Q) -> Env * step_result RawObs.
Variable env_max_episode_steps : Env -> list Z.
Variable policy_reset : Pol -> Pol.
Variable select_action : Pol -> observation_step -> Pol * action_tensor.
Variable preprocess_observation : RawObs -> observation_step.

Local Abbreviation step :=
  (rollout_step num_envs env_step select_action preprocess_observation).
Local Abbreviation loop :=
  (rollout_loop num_envs env_step select_action preprocess_observation).
Local Abbreviation ret := (rollout_ret preprocess_observation).
Local Abbreviation run :=
  (rollout num_envs env_reset env_step env_max_episode_steps policy_reset
     select_action preprocess_observation).

(** The lists after one more step. *)
Local Abbreviation appended :=
  (fun (ro : bool) (acc : rollout_lists) (obs : observation_step)
       (action : action_tensor) (sr : step_result RawObs) (done' : list bool) =>
     {| r_all_observations :=
          if ro then r_all_observations acc ++ [obs] else r_all_observations acc;
        r_all_actions := r_all_actions acc ++ [at_rows action];
        r_all_rewards := r_all_rewards acc ++ [sr_reward sr];
        r_all_successes :=
          r_all_successes acc ++ [successes_of num_envs (sr_final_info sr)];
        r_all_dones := r_all_dones acc ++ [done'] |}).

Lemma rollout_step_inv (ro : bool) (env : Env) (pol : Pol) (observation : RawObs)
    (acc : rollout_lists) (done : list bool)
    (env' : Env) (pol' : Pol) (observation' : RawObs)
    (acc' : rollout_lists) (done' : list bool) :
  step ro env pol observation acc done = Ok (env', pol', observation', acc', done') ->
  exists action sr tt_or,
    select_action pol (preprocess_observation observation) = (pol', action)
    /\ at_ndim action = 2
    /\ env_step env (at_rows action) = (env', sr)
    /\ observation' = sr_observation sr
    /\ np_or (sr_terminated sr) (sr_truncated sr) = Ok tt_or
    /\ np_or tt_or done = Ok done'
    /\ acc' = appended ro acc (preprocess_observation observation) action sr done'.
Proof.
  unfold rollout_step. intros H.
  destruct (select_action pol _) as [pol1 action] eqn:Esel.
  unfold assert_ in H.
  destruct (at_ndim action =? 2) eqn:End; cbn [bind] in H; [ | discriminate].
  destruct (env_step env (at_rows action)) as [env1 sr] eqn:Estep.
  destruct (np_or (sr_terminated sr) (sr_truncated sr)) as [tt_or | ] eqn:E1;
    cbn [bind] in H; [ | discriminate].
  destruct (np_or tt_or done) as [d1 | ] eqn:E2; cbn [bind] in H; [ | discriminate].
  destruct (stack_dim1 _) eqn:E3; cbn [bind] in H; [ | discriminate].
  injection H as <- <- <- <- <-. exists action, sr, tt_or.
  repeat split; auto. now apply Z.eqb_eq.
Qed.




Lemma dones_inv_start : dones_inv num_envs no_steps (repeat false num_envs).
Proof.
  unfold dones_inv, no_steps; simpl. rewrite repeat_length.
  repeat split; auto. intros H. now contradiction H.
Qed.

Lemma dones_inv_step (ro : bool) (env : Env) (pol : Pol) (o : RawObs)
    (acc : rollout_lists) (done : list bool)
    (env' : Env) (pol' : Pol) (o' : RawObs) (acc' : rollout_lists) (done' : list bool) :
  dones_inv num_envs acc done -> np_all done = false ->
  step ro env pol o acc done = Ok (env', pol', o', acc', done') ->
  dones_inv num_envs acc' done'.
Proof.
  intros (Hd & Hlen & Hlast & Hcum & Hnot & Hpos) Hnd H.
  apply rollout_step_inv in H
    as (action & sr & tt_or & _ & _ & _ & _ & _ & E2 & ->).
  pose proof (np_or_length _ _ E2) as Hl2.
  apply np_or_inv in E2 as [Hl Hdone'].
  unfold dones_inv; cbn [r_all_dones]. repeat split.
  - lia.
  - apply Forall_app. split; [exact Hlen | ]. constructor; [lia | constructor].
  - apply last_last.
  - apply columns_cumulative_snoc with (d := repeat false num_envs); [exact Hcum | ].
    intros _. rewrite Hlast, Hdone'. now apply or_implied_r.
  - rewrite removelast_last.
    destruct (r_all_dones acc) as [ | c cols] eqn:E; [constructor | ].
    rewrite (app_removelast_last (repeat false num_envs) (l := c :: cols)); [ | discriminate].
    apply Forall_app. split; [exact Hnot | ].
    constructor; [ | constructor]. now rewrite Hlast.
  - intros _. destruct done as [ | x done]; [discriminate | ]. simpl in Hd. lia.
Qed.




End RolloutLoop.



Section StackedShapes.


Lemma lookup_columns_length (b : nat) (key : String.string)
    (all : list observation_step) (cols : list (list tensor)) :
  Forall (Forall (fun kv : String.string * list tensor => length (snd kv) = b)) all ->
  Forall2 (fun o col => lookup_key key o = Ok col) all cols ->
  Forall (fun c => length c = b) cols.
Proof.
  intros Hall H. induction H as [ | o col all cols Hl _ IH]; constructor;
    inversion Hall as [ | ? ? Ho Hrest]; subst; auto.
  apply lookup_key_in in Hl. rewrite Forall_forall in Ho. apply (Ho _ Hl).
Qed.


Lemma map_result_total {A B : Type} (f : A -> result B) (l : list A) :
  (forall x, In x l -> exists y, f x = Ok y) -> exists ys, map_result f l = Ok ys.
Proof.
  induction l as [ | x l IH]; simpl; intros H; [now exists [] | ].
  destruct (H x (or_introl eq_refl)) as [y ->].
  destruct IH as [ys ->]; [intros z Hz; apply H; now right | ].
  exists (y :: ys). reflexivity.
Qed.

Lemma lookup_columns_shape (frame_shape : String.string -> list Z) (key : String.string)
    (all : list observation_step) (cols : list (list tensor)) :
  Forall (Forall (fun kv : String.string * list tensor =>
                    Forall (fun t => t_shape t = frame_shape (fst kv)) (snd kv))) all ->
  Forall2 (fun o col => lookup_key key o = Ok col) all cols ->
  Forall (Forall (fun t => t_shape t = frame_shape key)) cols.
Proof.
  intros Hall H. induction H as [ | o col all cols Hl _ IH]; constructor;
    inversion Hall as [ | ? ? Ho Hrest]; subst; auto.
  apply lookup_key_in in Hl. rewrite Forall_forall in Ho. apply (Ho _ Hl).
Qed.

Lemma stack_observations_total (b : nat) (keys : list String.string)
    (frame_shape : String.string -> list Z) (all : list observation_step) :
  all <> [] ->
  Forall (fun o : observation_step => map fst o = keys) all ->
  Forall (Forall (fun kv : String.string * list tensor => length (snd kv) = b)) all ->
  Forall (Forall (fun kv : String.string * list tensor =>
                    Forall (fun t => t_shape t = frame_shape (fst kv)) (snd kv))) all ->
  exists stacked, stack_observations all = Ok stacked.
Proof.
  intros Hne Hkeys Hall Hshapes. unfold stack_observations.
  rewrite (getitem_first ([] : observation_step) Hne). cbn [bind].
  apply map_result_total. intros kv Hkv.
  assert (Hin : In (fst kv) keys).
  { destruct all as [ | o all]; [contradiction | ]. simpl in Hkv.
    inversion Hkeys as [ | ? ? Ho _]; subst. now apply in_map. }
  destruct (@map_result_total _ _ (lookup_key (fst kv)) all) as [cols Ec].
  { intros o Ho. apply lookup_key_found. rewrite Forall_forall in Hkeys.
    now rewrite (Hkeys o Ho). }
  rewrite Ec. cbn [bind]. apply map_result_inv in Ec.
  pose proof (@lookup_columns_length b (fst kv) all cols Hall Ec) as Hcols.
  pose proof (Forall2_length Ec) as Hlen.
  pose proof (@lookup_columns_shape frame_shape (fst kv) all cols Hshapes Ec) as Hsh.
  rewrite (stack_dim1_shaped_ok t_shape shape_eqb (shape_eqb_refl _) Hcols Hsh);
    [cbn [bind]; eauto | ].
  destruct cols; [destruct all; [contradiction | discriminate] | discriminate].
Qed.

End StackedShapes.

Section RolloutContract.

Variables Env Pol RawObs : Type.
Variable num_envs : nat.
Variable env_reset : Env -> list Z -> Env * RawObs.
Variable env_step : Env -> list (list Q) -> Env * step_result RawObs.
Variable env_max_episode_steps : Env -> list Z.
Variable policy_reset : Pol -> Pol.
Variable select_action : Pol -> observation_step -> Pol * action_tensor.
Variable preprocess_observation : RawObs -> observation_step.

Local Abbreviation step :=
  (rollout_step num_envs env_step select_action preprocess_observation).
Local Abbreviation loop :=
  (rollout_loop num_envs env_step select_action preprocess_observation).
Local Abbreviation ret := (rollout_ret preprocess_observation).
Local Abbreviation run :=
  (rollout num_envs env_reset env_step env_max_episode_steps policy_reset
     select_action preprocess_observation).

(** The policy, the environment and the preprocessing return one entry per
    environment. *)
Hypothesis Haction :
  forall pol obs, length (at_rows (snd (select_action pol obs))) = num_envs.
Hypothesis Hreward :
  forall env a, length (sr_reward (snd (env_step env a))) = num_envs.
Hypothesis Hsuccess :
  forall env a,
    length (successes_of num_envs (sr_final_info (snd (env_step env a)))) = num_envs.
Hypothesis Hframes :
  forall raw,
    Forall (fun kv : String.string * list tensor => length (snd kv) = num_envs)
      (preprocess_observation raw).

Lemma lists_inv_start (ro : bool) : lists_inv num_envs ro no_steps.
Proof. unfold lists_inv, no_steps; simpl. repeat split; auto. Qed.

Lemma lists_inv_step (ro : bool) (env : Env) (pol : Pol) (o : RawObs)
    (acc : rollout_lists) (done : list bool)
    (env' : Env) (pol' : Pol) (o' : RawObs) (acc' : rollout_lists) (done' : list bool) :
  lists_inv num_envs ro acc ->
  step ro env pol o acc done = Ok (env', pol', o', acc', done') ->
  lists_inv num_envs ro acc'.
Proof.
  intros (Ha & Hr & Hs & Ho & Fa & Fr & Fs & Fo) H.
  apply rollout_step_inv in H
    as (action & sr & tt_or & Esel & _ & Estep & _ & _ & _ & ->).
  assert (Hact : length (at_rows action) = num_envs).
  { rewrite <- (Haction pol (preprocess_observation o)), Esel. reflexivity. }
  assert (Hrew : length (sr_reward sr) = num_envs).
  { rewrite <- (Hreward env (at_rows action)), Estep. reflexivity. }
  assert (Hsuc : length (successes_of num_envs (sr_final_info sr)) = num_envs).
  { rewrite <- (Hsuccess env (at_rows action)) at 2. rewrite Estep. reflexivity. }
  unfold lists_inv;
    cbn [r_all_observations r_all_actions r_all_rewards r_all_successes r_all_dones].
  repeat split.
  - rewrite !length_app. simpl. lia.
  - rewrite !length_app. simpl. lia.
  - rewrite !length_app. simpl. lia.
  - intros ->. rewrite !length_app. simpl. rewrite (Ho eq_refl). lia.
  - apply Forall_app. split; [exact Fa | ]. constructor; [exact Hact | constructor].
  - apply Forall_app. split; [exact Fr | ]. constructor; [exact Hrew | constructor].
  - apply Forall_app. split; [exact Fs | ]. constructor; [exact Hsuc | constructor].
  - destruct ro; [ | exact Fo].
    apply Forall_app. split; [exact Fo | ]. constructor; [apply Hframes | constructor].
Qed.


(** Moreover: there is an environment, the policy returns two-dimensional
    actions of [action_dim] entries, the flags have one entry per
    environment, the observations of every step have the same keys and,
    under each key, frames of one shape, and at every step every
    environment either ends its episode or comes closer to the end of it
    ([remaining i env] bounds the steps environment [i] still takes). *)
Variable keys : list String.string.
Variable action_dim : nat.
Variable frame_shape : String.string -> list Z.
Variable remaining : nat -> Env -> nat.
Hypothesis Hpos : (0 < num_envs)%nat.
Hypothesis Hmax : forall env, env_max_episode_steps env <> [].
Hypothesis Hndim : forall pol obs, at_ndim (snd (select_action pol obs)) = 2.
Hypothesis Hflags :
  forall env a,
    length (sr_terminated (snd (env_step env a))) = num_envs
    /\ length (sr_truncated (snd (env_step env a))) = num_envs.
Hypothesis Hkeys : forall raw, map fst (preprocess_observation raw) = keys.
Hypothesis Haction_dim :
  forall pol obs,
    Forall (fun row => length row = action_dim) (at_rows (snd (select_action pol obs))).
Hypothesis Hframe_shape :
  forall raw,
    Forall (fun kv : String.string * list tensor =>
              Forall (fun t => t_shape t = frame_shape (fst kv)) (snd kv))
      (preprocess_observation raw).
Hypothesis Hepisodic :
  forall env a i, (i < num_envs)%nat ->
    nth i (sr_terminated (snd (env_step env a))) false = true
    \/ nth i (sr_truncated (snd (env_step env a))) false = true
    \/ (remaining i (fst (env_step env a)) < remaining i env)%nat.

Local Abbreviation or_flags :=
  (fun a b : list bool => map (fun p => orb (fst p) (snd p)) (combine a b)).

Lemma nth_or (a b : list bool) (i : nat) :
  length a = length b ->
  nth i (or_flags a b) false = nth i a false || nth i b false.
Proof.
  revert b i. induction a as [ | x a IH]; intros [ | y b] i E; simpl in *;
    try discriminate.
  - now destruct i.
  - destruct i as [ | i]; [reflexivity | ]. apply IH. lia.
Qed.

Lemma np_all_nth (l : list bool) :
  (forall i, (i < length l)%nat -> nth i l false = true) -> np_all l = true.
Proof.
  induction l as [ | x l IH]; intros H; simpl; [reflexivity | ].
  pose proof (H O) as H0. simpl in H0. rewrite H0 by lia. simpl. apply IH.
  intros i Hi. apply (H (S i)). simpl. lia.
Qed.

Lemma rollout_loop_done (fuel : nat) (ro : bool) (env : Env) (pol : Pol) (o : RawObs)
    (acc : rollout_lists) (done : list bool) :
  np_all done = true -> loop fuel ro env pol o acc done = Some (Ok (env, pol, o, acc)).
Proof. intros H. destruct fuel; simpl; now rewrite H. Qed.

Lemma rollout_step_total (ro : bool) (env : Env) (pol : Pol) (o : RawObs)
    (acc : rollout_lists) (done : list bool)
    (pol' : Pol) (action : action_tensor) (env' : Env) (sr : step_result RawObs) :
  length done = num_envs ->
  Forall (fun c => length c = num_envs) (r_all_successes acc) ->
  select_action pol (preprocess_observation o) = (pol', action) ->
  env_step env (at_rows action) = (env', sr) ->
  let done' := or_flags (or_flags (sr_terminated sr) (sr_truncated sr)) done in
  step ro env pol o acc done
  = Ok (env', pol', sr_observation sr,
        {| r_all_observations :=
             if ro then r_all_observations acc ++ [preprocess_observation o]
             else r_all_observations acc;
           r_all_actions := r_all_actions acc ++ [at_rows action];
           r_all_rewards := r_all_rewards acc ++ [sr_reward sr];
           r_all_successes :=
             r_all_successes acc ++ [successes_of num_envs (sr_final_info sr)];
           r_all_dones := r_all_dones acc ++ [done'] |},
        done').
Proof.
  intros Hd Fs Esel Estep done'. unfold rollout_step. rewrite Esel.
  pose proof (Hndim pol (preprocess_observation o)) as Hnd. rewrite Esel in Hnd.
  simpl in Hnd. unfold assert_. rewrite Hnd. cbn [Z.eqb Pos.eqb bind]. rewrite Estep.
  destruct (Hflags env (at_rows action)) as [Hte Htr]. rewrite Estep in Hte, Htr.
  simpl in Hte, Htr.
  rewrite np_or_same_length by lia. cbn [bind].
  rewrite np_or_same_length by (rewrite length_map, length_combine; lia). cbn [bind].
  cbn [r_all_successes].
  rewrite (@stack_dim1_ok _ num_envs).
  - reflexivity.
  - apply Forall_app. split; [exact Fs | ]. constructor; [ | constructor].
    pose proof (Hsuccess env (at_rows action)) as Hs. rewrite Estep in Hs. exact Hs.
  - destruct (r_all_successes acc); discriminate.
Qed.

Lemma steps_alike_step (ro : bool) (env : Env) (pol : Pol) (o : RawObs)
    (acc : rollout_lists) (done : list bool)
    (env' : Env) (pol' : Pol) (o' : RawObs) (acc' : rollout_lists) (done' : list bool) :
  steps_alike keys action_dim frame_shape acc ->
  step ro env pol o acc done = Ok (env', pol', o', acc', done') ->
  steps_alike keys action_dim frame_shape acc'.
Proof.
  intros (HK & HF & HA) H.
  apply rollout_step_inv in H as (action & sr & tt_or & Esel & _ & _ & _ & _ & _ & ->).
  unfold steps_alike. cbn [r_all_observations r_all_actions]. repeat split.
  - destruct ro; [ | exact HK].
    apply Forall_app. split; [exact HK | ]. constructor; [apply Hkeys | constructor].
  - destruct ro; [ | exact HF].
    apply Forall_app. split; [exact HF | ].
    constructor; [apply Hframe_shape | constructor].
  - apply Forall_app. split; [exact HA | ]. constructor; [ | constructor].
    pose proof (Haction_dim pol (preprocess_observation o)) as Hd.
    rewrite Esel in Hd. exact Hd.
Qed.

Lemma rollout_loop_total (ro : bool) :
  forall (f : nat) (env : Env) (pol : Pol) (o : RawObs)
         (acc : rollout_lists) (done : list bool),
    dones_inv num_envs acc done -> lists_inv num_envs ro acc ->
    steps_alike keys action_dim frame_shape acc ->
    (forall i, (i < num_envs)%nat -> nth i done false = false ->
               (remaining i env < f)%nat) ->
    exists env' pol' o' acc' done',
      (forall fuel, (f <= fuel)%nat ->
         loop fuel ro env pol o acc done = Some (Ok (env', pol', o', acc')))
      /\ dones_inv num_envs acc' done' /\ lists_inv num_envs ro acc'
      /\ steps_alike keys action_dim frame_shape acc' /\ np_all done' = true
      /\ (length (r_all_dones acc') <= length (r_all_dones acc) + f)%nat.
Proof.
  induction f as [ | f IH]; intros env pol o acc done HD HL HK Hrem.
  - assert (Hall : np_all done = true).
    { apply np_all_nth. intros i Hi.
      destruct (nth i done false) eqn:E; [reflexivity | exfalso].
      destruct HD as (Hd & _). rewrite Hd in Hi. specialize (Hrem i Hi E). lia. }
    exists env, pol, o, acc, done.
    split; [intros fuel _; now apply rollout_loop_done | ].
    split; [exact HD | ]. split; [exact HL | ]. split; [exact HK | ].
    split; [exact Hall | lia].
  - destruct (np_all done) eqn:Hnd.
    + exists env, pol, o, acc, done.
      split; [intros fuel _; now apply rollout_loop_done | ].
      split; [exact HD | ]. split; [exact HL | ]. split; [exact HK | ].
      split; [exact Hnd | lia].
    + destruct (select_action pol (preprocess_observation o)) as [pol1 action] eqn:Esel.
      destruct (env_step env (at_rows action)) as [env1 sr] eqn:Estep.
      pose proof HD as (Hd & _). pose proof HL as (_ & _ & _ & _ & _ & _ & Fs & _).
      pose proof (@rollout_step_total ro env pol o acc done pol1 action env1 sr
                    Hd Fs Esel Estep) as Hstep.
      cbv zeta in Hstep.
      set (done1 := or_flags (or_flags (sr_terminated sr) (sr_truncated sr)) done) in *.
      match type of Hstep with
      | _ = Ok (_, _, _, ?a, _) => set (acc1 := a) in *
      end.
      assert (HD1 : dones_inv num_envs acc1 done1) by (eapply dones_inv_step; eassumption).
      assert (HL1 : lists_inv num_envs ro acc1) by (eapply lists_inv_step; eassumption).
      assert (HK1 : steps_alike keys action_dim frame_shape acc1)
        by (eapply steps_alike_step; eassumption).
      assert (Hrem1 : forall i, (i < num_envs)%nat -> nth i done1 false = false ->
                                (remaining i env1 < f)%nat).
      { intros i Hi E. unfold done1 in E.
        destruct (Hflags env (at_rows action)) as [Hte Htr].
        rewrite Estep in Hte, Htr. simpl in Hte, Htr.
        rewrite nth_or in E by (rewrite length_map, length_combine; lia).
        rewrite nth_or in E by lia.
        apply orb_false_iff in E as [E Edone]. apply orb_false_iff in E as [Ete Etr].
        pose proof (Hepisodic env (at_rows action) Hi) as Hep. rewrite Estep in Hep.
        simpl in Hep. specialize (Hrem i Hi Edone).
        destruct Hep as [Hep | [Hep | Hep]]; [congruence | congruence | lia]. }
      destruct (IH env1 pol1 (sr_observation sr) acc1 done1 HD1 HL1 HK1 Hrem1)
        as (env' & pol' & o' & acc' & done' & Hloop & HD' & HL' & HK' & Hall' & Hlen').
      exists env', pol', o', acc', done'.
      split; [ | split; [exact HD' | split; [exact HL' | split; [exact HK' | ]]]].
      * intros fuel Hfuel. destruct fuel as [ | fuel]; [lia | ].
        simpl. rewrite Hnd. rewrite Hstep. apply Hloop. lia.
      * split; [exact Hall' | ].
        unfold acc1 in Hlen'. cbn [r_all_dones] in Hlen'.
        rewrite length_app in Hlen'. simpl in Hlen'. lia.
Qed.

Lemma rollout_ret_total (ro : bool) (o : RawObs) (acc : rollout_lists) (done : list bool) :
  dones_inv num_envs acc done -> np_all done = true ->
  lists_inv num_envs ro acc -> steps_alike keys action_dim frame_shape acc ->
  exists rd, ret ro o acc = Ok rd /\ n_cols (rd_done rd) = length (r_all_dones acc).
Proof.
  intros (Hd & Fd & Hlast & _) Hall (Ha & Hr & Hs & Ho & Fa & Fr & Fs & Fo) (HK & HF & HA).
  assert (Hne : r_all_dones acc <> []).
  { intros E. rewrite E in Hlast. simpl in Hlast. rewrite <- Hlast in Hall.
    rewrite np_all_repeat_false in Hall by exact Hpos. discriminate. }
  assert (Hlen : (0 < length (r_all_dones acc))%nat).
  { destruct (r_all_dones acc); [contradiction | simpl; lia]. }
  unfold rollout_ret.
  rewrite (stack_dim1_shaped_ok (@length Q) Nat.eqb (Nat.eqb_refl action_dim) Fa HA)
    by (destruct (r_all_actions acc); [simpl in Ha; lia | discriminate]).
  cbn [bind].
  rewrite (stack_dim1_ok Fr) by (destruct (r_all_rewards acc); [simpl in Hr; lia | discriminate]).
  cbn [bind].
  rewrite (stack_dim1_ok Fs) by (destruct (r_all_successes acc); [simpl in Hs; lia | discriminate]).
  cbn [bind].
  rewrite (stack_dim1_ok Fd Hne). cbn [bind].
  destruct ro.
  - destruct (@stack_observations_total num_envs keys frame_shape
                (r_all_observations acc ++ [preprocess_observation o])) as [stacked ->].
    + destruct (r_all_observations acc); discriminate.
    + apply Forall_app. split; [exact HK | ]. constructor; [apply Hkeys | constructor].
    + apply Forall_app. split; [exact Fo | ]. constructor; [apply Hframes | constructor].
    + apply Forall_app. split; [exact HF | ].
      constructor; [apply Hframe_shape | constructor].
    + cbn [bind]. eexists. split; reflexivity.
  - cbn [bind]. eexists. split; reflexivity.
Qed.

(** With environments whose episodes end, a policy that returns
    two-dimensional actions of one size, arrays of one entry per
    environment and observations of the same keys and shapes at every step,
    [rollout] returns: it raises nothing, its loop ends, and when every
    environment ends its episode within [T] steps of the reset it takes at
    most [T] steps. *)
Theorem rollout_returns_within_episode_length (T : nat) (env : Env) (pol : Pol)
    (seeds : list Z) (ro : bool) :
  (forall i, (i < num_envs)%nat -> (remaining i (fst (env_reset env seeds)) < T)%nat) ->
  exists env' pol' rd,
    (forall fuel, (T <= fuel)%nat ->
       rollout num_envs env_reset env_step env_max_episode_steps policy_reset
         select_action preprocess_observation fuel env pol seeds ro
       = Some (Ok (env', pol', rd)))
    /\ (0 < n_cols (rd_done rd) <= T)%nat.
Proof.
  intros Hrem. destruct (env_reset env seeds) as [env0 o0] eqn:Ereset. simpl in Hrem.
  destruct (@rollout_loop_total ro T env0 (policy_reset pol) o0 no_steps
              (repeat false num_envs))
    as (env' & pol' & o' & acc' & done' & Hloop & HD' & HL' & HK' & Hall' & Hlen').
  - apply dones_inv_start.
  - apply lists_inv_start.
  - repeat split; constructor.
  - intros i Hi _. now apply Hrem.
  - destruct (@rollout_ret_total ro o' acc' done' HD' Hall' HL' HK') as (rd & Hret & Hn).
    exists env', pol', rd. split.
    + intros fuel Hfuel. unfold rollout. rewrite Ereset.
      rewrite (getitem_first 0 (@Hmax env0)).
      change {| r_all_observations := []; r_all_actions := []; r_all_rewards := [];
                r_all_successes := []; r_all_dones := [] |} with no_steps.
      rewrite (Hloop fuel Hfuel), Hret. reflexivity.
    + rewrite Hn. simpl in Hlen'. split; [ | lia].
      destruct HD' as (_ & _ & Hlast & _).
      destruct (r_all_dones acc'); [ | simpl; lia].
      simpl in Hlast. rewrite <- Hlast in Hall'.
      rewrite np_all_repeat_false in Hall' by exact Hpos. discriminate.
Qed.

End RolloutContract.


Lemma rollout_returns_within_episode_length_witness :
  exists env' pol' rd,
    (forall fuel, (5 <= fuel)%nat ->
       episodic_rollout fuel true = Some (Ok (env', pol', rd)))
    /\ (0 < n_cols (rd_done rd) <= 5)%nat.
Proof.
  refine (@rollout_returns_within_episode_length _ _ _ 2%nat
            episodic_env_reset episodic_env_step episodic_env_max_episode_steps
            constant_policy_reset constant_policy_select_action
            constant_preprocess_observation _ _ _ _
            ["observation.image"%string; "observation.state"%string] 1%nat
            frame_shape_2x6 episodic_remaining _ _ _ _ _ _ _ _
            5%nat (O, O) tt [0; 1] true _).
  - intros pol obs. reflexivity.
  - intros env a. reflexivity.
  - intros [e0 e1] a.
    destruct e0 as [ | [ | e0]]; destruct e1 as [ | [ | [ | [ | e1]]]]; reflexivity.
  - intros raw. repeat constructor.
  - lia.
  - intros env. discriminate.
  - intros pol obs. reflexivity.
  - intros env a. split; reflexivity.
  - intros raw. reflexivity.
  - intros pol obs. repeat constructor.
  - intros raw. repeat constructor.
  - intros [e0 e1] a i Hi. destruct i as [ | [ | i]]; [ | | lia].
    + destruct e0 as [ | [ | e0]]; simpl;
        [right; right; lia | right; right; lia | left; reflexivity].
    + destruct e1 as [ | [ | [ | [ | e1]]]]; simpl;
        [right; right; lia | right; right; lia | right; right; lia
         | right; right; lia | left; reflexivity].
  - intros i Hi. destruct i as [ | [ | i]]; simpl; lia.
Defined.

(** ** The episode data of [eval_policy] *)

Section ContiguousEpisodes.

Lemma argmax_from_lt (l : list Z) :
  forall best best_ix ix,
    (best_ix < ix)%nat -> (argmax_from best best_ix ix l < ix + length l)%nat.
Proof.
  induction l as [ | x l IH]; intros best best_ix ix H; simpl; [lia | ].
  destruct (best <? x).
  - pose proof (IH x ix (S ix) ltac:(lia)). lia.
  - pose proof (IH best best_ix (S ix) ltac:(lia)). lia.
Qed.

Lemma argmax_row_lt (l : list Z) : l <> [] -> (argmax_row l < length l)%nat.
Proof.
  destruct l as [ | x l]; [contradiction | intros _].
  simpl. pose proof (@argmax_from_lt l x 0%nat 1%nat ltac:(lia)). lia.
Qed.

(** The done indices of a tensor with at least one step lie within the
    steps. *)
Lemma resolve_boundaries_bounds (done : tensor2 bool) (batch n_steps : nat) :
  length (rows done) = batch ->
  Forall (fun r => length r = n_steps) (rows done) ->
  (0 < n_steps)%nat -> (0 < n_cols done)%nat ->
  exists done_indices,
    resolve_boundaries done = Ok (done_indices, validity_mask (n_cols done) done_indices)
    /\ length done_indices = batch
    /\ Forall (fun d => 0 <= d < Z.of_nat n_steps) done_indices.
Proof.
  intros Hb Hrows Hn Hc. eexists. split; [ | split].
  - unfold resolve_boundaries. rewrite (done_indices_of_ok _ Hc). reflexivity.
  - now rewrite length_map.
  - apply Forall_map. eapply Forall_impl; [ | exact Hrows]. intros r Hr. cbv beta in Hr |- *.
    assert (Hne : map int_of_bool r <> []) by (destruct r; [simpl in Hr; lia | discriminate]).
    pose proof (argmax_row_lt Hne) as Hlt. rewrite length_map in Hlt. lia.
Qed.

Lemma sum_Z_app (a b : list Z) : sum_Z (a ++ b) = sum_Z a + sum_Z b.
Proof. induction a as [ | x a IH]; simpl; [reflexivity | rewrite IH; lia]. Qed.

Lemma sum_Z_pos (w : list Z) : w <> [] -> Forall (fun x => 1 <= x) w -> 1 <= sum_Z w.
Proof.
  intros Hne H. destruct H as [ | x w Hx Hw]; [contradiction | ]. simpl.
  assert (0 <= sum_Z w); [ | lia].
  apply sum_Z_nonneg. eapply Forall_impl; [ | exact Hw]. simpl. intros; lia.
Qed.

Lemma consecutive_ranges_app (a b : list Z) :
  forall start,
    consecutive_ranges start (a ++ b)
    = consecutive_ranges start a ++ consecutive_ranges (start + sum_Z a) b.
Proof.
  induction a as [ | x a IH]; intros s; simpl.
  - now rewrite Z.add_0_r.
  - rewrite IH. do 3 f_equal. lia.
Qed.

Lemma episode_runs_app (a b : list Z) :
  forall start,
    episode_runs start (a ++ b) = episode_runs start a ++ episode_runs (start + len a) b.
Proof.
  induction a as [ | x a IH]; intros s; simpl.
  - unfold len; simpl. now rewrite Z.add_0_r.
  - rewrite IH, <- app_assoc. do 3 f_equal. unfold len; simpl length. lia.
Qed.

Lemma episode_runs_of_range (f : Z -> Z) (s : Z) (n : nat) :
  forall lo,
    concat (map (fun ix => list_times (s + ix) (f ix)) (range lo (lo + Z.of_nat n)))
    = episode_runs (s + lo) (map f (range lo (lo + Z.of_nat n))).
Proof.
  induction n as [ | n IH]; intros lo.
  - unfold range. replace (Z.to_nat (lo + Z.of_nat 0 - lo)) with O by lia. reflexivity.
  - rewrite range_cons by lia. cbn [map concat episode_runs]. f_equal.
    replace (lo + Z.of_nat (S n)) with (lo + 1 + Z.of_nat n) by lia.
    rewrite IH. f_equal. lia.
Qed.

Lemma episode_runs_head (s w : Z) (ws : list Z) :
  1 <= w -> exists rest, episode_runs s (w :: ws) = s :: rest.
Proof.
  intros H. simpl. unfold list_times.
  destruct (Z.to_nat w) as [ | k] eqn:E; [lia | ]. simpl. eexists. reflexivity.
Qed.

Lemma episode_runs_last (ws : list Z) :
  forall s, ws <> [] -> Forall (fun w => 1 <= w) ws ->
            last (episode_runs s ws) 0 = s + len ws - 1.
Proof.
  induction ws as [ | w ws IH]; intros s Hne H; [contradiction | ].
  inversion H as [ | ? ? Hw Hws]; subst.
  destruct ws as [ | w' ws].
  - simpl. rewrite app_nil_r. unfold list_times.
    destruct (Z.to_nat w) as [ | k] eqn:E; [lia | ].
    rewrite last_repeat. unfold len; simpl. lia.
  - change (episode_runs s (w :: w' :: ws))
      with (list_times s w ++ episode_runs (s + 1) (w' :: ws)).
    destruct (@episode_runs_head (s + 1) w' ws) as [rest Hrest];
      [inversion Hws; assumption | ].
    rewrite last_app_nonempty by (rewrite Hrest; discriminate).
    rewrite IH by (auto; discriminate). unfold len; simpl length. lia.
Qed.

Lemma concatenate_observation_ok (frame_shape : String.string -> list Z)
    (a : list (String.string * column)) :
  forall b,
    map fst a = map fst b ->
    Forall (column_kind_ok frame_shape) a -> Forall (column_kind_ok frame_shape) b ->
    exists c,
      concatenate_observation a b = Ok c
      /\ map fst c = map fst a
      /\ Forall (column_kind_ok frame_shape) c.
Proof.
  induction a as [ | [k1 c1] a IH]; intros [ | [k2 c2] b] Hk Ha Hb;
    try discriminate.
  - exists []. repeat split. constructor.
  - simpl in Hk. injection Hk as Hk1 Hk. subst k2.
    inversion Ha as [ | ? ? Hc1 Ha']; subst. inversion Hb as [ | ? ? Hc2 Hb']; subst.
    destruct (IH b Hk Ha' Hb') as (c & Hc & Hkc & Hfc).
    simpl. rewrite String.eqb_refl. unfold column_kind_ok in Hc1, Hc2. simpl in Hc1, Hc2.
    destruct c1 as [x | n x], c2 as [y | m y].
    + cbn [bind]. rewrite Hc. cbn [bind]. eexists. split; [reflexivity | ].
      simpl. rewrite Hkc. split; [reflexivity | ]. constructor; auto.
    + destruct Hc2 as [Hc2 _]. congruence.
    + destruct Hc1 as [Hc1 _]. congruence.
    + destruct Hc1 as [Hk1 Hs1], Hc2 as [Hk2 Hs2].
      assert (n = m) by congruence. subst m. rewrite Z.eqb_refl.
      cbn [bind]. rewrite Hc. cbn [bind]. eexists. split; [reflexivity | ].
      simpl. rewrite Hkc. split; [reflexivity | ]. constructor; [ | exact Hfc].
      split; assumption.
Qed.

(** The columns made of tensors whose frames have the shapes of
    [frame_shape] have its features. *)
Lemma columns_of_tensors_kind (frame_shape : String.string -> list Z) (L : nat)
    (obs : list (String.string * list (list tensor)))
    (cols : list (String.string * column)) :
  Forall2 column_of_tensor obs cols ->
  Forall (fun kt => snd kt <> [] /\ Forall (fun r => length r = S L) (snd kt)) obs ->
  Forall (fun kt : String.string * list (list tensor) =>
            Forall (Forall (fun t => t_shape t = frame_shape (fst kt))) (snd kt)) obs ->
  map fst cols = map fst obs /\ Forall (column_kind_ok frame_shape) cols.
Proof.
  induction 1 as [ | kt kc obs cols [Hkey Hkind] _ IH]; intros Hne Hsh.
  - split; [reflexivity | constructor].
  - inversion Hne as [ | ? ? [Hne1 Hrows] Hne']; subst.
    inversion Hsh as [ | ? ? Hsh1 Hsh']; subst.
    destruct (IH Hne' Hsh') as [Hk Hc]. split; [simpl; now rewrite Hkey, Hk | ].
    constructor; [ | exact Hc].
    unfold column_kind_ok. rewrite Hkey.
    destruct (snd kc) as [imgs | n vals]; [exact Hkind | ].
    destruct Hkind as (Hik & _ & Hn). split; [exact Hik | ].
    destruct (snd kt) as [ | row t]; [contradiction | ].
    inversion Hrows as [ | ? ? Hrow _]; subst.
    destruct row as [ | frame row]; [discriminate | ].
    inversion Hn as [ | ? ? Hn1 _]; subst. inversion Hn1 as [ | ? ? Hf _]; subst.
    inversion Hsh1 as [ | ? ? Hs1 _]; subst. inversion Hs1 as [ | ? ? Hf' _]; subst.
    congruence.
Qed.

(** The compiler on a rollout batch, with any start indices. *)
Lemma compile_contiguous (frame_shape : String.string -> list Z) (rd : rollout_data)
    (obs : list (String.string * list (list tensor)))
    (batch n_steps : nat) (done_indices : list Z)
    (start_episode_index start_data_index : Z) (fps : Q) :
  rollout_ok rd obs batch n_steps ->
  Forall (fun kt : String.string * list (list tensor) =>
            Forall (Forall (fun t => t_shape t = frame_shape (fst kt))) (snd kt)) obs ->
  (0 < batch)%nat ->
  length done_indices = batch ->
  Forall (fun d => 0 <= d < Z.of_nat n_steps) done_indices ->
  exists rd' d edi widths,
    _compile_episode_data rd done_indices start_episode_index start_data_index fps
    = (rd', Ok (d, edi))
    /\ length widths = batch
    /\ Forall (fun w => 1 <= w) widths
    /\ contiguous_episodes start_episode_index start_data_index widths (map fst obs)
         frame_shape d edi.
Proof.
  intros Hok Hshapes Hbatch Hlen Hdone.
  destruct (compile_explicit start_episode_index start_data_index fps
              Hok Hbatch Hlen Hdone) as (obs' & vals & cols & _ & _ & Hrel & Hc).
  destruct (@columns_of_tensors_kind frame_shape n_steps obs cols Hrel)
    as [Hkeys Hkinds]; [ | exact Hshapes | ].
  { pose proof Hok as [_ _ _ _ Hf _ _ _ _].
    eapply Forall_impl; [ | exact Hf]. intros kt [Hk Hrows]. split; [ | exact Hrows].
    intros E. rewrite E in Hk. simpl in Hk. lia. }
  eexists _, _, _, (map (num_frames_at done_indices) (range 0 (Z.of_nat batch))).
  split; [exact Hc | ]. split; [ | split].
  - rewrite length_map, range_length. lia.
  - apply Forall_map, Forall_forall. intros ix Hix.
    apply in_range in Hix. unfold num_frames_at.
    assert (Hin : In (nth (Z.to_nat ix) done_indices 0) done_indices)
      by (apply nth_In; lia).
    rewrite Forall_forall in Hdone. specialize (Hdone _ Hin). lia.
  - unfold contiguous_episodes.
    cbn [col_episode_index col_index col_observation edi_from edi_to].
    repeat split; auto.
    rewrite map_map. cbn [ep_dict_at ep_episode_index].
    pose proof (@episode_runs_of_range (num_frames_at done_indices)
                  start_episode_index batch 0) as Hruns.
    rewrite Z.add_0_l, Z.add_0_r in Hruns. exact Hruns.
Qed.

End ContiguousEpisodes.

Section EvalEpisodes.

Variable World : Type.
Variable rollout : World -> list Z -> World * rollout_data.
Variables num_envs start_seed : Z.
Variable fps : Q.
Variable keys : list String.string.
Variable action_dim : nat.
Variable frame_shape : String.string -> list Z.

Hypothesis Hw : 0 < num_envs.
Hypothesis Hrollout :
  forall world seeds,
    episode_rollout keys action_dim frame_shape num_envs (snd (rollout world seeds)).

Lemma extend_episode_data_ok
    (episode_data : option (hf_dataset * episode_data_index)) (k : Z)
    (rd : rollout_data) (obs : list (String.string * list (list tensor)))
    (n_steps : nat) (done_indices : list Z) :
  0 <= k ->
  episodes_done keys frame_shape num_envs k episode_data ->
  rollout_ok rd obs (Z.to_nat num_envs) n_steps ->
  map fst obs = keys ->
  Forall (fun kt : String.string * list (list tensor) =>
            Forall (Forall (fun t => t_shape t = frame_shape (fst kt))) (snd kt)) obs ->
  length done_indices = Z.to_nat num_envs ->
  Forall (fun d => 0 <= d < Z.of_nat n_steps) done_indices ->
  exists episode_data',
    extend_episode_data episode_data rd done_indices k num_envs fps = Ok episode_data'
    /\ episodes_done keys frame_shape num_envs (k + 1) (Some episode_data').
Proof.
  intros Hk Hed Hok Hkeys Hshapes Hlen Hdone.
  assert (Hbatch : (0 < Z.to_nat num_envs)%nat) by lia.
  destruct episode_data as [[hf edi] | ].
  - destruct Hed as (Hk0 & W & HWl & HWp & (He & Hi & Hf & Ht & Hko & Hkinds)).
    assert (HWne : W <> []) by (intros E; subst W; unfold len in HWl; simpl in HWl; nia).
    pose proof (sum_Z_pos HWne HWp) as HWs.
    destruct (compile_contiguous frame_shape (k * num_envs) (sum_Z W) fps Hok Hshapes
                Hbatch Hlen Hdone)
      as (rd' & d & e & w & Hc & Hwl & Hwp & (He' & Hi' & Hf' & Ht' & Hko' & Hkinds')).
    assert (Hwne : w <> []) by (intros E; subst w; simpl in Hwl; lia).
    pose proof (sum_Z_pos Hwne Hwp) as Hws.
    assert (Hto : getitem (edi_to edi) (-1) = Ok (sum_Z W)).
    { rewrite (getitem_minus_one 0);
        [ | rewrite Ht; destruct W; [contradiction | discriminate]].
      rewrite Ht, consecutive_ranges_last by assumption. f_equal. }
    assert (H1 : getitem (col_episode_index hf) (-1) = Ok (k * num_envs - 1)).
    { rewrite He. destruct W as [ | w0 W']; [contradiction | ].
      destruct (@episode_runs_head 0 w0 W') as [rest Hrest];
        [inversion HWp; assumption | ].
      rewrite (getitem_minus_one 0) by (rewrite Hrest; discriminate).
      rewrite episode_runs_last by assumption. f_equal. lia. }
    assert (H2 : getitem (col_episode_index d) 0 = Ok (k * num_envs)).
    { rewrite He'. destruct w as [ | w0 w']; [contradiction | ].
      destruct (@episode_runs_head (k * num_envs) w0 w') as [rest Hrest];
        [inversion Hwp; assumption | ].
      rewrite Hrest. reflexivity. }
    assert (H3 : getitem (col_index hf) (-1) = Ok (sum_Z W - 1)).
    { rewrite Hi. rewrite (getitem_minus_one 0).
      - rewrite range_last by lia. f_equal.
      - rewrite range_cons by lia. discriminate. }
    assert (H4 : getitem (col_index d) 0 = Ok (sum_Z W)).
    { rewrite Hi', range_cons by lia. reflexivity. }
    assert (H5 : getitem (edi_from e) 0 = Ok (sum_Z W)).
    { rewrite Hf'. destruct w as [ | w0 w']; [contradiction | reflexivity]. }
    destruct (@concatenate_observation_ok frame_shape
                (col_observation hf) (col_observation d))
      as (c & Hcat & Hkc & Hfc); [congruence | assumption | assumption | ].
    unfold extend_episode_data. rewrite Hto. cbn [bind]. rewrite Hc. cbn [snd bind].
    rewrite H1, H2. cbn [bind].
    replace (k * num_envs - 1 + 1 =? k * num_envs) with true
      by (symmetry; apply Z.eqb_eq; lia).
    cbn [assert_ bind]. rewrite H3, H4. cbn [bind].
    replace (sum_Z W - 1 + 1 =? sum_Z W) with true by (symmetry; apply Z.eqb_eq; lia).
    cbn [assert_ bind]. rewrite H5. cbn [bind]. rewrite Z.eqb_refl.
    cbn [assert_ bind]. rewrite (concatenate_datasets_same _ _ Hcat). cbn [bind].
    eexists. split; [reflexivity | ].
    split; [lia | ]. exists (W ++ w). split; [ | split].
    + rewrite len_app, HWl. unfold len. rewrite Hwl. lia.
    + apply Forall_app. auto.
    + unfold contiguous_episodes.
      cbn [col_episode_index col_index col_observation edi_from edi_to].
      rewrite He, He', Hi, Hi', Hf, Hf', Ht, Ht'.
      rewrite episode_runs_app, consecutive_ranges_app, !map_app, sum_Z_app.
      rewrite HWl, !Z.add_0_l.
      repeat split; auto.
      * apply range_app; lia.
      * congruence.
  - simpl in Hed. subst k.
    destruct (compile_contiguous frame_shape 0 0 fps Hok Hshapes Hbatch Hlen Hdone)
      as (rd' & d & e & w & Hc & Hwl & Hwp & Hcont).
    unfold extend_episode_data. cbn [bind]. change (0 * num_envs) with 0.
    rewrite Hc. cbn [snd bind].
    eexists. split; [reflexivity | ].
    split; [lia | ]. exists w. split; [ | split]; auto.
    + unfold len. rewrite Hwl. lia.
    + now rewrite <- Hkeys.
Qed.

Lemma eval_batch_with_episodes_step
    (st : World * list (list Z) * metric_lists)
    (episode_data : option (hf_dataset * episode_data_index)) (k : Z) :
  0 <= k ->
  batches_done num_envs start_seed k st ->
  episodes_done keys frame_shape num_envs k episode_data ->
  exists st' episode_data',
    eval_batch_with_episodes rollout num_envs fps (Some start_seed) (st, episode_data) k
    = Ok (st', Some episode_data')
    /\ batches_done num_envs start_seed (k + 1) st'
    /\ episodes_done keys frame_shape num_envs (k + 1) (Some episode_data').
Proof.
  intros Hk Hst Hed.
  assert (Hbatch_of : forall world seeds,
             rollout_batch_of (snd (rollout world seeds)) num_envs).
  { intros world seeds.
    destruct (Hrollout world seeds) as (obs & n & _ & _ & H & _ & _ & _). exact H. }
  destruct (@eval_batch_step World rollout num_envs start_seed Hw Hbatch_of st k Hk Hst)
    as (st' & Hev & Hst').
  destruct st as [[world calls] acc].
  unfold eval_batch in Hev. unfold eval_batch_with_episodes. cbn [bind] in Hev |- *.
  pose proof (Hrollout world
                (range (start_seed + k * num_envs) (start_seed + (k + 1) * num_envs)))
    as (obs & n_steps & Hok & Hn & Hbo & Hkeys & _ & Hshapes).
  destruct (rollout world _) as [world' rd]. cbn [snd] in Hok, Hbo.
  destruct Hbo as (_ & _ & _ & Hcols).
  pose proof Hok as [_ _ _ [Hdl Hdr] _ _ _ _ _].
  destruct (@resolve_boundaries_bounds (rd_done rd) _ _ Hdl Hdr Hn Hcols)
    as (di & Hres & Hdil & Hdib).
  rewrite Hres in Hev |- *. cbn [bind fst snd] in Hev |- *.
  destruct (@extend_episode_data_ok episode_data k rd obs n_steps di
              Hk Hed Hok Hkeys Hshapes Hdil Hdib) as (ed' & Hext & Hed').
  rewrite Hext. cbn [bind]. injection Hev as <-.
  eexists _, ed'. split; [reflexivity | ]. split; assumption.
Qed.

Lemma eval_batches_with_episodes_run (m : nat) :
  forall (a : nat) (st : World * list (list Z) * metric_lists)
         (episode_data : option (hf_dataset * episode_data_index)),
    batches_done num_envs start_seed (Z.of_nat a) st ->
    episodes_done keys frame_shape num_envs (Z.of_nat a) episode_data ->
    exists st' episode_data',
      eval_batches_with_episodes rollout num_envs fps (Some start_seed)
        (st, episode_data) (map Z.of_nat (seq a m))
      = Ok (st', episode_data')
      /\ batches_done num_envs start_seed (Z.of_nat (a + m)) st'
      /\ episodes_done keys frame_shape num_envs (Z.of_nat (a + m)) episode_data'.
Proof.
  induction m as [ | m IH]; intros a st ed Hst Hed;
    cbn [seq map eval_batches_with_episodes].
  - exists st, ed. rewrite Nat.add_0_r. auto.
  - destruct (@eval_batch_with_episodes_step st ed (Z.of_nat a) (Zle_0_nat a) Hst Hed)
      as (st1 & ed1 & -> & Hst1 & Hed1).
    cbn [bind].
    replace (Z.of_nat a + 1) with (Z.of_nat (S a)) in Hst1, Hed1 by lia.
    destruct (IH (S a) st1 (Some ed1) Hst1 Hed1) as (st' & ed' & Hrun & Hst' & Hed').
    exists st', ed'. split; [exact Hrun | ].
    replace (a + S m)%nat with (S a + m)%nat by lia. auto.
Qed.

Lemma compile_eval_info_ok (acc : metric_lists) (n_episodes total : Z) :
  0 < n_episodes <= total ->
  len (sum_rewards acc) = total -> len (max_rewards acc) = total ->
  len (all_successes acc) = total -> len (all_seeds acc) = total ->
  exists info,
    compile_eval_info acc n_episodes = Ok info
    /\ len (per_episode info) = n_episodes.
Proof.
  intros Hn Hs Hm Ha Hsd.
  assert (Hlen : forall (A : Type) (l : list A),
             len l = total ->
             length (firstn (Z.to_nat n_episodes) l) = Z.to_nat n_episodes).
  { intros A l Hl. rewrite length_firstn. unfold len in Hl. lia. }
  destruct (@zip4_strict_ok _ _ _ _
              (firstn (Z.to_nat n_episodes) (sum_rewards acc))
              (firstn (Z.to_nat n_episodes) (max_rewards acc))
              (firstn (Z.to_nat n_episodes) (all_successes acc))
              (firstn (Z.to_nat n_episodes) (all_seeds acc)))
    as (zipped & Hzip & Hz1 & _);
    try (rewrite !Hlen by assumption; reflexivity).
  assert (Hzlen : len zipped = n_episodes).
  { rewrite <- (len_map (fun t => fst (fst (fst t)))), Hz1.
    unfold len. rewrite Hlen by assumption. lia. }
  unfold compile_eval_info. rewrite !slice_to_firstn by lia. rewrite Hzip. cbn [bind].
  destruct (Z.eqb_spec n_episodes 0) as [E | _]; [lia | ]. cbn [bind].
  eexists. split; [reflexivity | ]. cbn [per_episode].
  rewrite len_map. rewrite <- (len_map fst), enumerate_from_fst, range_len; lia.
Qed.

(** The call with [return_episode_data=True] on collaborators whose
    rollouts can be compiled. *)
Lemma eval_policy_with_episodes_run (world : World) (n_episodes : Z) :
  0 < n_episodes ->
  let n_batches := n_episodes / num_envs
                   + int_of_bool (negb (n_episodes mod num_envs =? 0)) in
  exists world' calls info hf edi widths,
    eval_policy_with_episodes rollout world num_envs n_episodes (Some start_seed) fps
    = Ok (world', calls, info, Some (hf, edi))
    /\ (n_batches - 1) * num_envs < n_episodes <= n_batches * num_envs
    /\ len (per_episode info) = n_episodes
    /\ len widths = n_batches * num_envs
    /\ Forall (fun w => 1 <= w) widths
    /\ contiguous_episodes 0 0 widths keys frame_shape hf edi.
Proof.
  intros Hn n_batches.
  pose proof (ceil_batches Hn Hw) as Hceil. cbv zeta in Hceil. fold n_batches in Hceil.
  assert (Hnb : 0 < n_batches) by nia.
  assert (Hinit : batches_done num_envs start_seed (Z.of_nat 0) (world, [], no_metrics)).
  { unfold batches_done, no_metrics; simpl.
    repeat split. unfold range. now replace (start_seed + 0 - start_seed) with 0 by lia. }
  destruct (@eval_batches_with_episodes_run (Z.to_nat n_batches) O
              (world, [], no_metrics) None Hinit eq_refl)
    as ([[world' calls] full] & ed & Hrun & Hdone & Hed).
  rewrite Nat.add_0_l, Z2Nat.id in Hdone, Hed by lia.
  rewrite <- range_0, Z2Nat.id in Hrun by lia.
  destruct Hdone as (Hs & Hm & Ha & Hseeds & Hcalls). cbn [fst snd] in *.
  destruct ed as [[hf edi] | ]; [ | simpl in Hed; lia].
  destruct Hed as (_ & widths & HWl & HWp & Hcont).
  destruct (@compile_eval_info_ok full n_episodes (n_batches * num_envs))
    as (info & Hinfo & Hlen); auto; try lia.
  { rewrite Hseeds, range_len; nia. }
  exists world', calls, info, hf, edi, widths.
  split; [ | auto].
  unfold eval_policy_with_episodes, floordiv, pymod.
  destruct (Z.eqb_spec num_envs 0) as [E | _]; [lia | ]. cbn [bind].
  fold n_batches. unfold no_metrics in Hrun. rewrite Hrun. cbn [bind].
  rewrite Hinfo. reflexivity.
Qed.

End EvalEpisodes.

Section EvalEpisodesTheorems.

Variable World : Type.
Variable rollout : World -> list Z -> World * rollout_data.

(** With [return_episode_data=True], on collaborators whose every rollout
    is a batch the compiler accepts, with [num_envs] rows, at least one
    step, actions of one size and observations under the same keys and of
    the same shapes (valid images, and vectors under the other keys),
    [eval_policy] returns and none of its three sanity checks between
    batches fails.  The episodes of all batches are numbered 0, 1, 2, ...
    in the episode-index column, the frames are numbered without gaps from
    0, the range of every episode starts where the previous one ends, and
    every episode has at least one frame. *)
Theorem eval_policy_episode_data_is_contiguous
    (world : World) (num_envs n_episodes start_seed : Z) (fps : Q)
    (keys : list String.string) (action_dim : nat)
    (frame_shape : String.string -> list Z) :
  0 < n_episodes -> 0 < num_envs ->
  (forall wd seeds,
      episode_rollout keys action_dim frame_shape num_envs (snd (rollout wd seeds))) ->
  exists world' calls info hf edi widths,
    eval_policy_with_episodes rollout world num_envs n_episodes (Some start_seed) fps
    = Ok (world', calls, info, Some (hf, edi))
    /\ Forall (fun w => 1 <= w) widths
    /\ col_episode_index hf = episode_runs 0 widths
    /\ col_index hf = range 0 (sum_Z widths)
    /\ edi_from edi = map fst (consecutive_ranges 0 widths)
    /\ edi_to edi = map snd (consecutive_ranges 0 widths)
    /\ map fst (col_observation hf) = keys.
Proof.
  intros Hn Hw Hrollout.
  destruct (@eval_policy_with_episodes_run World rollout num_envs start_seed fps keys
              action_dim frame_shape Hw Hrollout world n_episodes Hn)
    as (world' & calls & info & hf & edi & widths & Hcall & _ & _ & _ & Hpos
        & (He & Hi & Hf & Ht & Hk & _)).
  exists world', calls, info, hf, edi, widths.
  rewrite Z.add_0_l in Hi. auto 10.
Qed.

(** With [return_episode_data=True], on the same collaborators, the
    episode data are not cut to
    [n_episodes]: the metrics have [n_episodes] entries, the episode data
    hold every episode of every batch, [n_batches * num_envs] of them, which
    is more than [n_episodes] whenever [num_envs] does not divide
    [n_episodes]. *)
Theorem eval_policy_episode_data_keeps_whole_batches
    (world : World) (num_envs n_episodes start_seed : Z) (fps : Q)
    (keys : list String.string) (action_dim : nat)
    (frame_shape : String.string -> list Z) :
  0 < n_episodes -> 0 < num_envs ->
  (forall wd seeds,
      episode_rollout keys action_dim frame_shape num_envs (snd (rollout wd seeds))) ->
  let n_batches := n_episodes / num_envs
                   + int_of_bool (negb (n_episodes mod num_envs =? 0)) in
  exists world' calls info hf edi,
    eval_policy_with_episodes rollout world num_envs n_episodes (Some start_seed) fps
    = Ok (world', calls, info, Some (hf, edi))
    /\ len (per_episode info) = n_episodes
    /\ len (edi_from edi) = n_batches * num_envs
    /\ len (edi_to edi) = n_batches * num_envs
    /\ n_episodes <= n_batches * num_envs < n_episodes + num_envs
    /\ (n_episodes mod num_envs <> 0 -> len (per_episode info) < len (edi_from edi)).
Proof.
  intros Hn Hw Hrollout n_batches.
  destruct (@eval_policy_with_episodes_run World rollout num_envs start_seed fps keys
              action_dim frame_shape Hw Hrollout world n_episodes Hn)
    as (world' & calls & info & hf & edi & widths & Hcall & Hceil & Hlen & HWl & _
        & (_ & _ & Hf & Ht & _ & _)).
  fold n_batches in Hceil, HWl.
  assert (Hfl : len (edi_from edi) = n_batches * num_envs).
  { rewrite Hf, len_map. unfold len. rewrite consecutive_ranges_length. exact HWl. }
  assert (Htl : len (edi_to edi) = n_batches * num_envs).
  { rewrite Ht, len_map. unfold len. rewrite consecutive_ranges_length. exact HWl. }
  exists world', calls, info, hf, edi.
  repeat split; auto; try lia.
  intros Hmod. rewrite Hlen, Hfl. subst n_batches.
  pose proof (Z.div_mod n_episodes num_envs ltac:(lia)) as Hdm.
  pose proof (Z.mod_pos_bound n_episodes num_envs Hw) as Hb.
  destruct (Z.eqb_spec (n_episodes mod num_envs) 0) as [E | E]; [contradiction | ].
  simpl. nia.
Qed.

(** Composition of [eval_policy] and the merger, on the same
    collaborators: the episode data returned with
    [return_episode_data=True] pass the four sanity checks of
    [add_episodes_inplace]. *)
Theorem eval_policy_episode_data_is_accepted_by_merger
    (world : World) (num_envs n_episodes start_seed : Z) (fps : Q)
    (keys : list String.string) (action_dim : nat)
    (frame_shape : String.string -> list Z) :
  0 < n_episodes -> 0 < num_envs ->
  (forall wd seeds,
      episode_rollout keys action_dim frame_shape num_envs (snd (rollout wd seeds))) ->
  exists world' calls info hf edi,
    eval_policy_with_episodes rollout world num_envs n_episodes (Some start_seed) fps
    = Ok (world', calls, info, Some (hf, edi))
    /\ ~ incoming_violation hf edi
    /\ check_incoming hf edi = Ok (len (edi_from edi) - 1, len (col_index hf) - 1).
Proof.
  intros Hn Hw Hrollout.
  destruct (@eval_policy_with_episodes_run World rollout num_envs start_seed fps keys
              action_dim frame_shape Hw Hrollout world n_episodes Hn)
    as (world' & calls & info & hf & edi & widths & Hcall & Hceil & _ & HWl & HWp
        & (He & Hi & Hf & Ht & _ & _)).
  rewrite Z.add_0_l in Hi.
  assert (HWne : widths <> []).
  { intros E. subst widths. unfold len in HWl. simpl in HWl. nia. }
  pose proof (sum_Z_pos HWne HWp) as HWs.
  assert (Hlast : last (col_episode_index hf) 0 = len widths - 1).
  { rewrite He, episode_runs_last by assumption. lia. }
  assert (Hfl : len (edi_from edi) = len widths).
  { rewrite Hf, len_map. unfold len. now rewrite consecutive_ranges_length. }
  assert (Htl : len (edi_to edi) = len widths).
  { rewrite Ht, len_map. unfold len. now rewrite consecutive_ranges_length. }
  assert (Hhd : exists rest, col_episode_index hf = 0 :: rest).
  { rewrite He. destruct widths as [ | w0 ws]; [contradiction | ].
    apply episode_runs_head. inversion HWp; assumption. }
  destruct Hhd as [rest Hhd].
  exists world', calls, info, hf, edi. split; [exact Hcall | ].
  destruct (@check_incoming_spec hf edi) as [[Hv _] | [Hnv Hchk]].
  - rewrite Hhd. discriminate.
  - rewrite Hi, range_cons by lia. discriminate.
  - rewrite Hf. destruct widths; [contradiction | discriminate].
  - rewrite Hlast. unfold len. destruct widths; [contradiction | cbn [length]; lia].
  - rewrite Hlast, Htl. lia.
  - exfalso. unfold incoming_violation in Hv.
    rewrite Hhd, Hi, range_head, range_last, Hf, Ht in Hv by lia.
    rewrite consecutive_ranges_last in Hv by assumption.
    destruct widths as [ | w0 ws]; [contradiction | ]. cbn in Hv.
    destruct Hv as [Hv | [Hv | [Hv | Hv]]]; try (now apply Hv); lia.
  - split; [exact Hnv | ]. rewrite Hchk, Hlast, Hfl, Hi, range_last, range_len by lia.
    f_equal. f_equal. lia.
Qed.

End EvalEpisodesTheorems.

Lemma eval_policy_episode_data_is_contiguous_witness :
  0 < 3 /\ 0 < 2
  /\ (forall wd seeds,
        episode_rollout ["observation.image"%string; "observation.state"%string]
          1 frame_shape_2x6 2 (snd (constant_rollout wd seeds)))
  /\ exists world' calls info hf edi widths,
       eval_policy_with_episodes constant_rollout tt 2 3 (Some 7) 10
       = Ok (world', calls, info, Some (hf, edi))
       /\ Forall (fun w => 1 <= w) widths
       /\ col_episode_index hf = episode_runs 0 widths
       /\ col_index hf = range 0 (sum_Z widths)
       /\ edi_from edi = map fst (consecutive_ranges 0 widths)
       /\ edi_to edi = map snd (consecutive_ranges 0 widths)
       /\ map fst (col_observation hf)
          = ["observation.image"%string; "observation.state"%string].
Proof.
  assert (H1 : 0 < 3) by lia.
  assert (H2 : 0 < 2) by lia.
  assert (H3 : forall wd seeds,
             episode_rollout ["observation.image"%string; "observation.state"%string]
               1 frame_shape_2x6 2 (snd (constant_rollout wd seeds))).
  { intros wd seeds. exists observation_2x6, 5%nat.
    split; [exact rollout_2x5_ok | ]. split; [lia | ].
    split; [unfold rollout_batch_of; simpl; repeat split; lia | ].
    split; [reflexivity | ]. split; repeat constructor. }
  split; [exact H1 | ]. split; [exact H2 | ]. split; [exact H3 | ].
  exact (@eval_policy_episode_data_is_contiguous unit constant_rollout tt 2 3 7 10
           ["observation.image"%string; "observation.state"%string]
           1%nat frame_shape_2x6 H1 H2 H3).
Defined.

Lemma eval_policy_episode_data_keeps_whole_batches_witness :
  0 < 3 /\ 0 < 2
  /\ (forall wd seeds,
        episode_rollout ["observation.image"%string; "observation.state"%string]
          1 frame_shape_2x6 2 (snd (constant_rollout wd seeds)))
  /\ exists world' calls info hf edi,
       eval_policy_with_episodes constant_rollout tt 2 3 (Some 7) 10
       = Ok (world', calls, info, Some (hf, edi))
       /\ len (per_episode info) = 3
       /\ len (edi_from edi) = 4
       /\ len (edi_to edi) = 4
       /\ 3 <= 4 < 3 + 2
       /\ (3 mod 2 <> 0 -> len (per_episode info) < len (edi_from edi)).
Proof.
  assert (H1 : 0 < 3) by lia.
  assert (H2 : 0 < 2) by lia.
  assert (H3 : forall wd seeds,
             episode_rollout ["observation.image"%string; "observation.state"%string]
               1 frame_shape_2x6 2 (snd (constant_rollout wd seeds))).
  { intros wd seeds. exists observation_2x6, 5%nat.
    split; [exact rollout_2x5_ok | ]. split; [lia | ].
    split; [unfold rollout_batch_of; simpl; repeat split; lia | ].
    split; [reflexivity | ]. split; repeat constructor. }
  split; [exact H1 | ]. split; [exact H2 | ]. split; [exact H3 | ].
  exact (@eval_policy_episode_data_keeps_whole_batches unit constant_rollout tt 2 3 7 10
           ["observation.image"%string; "observation.state"%string]
           1%nat frame_shape_2x6 H1 H2 H3).
Defined.

Lemma eval_policy_episode_data_is_accepted_by_merger_witness :
  0 < 3 /\ 0 < 2
  /\ (forall wd seeds,
        episode_rollout ["observation.image"%string; "observation.state"%string]
          1 frame_shape_2x6 2 (snd (constant_rollout wd seeds)))
  /\ exists world' calls info hf edi,
       eval_policy_with_episodes constant_rollout tt 2 3 (Some 7) 10
       = Ok (world', calls, info, Some (hf, edi))
       /\ ~ incoming_violation hf edi
       /\ check_incoming hf edi = Ok (len (edi_from edi) - 1, len (col_index hf) - 1).
Proof.
  assert (H1 : 0 < 3) by lia.
  assert (H2 : 0 < 2) by lia.
  assert (H3 : forall wd seeds,
             episode_rollout ["observation.image"%string; "observation.state"%string]
               1 frame_shape_2x6 2 (snd (constant_rollout wd seeds))).
  { intros wd seeds. exists observation_2x6, 5%nat.
    split; [exact rollout_2x5_ok | ]. split; [lia | ].
    split; [unfold rollout_batch_of; simpl; repeat split; lia | ].
    split; [reflexivity | ]. split; repeat constructor. }
  split; [exact H1 | ]. split; [exact H2 | ]. split; [exact H3 | ].
  exact (@eval_policy_episode_data_is_accepted_by_merger unit constant_rollout tt 2 3 7 10
           ["observation.image"%string; "observation.state"%string]
           1%nat frame_shape_2x6 H1 H2 H3).
Defined.

Section EvalEdgeCases.

Variable World : Type.
Variable rollout : World -> list Z -> World * rollout_data.

Lemma range_empty (lo hi : Z) : hi <= lo -> range lo hi = [].
Proof. intros H. unfold range. now replace (Z.to_nat (hi - lo)) with O by lia. Qed.

(** Without [start_seed] (its default), a call that needs at least one
    batch raises [TypeError] when it computes the seeds of the first batch,
    with or without [return_episode_data]. *)
Theorem eval_policy_without_seed_raises
    (world : World) (num_envs n_episodes : Z) (fps : Q) :
  0 < n_episodes -> 0 < num_envs ->
  eval_policy rollout world num_envs n_episodes None = Raise TypeError
  /\ eval_policy_with_episodes rollout world num_envs n_episodes None fps
     = Raise TypeError.
Proof.
  intros Hn Hw. pose proof (ceil_batches Hn Hw) as Hceil. cbv zeta in Hceil.
  set (n_batches := n_episodes / num_envs
                    + int_of_bool (negb (n_episodes mod num_envs =? 0))) in *.
  assert (Hnb : 0 < n_batches) by nia.
  unfold eval_policy, eval_policy_with_episodes, floordiv, pymod.
  destruct (Z.eqb_spec num_envs 0) as [E | _]; [lia | ]. cbn [bind].
  fold n_batches. rewrite range_cons by lia. split; reflexivity.
Qed.

(** The edge cases of the batch count: with no environment the call raises
    [ZeroDivisionError] at once; with [n_episodes = 0] no rollout is made
    and the call raises [ZeroDivisionError] when it divides the elapsed time
    by [n_episodes]; with a negative [n_episodes] no rollout is made and the
    call returns no per-episode entry and NaN for every aggregated
    metric. *)
Theorem eval_policy_edge_cases
    (world : World) (num_envs n_episodes : Z) (start_seed : option Z) :
  (num_envs = 0 ->
   eval_policy rollout world num_envs n_episodes start_seed = Raise ZeroDivisionError)
  /\ (0 < num_envs -> n_episodes = 0 ->
      eval_policy rollout world num_envs n_episodes start_seed
      = Raise ZeroDivisionError)
  /\ (0 < num_envs -> n_episodes < 0 ->
      eval_policy rollout world num_envs n_episodes start_seed
      = Ok (world, [],
            {| per_episode := [];
               aggregated := {| avg_sum_reward := None; avg_max_reward := None;
                                pc_success := None |} |})).
Proof.
  split; [ | split].
  - intros ->. reflexivity.
  - intros Hw ->. unfold eval_policy, floordiv, pymod.
    destruct (Z.eqb_spec num_envs 0) as [E | _]; [lia | ]. cbn [bind].
    rewrite Z.div_0_l, Z.mod_0_l by lia. reflexivity.
  - intros Hw Hn. unfold eval_policy, floordiv, pymod.
    destruct (Z.eqb_spec num_envs 0) as [E | _]; [lia | ]. cbn [bind].
    rewrite range_empty.
    + cbn [eval_batches bind sum_rewards max_rewards all_successes all_seeds].
      assert (Hs : forall (A : Type), slice_to (@nil A) n_episodes = []).
      { intros A. unfold slice_to. destruct (n_episodes <? 0); apply firstn_nil. }
      rewrite !Hs. cbn [zip4_strict bind enumerate_from map nanmean option_map].
      destruct (Z.eqb_spec n_episodes 0) as [E | _]; [lia | ]. reflexivity.
    + pose proof (Z.div_mod n_episodes num_envs ltac:(lia)) as Hdm.
      pose proof (Z.mod_pos_bound n_episodes num_envs Hw) as Hb.
      destruct (Z.eqb_spec (n_episodes mod num_envs) 0) as [E | E]; simpl; nia.
Qed.

End EvalEdgeCases.

Lemma eval_policy_without_seed_raises_witness :
  0 < 5 /\ 0 < 2
  /\ eval_policy constant_rollout tt 2 5 None = Raise TypeError
  /\ eval_policy_with_episodes constant_rollout tt 2 5 None 10 = Raise TypeError.
Proof.
  assert (H1 : 0 < 5) by lia.
  assert (H2 : 0 < 2) by lia.
  split; [exact H1 | ]. split; [exact H2 | ].
  exact (@eval_policy_without_seed_raises unit constant_rollout tt 2 5 10 H1 H2).
Defined.

Lemma eval_policy_edge_cases_witness :
  eval_policy constant_rollout tt 0 5 (Some 7) = Raise ZeroDivisionError
  /\ eval_policy constant_rollout tt 2 0 (Some 7) = Raise ZeroDivisionError
  /\ eval_policy constant_rollout tt 2 (-3) (Some 7)
     = Ok (tt, [],
           {| per_episode := [];
              aggregated := {| avg_sum_reward := None; avg_max_reward := None;
                               pc_success := None |} |}).
Proof.
  split; [ | split].
  - apply (proj1 (@eval_policy_edge_cases unit constant_rollout tt 0 5 (Some 7))).
    reflexivity.
  - apply (proj1 (proj2 (@eval_policy_edge_cases unit constant_rollout tt 2 0 (Some 7))));
      [lia | reflexivity].
  - apply (proj2 (proj2 (@eval_policy_edge_cases unit constant_rollout tt 2 (-3) (Some 7))));
      lia.
Defined.

(** ** The optimizer factory *)

Section OptimizerFactory.

Lemma filter_split_permutation {A : Type} (f g : A -> bool) (l : list A) :
  Permutation (filter (fun x => negb (f x) && g x) l ++ filter (fun x => f x && g x) l)
              (filter g l).
Proof.
  induction l as [ | x l IH]; simpl; [constructor | ].
  destruct (f x), (g x); simpl; auto.
  apply Permutation_sym, Permutation_cons_app, Permutation_sym, IH.
Qed.

Lemma filter_map_snd {A B : Type} (g : B -> bool) (l : list (A * B)) :
  filter g (map snd l) = map snd (filter (fun x => g (snd x)) l).
Proof.
  induction l as [ | x l IH]; simpl; [reflexivity | ].
  destruct (g (snd x)); simpl; now rewrite IH.
Qed.

(** For the policy named ["act"] the factory returns an [AdamW] over two
    parameter groups and no scheduler.  The two groups together hold the
    trainable parameters of the policy, each entry of
    [policy.named_parameters()] once: under a name that starts with
    ["backbone"] in the second group, which has the learning rate
    [lr_backbone], otherwise in the first, which has none of its own; a
    parameter that does not require a gradient is in neither. *)
Theorem act_groups_partition_trainable_parameters (cfg : config) (policy : policy_module) :
  cfg_policy_name cfg = "act"%string ->
  exists g1 g2,
    make_optimizer_and_scheduler cfg policy
    = Returned (AdamW [ {| pg_params := g1; pg_lr := None |};
                        {| pg_params := g2; pg_lr := Some (tr_lr_backbone cfg) |} ]
                  (tr_lr cfg) (tr_weight_decay cfg)) None
    /\ Permutation (g1 ++ g2) (filter requires_grad (parameters policy))
    /\ (forall n p, In (n, p) (named_parameters policy) -> requires_grad p = true ->
                    if is_backbone n then In p g2 else In p g1)
    /\ Forall (fun p => requires_grad p = true) (g1 ++ g2).
Proof.
  intros Hname. unfold make_optimizer_and_scheduler. rewrite Hname. cbn [String.eqb].
  change (String.eqb "act" "act") with true. cbv iota.
  eexists _, _. split; [reflexivity | ]. split; [ | split].
  - unfold parameters. rewrite filter_map_snd, <- map_app. apply Permutation_map.
    apply (filter_split_permutation (fun np => is_backbone (fst np))
             (fun np => requires_grad (snd np))).
  - intros n p Hin Hg. destruct (is_backbone n) eqn:Eb.
    + apply in_map_iff. exists (n, p). split; [reflexivity | ].
      apply filter_In. split; [exact Hin | ]. simpl. now rewrite Eb, Hg.
    + apply in_map_iff. exists (n, p). split; [reflexivity | ].
      apply filter_In. split; [exact Hin | ]. simpl. now rewrite Eb, Hg.
  - apply Forall_app. split; apply Forall_forall; intros p Hp;
      apply in_map_iff in Hp as ([n q] & <- & Hq); apply filter_In in Hq as [_ Hq];
      simpl in Hq; apply andb_true_iff in Hq; tauto.
Qed.

End OptimizerFactory.

Lemma act_groups_partition_trainable_parameters_witness :
  cfg_policy_name act_config = "act"%string
  /\ exists g1 g2,
       make_optimizer_and_scheduler act_config act_policy
       = Returned (AdamW [ {| pg_params := g1; pg_lr := None |};
                           {| pg_params := g2;
                              pg_lr := Some (tr_lr_backbone act_config) |} ]
                     (tr_lr act_config) (tr_weight_decay act_config)) None
       /\ Permutation (g1 ++ g2) (filter requires_grad (parameters act_policy))
       /\ (forall n p, In (n, p) (named_parameters act_policy) ->
                       requires_grad p = true ->
                       if is_backbone n then In p g2 else In p g1)
       /\ Forall (fun p => requires_grad p = true) (g1 ++ g2).
Proof.
  assert (H : cfg_policy_name act_config = "act"%string) by reflexivity.
  split; [exact H | ].
  exact (@act_groups_partition_trainable_parameters act_config act_policy H).
Defined.

(** ** The progress counters of the logging functions *)

Section ProgressLogger.

Lemma lookup_set_same (d : info_dict) (key : String.string) (v : value) :
  lookup_key key (dict_set d key v) = Ok v.
Proof.
  induction d as [ | [k w] d IH]; simpl.
  - now rewrite String.eqb_refl.
  - destruct (String.eqb_spec k key) as [-> | Hne]; simpl.
    + now rewrite String.eqb_refl.
    + destruct (String.eqb_spec k key); [contradiction | exact IH].
Qed.

Lemma lookup_set_other (d : info_dict) (key key' : String.string) (v : value) :
  key <> key' -> lookup_key key' (dict_set d key v) = lookup_key key' d.
Proof.
  intros Hne. induction d as [ | [k w] d IH]; simpl.
  - destruct (String.eqb_spec key key'); [contradiction | reflexivity].
  - destruct (String.eqb_spec k key) as [-> | Hk]; simpl.
    + destruct (String.eqb_spec key key'); [contradiction | reflexivity].
    + destruct (String.eqb_spec k key'); [reflexivity | exact IH].
Qed.

Lemma lookup_key_missing {A : Type} (key : String.string) (d : list (String.string * A)) :
  ~ In key (map fst d) -> lookup_key key d = Raise KeyError.
Proof.
  induction d as [ | [k w] d IH]; simpl; intros H; [reflexivity | ].
  destruct (String.eqb_spec k key) as [-> | Hne]; [exfalso; auto | auto].
Qed.

Lemma reads_ok (info : info_dict) (reads : list String.string) :
  Forall (fun key => In key (map fst info)) reads ->
  exists vs, map_result (fun key => lookup_key key info) reads = Ok vs.
Proof.
  intros H. apply map_result_total. intros key Hkey.
  rewrite Forall_forall in H. apply lookup_key_found. auto.
Qed.

Lemma reads_fail (info : info_dict) (reads : list String.string) :
  Exists (fun key => ~ In key (map fst info)) reads ->
  map_result (fun key => lookup_key key info) reads = Raise KeyError.
Proof.
  induction 1 as [key reads Hkey | key reads _ IH]; simpl.
  - now rewrite (lookup_key_missing _ _ Hkey).
  - destruct (lookup_key key info) as [v | e] eqn:E; cbn [bind].
    + now rewrite IH.
    + destruct (in_dec String.string_dec key (map fst info)) as [Hin | Hnin].
      * destruct (lookup_key_found _ _ Hin) as [v Hv]. congruence.
      * rewrite (lookup_key_missing _ _ Hnin) in E. congruence.
Qed.

Lemma inject_Z_zero (n : Z) : (inject_Z n == 0)%Q <-> n = 0.
Proof. unfold Qeq; simpl. lia. Qed.

Lemma progress_counters_ok (step batch_size : Z) (dataset : dataset_size) :
  ds_num_samples dataset <> 0 -> ds_num_episodes dataset <> 0 ->
  progress_counters step batch_size dataset
  = Ok ((step + 1) * batch_size,
        (inject_Z ((step + 1) * batch_size)
         / (inject_Z (ds_num_samples dataset) / inject_Z (ds_num_episodes dataset)))%Q,
        (inject_Z ((step + 1) * batch_size) / inject_Z (ds_num_samples dataset))%Q).
Proof.
  intros Hs He. unfold progress_counters.
  assert (Hs' : ~ (inject_Z (ds_num_samples dataset) == 0)%Q) by now rewrite inject_Z_zero.
  assert (He' : ~ (inject_Z (ds_num_episodes dataset) == 0)%Q) by now rewrite inject_Z_zero.
  rewrite (truediv_ok _ He'). cbn [bind].
  rewrite truediv_ok.
  - cbn [bind]. rewrite (truediv_ok _ Hs'). reflexivity.
  - intros H. apply Hs'.
    setoid_replace (inject_Z (ds_num_samples dataset))
      with ((inject_Z (ds_num_samples dataset) / inject_Z (ds_num_episodes dataset))
            * inject_Z (ds_num_episodes dataset))%Q
      by (field; exact He').
    rewrite H. ring.
Qed.

Lemma progress_counters_zero (step batch_size : Z) (dataset : dataset_size) :
  ds_num_samples dataset = 0 \/ ds_num_episodes dataset = 0 ->
  progress_counters step batch_size dataset = Raise ZeroDivisionError.
Proof.
  intros H. unfold progress_counters.
  destruct (Z.eq_dec (ds_num_episodes dataset) 0) as [He | He].
  - rewrite truediv_zero by now apply inject_Z_zero. reflexivity.
  - destruct H as [Hs | Hz]; [ | contradiction].
    rewrite truediv_ok by now rewrite inject_Z_zero. cbn [bind].
    rewrite truediv_zero; [reflexivity | ]. rewrite Hs. unfold Qdiv. ring.
Qed.

Lemma log_info_raises (mode : log_mode) (reads : list String.string)
    (logger : list log_call) (info : info_dict) (step : Z) (cfg : config)
    (dataset : dataset_size) (is_offline : bool) :
  (Exists (fun key => ~ In key (map fst info)) reads ->
   log_info mode reads logger info step cfg dataset is_offline
   = (logger, info, Raise KeyError))
  /\ (Forall (fun key => In key (map fst info)) reads ->
      ds_num_samples dataset = 0 \/ ds_num_episodes dataset = 0 ->
      log_info mode reads logger info step cfg dataset is_offline
      = (logger, info, Raise ZeroDivisionError)).
Proof.
  split.
  - intros H. unfold log_info. now rewrite (@reads_fail info reads H).
  - intros H Hz. unfold log_info. destruct (@reads_ok info reads H) as [vs ->].
    now rewrite (@progress_counters_zero step (tr_batch_size cfg) dataset Hz).
Qed.

Lemma log_info_returns (mode : log_mode) (reads : list String.string)
    (logger : list log_call) (info : info_dict) (step : Z) (cfg : config)
    (dataset : dataset_size) (is_offline : bool) :
  Forall (fun key => In key (map fst info)) reads ->
  ds_num_samples dataset <> 0 -> ds_num_episodes dataset <> 0 ->
  exists info',
    log_info mode reads logger info step cfg dataset is_offline
    = (logger ++ [{| lc_info := info'; lc_step := step; lc_mode := mode |}], info', Ok tt)
    /\ progress_recorded info info' step (tr_batch_size cfg) dataset is_offline.
Proof.
  intros H Hs He. unfold log_info. destruct (@reads_ok info reads H) as [vs ->].
  rewrite (@progress_counters_ok step (tr_batch_size cfg) dataset Hs He).
  eexists. split; [reflexivity | ].
  assert (Hs' : ~ (inject_Z (ds_num_samples dataset) == 0)%Q) by now rewrite inject_Z_zero.
  assert (He' : ~ (inject_Z (ds_num_episodes dataset) == 0)%Q) by now rewrite inject_Z_zero.
  exists (inject_Z ((step + 1) * tr_batch_size cfg)
          / (inject_Z (ds_num_samples dataset) / inject_Z (ds_num_episodes dataset)))%Q,
         (inject_Z ((step + 1) * tr_batch_size cfg) / inject_Z (ds_num_samples dataset))%Q.
  split; [ | split; [ | split; [ | split; [ | split; [ | split; [ | split]]]]]].
  - rewrite !lookup_set_other by discriminate. apply lookup_set_same.
  - rewrite !lookup_set_other by discriminate. apply lookup_set_same.
  - rewrite !lookup_set_other by discriminate. apply lookup_set_same.
  - rewrite !lookup_set_other by discriminate. apply lookup_set_same.
  - apply lookup_set_same.
  - field. exact Hs'.
  - field. split; assumption.
  - intros key Hkey. unfold progress_keys in Hkey. simpl in Hkey.
    rewrite !lookup_set_other; [reflexivity | | | | | ]; intros E; apply Hkey; auto 10.
Qed.

(** Both logging functions fail without effect: when a key they read is
    missing from [info] they raise [KeyError], and when the keys are there
    but the dataset has no sample or no episode they raise
    [ZeroDivisionError]; in both cases [info] is as it was and the logger
    has received nothing. *)
Theorem progress_logging_fails_cleanly
    (logger : list log_call) (info : info_dict) (step : Z) (cfg : config)
    (dataset : dataset_size) (is_offline : bool) :
  let train_reads := ["loss"; "grad_norm"; "lr"; "update_s"]%string in
  let eval_reads := ["eval_s"; "avg_sum_reward"; "pc_success"]%string in
  let missing := fun key => ~ In key (map fst info) in
  let present := fun key => In key (map fst info) in
  let empty := ds_num_samples dataset = 0 \/ ds_num_episodes dataset = 0 in
  (Exists missing train_reads ->
   log_train_info logger info step cfg dataset is_offline = (logger, info, Raise KeyError))
  /\ (Forall present train_reads -> empty ->
      log_train_info logger info step cfg dataset is_offline
      = (logger, info, Raise ZeroDivisionError))
  /\ (Exists missing eval_reads ->
      log_eval_info logger info step cfg dataset is_offline
      = (logger, info, Raise KeyError))
  /\ (Forall present eval_reads -> empty ->
      log_eval_info logger info step cfg dataset is_offline
      = (logger, info, Raise ZeroDivisionError)).
Proof.
  cbv zeta. unfold log_train_info, log_eval_info.
  split; [apply log_info_raises | ]. split; [apply log_info_raises | ].
  split; apply log_info_raises.
Qed.

(** When the keys they read are there and the dataset has samples and
    episodes, both logging functions return, hand the logger one call with
    the updated dictionary, the step and their mode, and leave in the
    caller's dictionary: the step, [num_samples = (step + 1) * batch_size],
    [num_epochs] with [num_epochs * dataset.num_samples = num_samples],
    [num_episodes = num_epochs * dataset.num_episodes] (exact arithmetic)
    and the flag; every other key keeps its value. *)
Theorem progress_counters_are_logged
    (logger : list log_call) (info : info_dict) (step : Z) (cfg : config)
    (dataset : dataset_size) (is_offline : bool) :
  ds_num_samples dataset <> 0 -> ds_num_episodes dataset <> 0 ->
  (Forall (fun key => In key (map fst info)) ["loss"; "grad_norm"; "lr"; "update_s"]%string ->
   exists info',
     log_train_info logger info step cfg dataset is_offline
     = (logger ++ [{| lc_info := info'; lc_step := step; lc_mode := ModeTrain |}],
        info', Ok tt)
     /\ progress_recorded info info' step (tr_batch_size cfg) dataset is_offline)
  /\ (Forall (fun key => In key (map fst info))
        ["eval_s"; "avg_sum_reward"; "pc_success"]%string ->
      exists info',
        log_eval_info logger info step cfg dataset is_offline
        = (logger ++ [{| lc_info := info'; lc_step := step; lc_mode := ModeEval |}],
           info', Ok tt)
        /\ progress_recorded info info' step (tr_batch_size cfg) dataset is_offline).
Proof.
  intros Hs He. unfold log_train_info, log_eval_info.
  split; intros H; now apply log_info_returns.
Qed.

End ProgressLogger.

Lemma progress_logging_fails_cleanly_witness :
  Exists (fun key => ~ In key (map fst (@nil (String.string * value))))
    ["loss"; "grad_norm"; "lr"; "update_s"]%string
  /\ log_train_info [] [] 99 act_config dataset_50x20 true = ([], [], Raise KeyError)
  /\ Forall (fun key => In key (map fst eval_aggregated))
       ["eval_s"; "avg_sum_reward"; "pc_success"]%string
  /\ log_eval_info [] eval_aggregated 99 act_config
       {| ds_num_samples := 0; ds_num_episodes := 0 |} true
     = ([], eval_aggregated, Raise ZeroDivisionError).
Proof.
  assert (H1 : Exists (fun key => ~ In key (map fst (@nil (String.string * value))))
                 ["loss"; "grad_norm"; "lr"; "update_s"]%string).
  { constructor. simpl. tauto. }
  assert (H2 : Forall (fun key => In key (map fst eval_aggregated))
                 ["eval_s"; "avg_sum_reward"; "pc_success"]%string).
  { repeat constructor; simpl; tauto. }
  split; [exact H1 | ].
  split; [exact (proj1 (@progress_logging_fails_cleanly [] [] 99 act_config
                          dataset_50x20 true) H1) | ].
  split; [exact H2 | ].
  exact (proj2 (proj2 (proj2 (@progress_logging_fails_cleanly [] eval_aggregated 99
                                act_config {| ds_num_samples := 0; ds_num_episodes := 0 |}
                                true)))
           H2 (or_introl eq_refl)).
Defined.

Lemma progress_counters_are_logged_witness :
  ds_num_samples dataset_50x20 <> 0 /\ ds_num_episodes dataset_50x20 <> 0
  /\ Forall (fun key => In key (map fst train_info))
       ["loss"; "grad_norm"; "lr"; "update_s"]%string
  /\ Forall (fun key => In key (map fst eval_aggregated))
       ["eval_s"; "avg_sum_reward"; "pc_success"]%string
  /\ (exists info',
        log_train_info [] train_info 99 act_config dataset_50x20 true
        = ([{| lc_info := info'; lc_step := 99; lc_mode := ModeTrain |}], info', Ok tt)
        /\ progress_recorded train_info info' 99 8 dataset_50x20 true)
  /\ (exists info',
        log_eval_info [] eval_aggregated 99 act_config dataset_50x20 true
        = ([{| lc_info := info'; lc_step := 99; lc_mode := ModeEval |}], info', Ok tt)
        /\ progress_recorded eval_aggregated info' 99 8 dataset_50x20 true).
Proof.
  assert (H1 : ds_num_samples dataset_50x20 <> 0) by discriminate.
  assert (H2 : ds_num_episodes dataset_50x20 <> 0) by discriminate.
  assert (H3 : Forall (fun key => In key (map fst train_info))
                 ["loss"; "grad_norm"; "lr"; "update_s"]%string).
  { repeat constructor; simpl; tauto. }
  assert (H4 : Forall (fun key => In key (map fst eval_aggregated))
                 ["eval_s"; "avg_sum_reward"; "pc_success"]%string).
  { repeat constructor; simpl; tauto. }
  split; [exact H1 | ]. split; [exact H2 | ]. split; [exact H3 | ]. split; [exact H4 | ].
  split.
  - exact (proj1 (@progress_counters_are_logged [] train_info 99 act_config
                    dataset_50x20 true H1 H2) H3).
  - exact (proj2 (@progress_counters_are_logged [] eval_aggregated 99 act_config
                    dataset_50x20 true H1 H2) H4).
Defined.

(** ** The dictionary of [update_policy] *)

Section UpdateInfo.

Lemma dict_update_lookup_other (items : info_dict) :
  forall (d : info_dict) (key : String.string),
    ~ In key (map fst items) ->
    lookup_key key (dict_update d items) = lookup_key key d.
Proof.
  unfold dict_update. induction items as [ | [k v] items IH]; intros d key H;
    [reflexivity | ].
  simpl in H. cbn [fold_left fst snd].
  rewrite IH by tauto. apply lookup_set_other. tauto.
Qed.

Lemma dict_update_lookup_in (items : info_dict) :
  forall (d : info_dict) (key : String.string) (v : value),
    NoDup (map fst items) -> In (key, v) items ->
    lookup_key key (dict_update d items) = Ok v.
Proof.
  induction items as [ | [k w] items IH]; intros d key v Hnd Hin; [contradiction | ].
  simpl in Hnd. inversion Hnd as [ | ? ? Hk Hnd']; subst.
  change (dict_update d ((k, w) :: items)) with (dict_update (dict_set d k w) items).
  destruct Hin as [E | Hin].
  - injection E as -> ->. rewrite dict_update_lookup_other by assumption.
    apply lookup_set_same.
  - now apply IH.
Qed.

Lemma NoDup_keys_filter (f : String.string * value -> bool) (d : info_dict) :
  NoDup (map fst d) -> NoDup (map fst (filter f d)).
Proof.
  induction d as [ | kv d IH]; simpl; intros H; [constructor | ].
  inversion H as [ | ? ? Hk Hd]; subst.
  destruct (f kv); [ | auto]. simpl. constructor; [ | auto].
  intros Hin. apply Hk. apply in_map_iff in Hin as (x & Hx & Hxin).
  apply filter_In in Hxin as [Hxin _]. apply in_map_iff. eauto.
Qed.

Lemma lookup_key_unique (d : info_dict) (key : String.string) (v : value) :
  NoDup (map fst d) -> In (key, v) d -> lookup_key key d = Ok v.
Proof.
  induction d as [ | [k w] d IH]; simpl; intros Hnd Hin; [contradiction | ].
  inversion Hnd as [ | ? ? Hk Hd]; subst.
  destruct (String.eqb_spec k key) as [-> | Hne].
  - destruct Hin as [E | Hin]; [now injection E as -> | ].
    exfalso. apply Hk. apply in_map_iff. now exists (key, v).
  - destruct Hin as [E | Hin]; [injection E as -> _; contradiction | auto].
Qed.

(** The dictionary [update_policy] returns, for a forward pass whose
    dictionary has a loss: the loss is the one of the forward pass; every
    other entry of the forward pass is passed on, also under the names
    [grad_norm], [lr] and [update_s], where it replaces what the function
    measured; and the four keys [log_train_info] reads are there. *)
Theorem update_policy_info_has_logged_keys
    (output_dict : info_dict) (grad_norm lr update_s : Q) (loss : value) :
  NoDup (map fst output_dict) ->
  lookup_key "loss"%string output_dict = Ok loss ->
  exists info,
    update_policy_info output_dict grad_norm lr update_s = Ok info
    /\ lookup_key "loss"%string info = Ok loss
    /\ (forall key v, key <> "loss"%string -> lookup_key key output_dict = Ok v ->
                      lookup_key key info = Ok v)
    /\ (~ In "grad_norm"%string (map fst output_dict) ->
        lookup_key "grad_norm"%string info = Ok (VFloat grad_norm))
    /\ (~ In "lr"%string (map fst output_dict) ->
        lookup_key "lr"%string info = Ok (VFloat lr))
    /\ (~ In "update_s"%string (map fst output_dict) ->
        lookup_key "update_s"%string info = Ok (VFloat update_s))
    /\ Forall (fun key => In key (map fst info))
         ["loss"; "grad_norm"; "lr"; "update_s"]%string.
Proof.
  intros Hnd Hloss. unfold update_policy_info. rewrite Hloss. cbn [bind].
  set (others := filter (fun kv => negb (String.eqb (fst kv) "loss"%string)) output_dict).
  set (base := [("loss"%string, loss); ("grad_norm"%string, VFloat grad_norm);
                ("lr"%string, VFloat lr); ("update_s"%string, VFloat update_s)]).
  assert (Hnd' : NoDup (map fst others)) by now apply NoDup_keys_filter.
  assert (Hno_loss : ~ In "loss"%string (map fst others)).
  { intros Hin. apply in_map_iff in Hin as ([k v] & Hk & Hin). simpl in Hk. subst k.
    apply filter_In in Hin as [_ Hin]. simpl in Hin. discriminate. }
  assert (Hsub : forall key, ~ In key (map fst output_dict) -> ~ In key (map fst others)).
  { intros key Hkey Hin. apply Hkey. apply in_map_iff in Hin as (x & Hx & Hin).
    apply filter_In in Hin as [Hin _]. apply in_map_iff. eauto. }
  assert (Hpass : forall key v, key <> "loss"%string -> lookup_key key output_dict = Ok v ->
                                lookup_key key (dict_update base others) = Ok v).
  { intros key v Hne Hl. apply dict_update_lookup_in; [exact Hnd' | ].
    apply filter_In. split; [now apply lookup_key_in | ]. simpl.
    destruct (String.eqb_spec key "loss"); [contradiction | reflexivity]. }
  assert (Hkeep : forall key, ~ In key (map fst others) ->
                              lookup_key key (dict_update base others) = lookup_key key base).
  { intros key Hkey. now apply dict_update_lookup_other. }
  assert (Hthere : forall key, In key (map fst base) ->
                               In key (map fst (dict_update base others))).
  { intros key Hbase.
    assert (Hex : exists v, lookup_key key (dict_update base others) = Ok v).
    { destruct (in_dec String.string_dec key (map fst others)) as [Hin | Hnin].
      - apply in_map_iff in Hin as ([k v] & Hk & Hin). simpl in Hk. subst k.
        exists v. now apply dict_update_lookup_in.
      - rewrite (Hkeep key Hnin). now apply lookup_key_found. }
    destruct Hex as [v Hv]. apply lookup_key_in in Hv.
    apply in_map_iff. now exists (key, v). }
  eexists. split; [reflexivity | ].
  split; [rewrite (Hkeep _ Hno_loss); reflexivity | ].
  split; [exact Hpass | ].
  split; [intros H; rewrite (Hkeep _ (Hsub _ H)); reflexivity | ].
  split; [intros H; rewrite (Hkeep _ (Hsub _ H)); reflexivity | ].
  split; [intros H; rewrite (Hkeep _ (Hsub _ H)); reflexivity | ].
  repeat constructor; apply Hthere; simpl; tauto.
Qed.

End UpdateInfo.

Lemma update_policy_info_has_logged_keys_witness :
  NoDup (map fst [("loss"%string, VFloat (1 # 4)); ("lr"%string, VFloat 7)])
  /\ lookup_key "loss"%string [("loss"%string, VFloat (1 # 4)); ("lr"%string, VFloat 7)]
     = Ok (VFloat (1 # 4))
  /\ exists info,
       update_policy_info [("loss"%string, VFloat (1 # 4)); ("lr"%string, VFloat 7)]
         (3 # 2) (1 # 100000) (1 # 20)
       = Ok info
       /\ lookup_key "loss"%string info = Ok (VFloat (1 # 4))
       /\ lookup_key "lr"%string info = Ok (VFloat 7)
       /\ lookup_key "grad_norm"%string info = Ok (VFloat (3 # 2))
       /\ Forall (fun key => In key (map fst info))
            ["loss"; "grad_norm"; "lr"; "update_s"]%string.
Proof.
  assert (H1 : NoDup (map fst [("loss"%string, VFloat (1 # 4)); ("lr"%string, VFloat 7)])).
  { simpl. constructor; [simpl; intros [H | []]; discriminate | ].
    constructor; [simpl; tauto | constructor]. }
  assert (H2 : lookup_key "loss"%string
                 [("loss"%string, VFloat (1 # 4)); ("lr"%string, VFloat 7)]
               = Ok (VFloat (1 # 4))) by reflexivity.
  split; [exact H1 | ]. split; [exact H2 | ].
  destruct (@update_policy_info_has_logged_keys
              [("loss"%string, VFloat (1 # 4)); ("lr"%string, VFloat 7)]
              (3 # 2) (1 # 100000) (1 # 20) (VFloat (1 # 4)) H1 H2)
    as (info & Hinfo & Hloss & Hpass & Hgn & _ & _ & Hkeys).
  exists info. split; [exact Hinfo | ]. split; [exact Hloss | ].
  split; [apply Hpass; [discriminate | reflexivity] | ].
  split; [apply Hgn; simpl; intros [H | [H | []]]; discriminate | exact Hkeys].
Defined.
